(** * curriculum_vitae_extractor: document assembly and response parsing

    A shallow embedding of
    - [core/client/document_intelligence_client.py]
      ([table_to_markdown], [PriorityQueue], [OCR_text_from_pdf],
      [analyze_document], [create_document_intelligence_client]),
    - [core/agent/cv_reader_agent.py] ([CV_Reader_Agent.parse_into_json]),
    - [core/client/pdf_reader.py] ([PDF_Reader]),
    - [core/base/base_agent.py] ([check_malicious_keywords_in_query]),
    - [core/base/base_llm.py] ([BaseOpenAI], [AzureOpenAI]) and
    - [core/client/llm_client.py] ([OpenAIClient]),
    together with the parts of the Python runtime these functions run on
    ([str.split], [str.join], [in], [str.lower], tuple comparison, the
    [heapq] module, [os.environ.get], [json.loads]).

    Python [int] is [Z]; [str] is [string], the UTF-8 bytes of the text
    (bytes compare as the code points do, and a separator in ASCII is
    found at the same places); a list is a [list]; a raised exception is
    the [Raise] outcome of the [py] monad.  The calls to the services
    (Document Intelligence, PyMuPDF) are parameters of the functions that
    make them. *)

From Stdlib Require Import ZArith Lia ZifyNat Ascii String Sorting Permutation.
From stdpp Require Import gmap strings list pretty sorting.
From Equations Require Import Equations.
From Equations.Prop Require Import Logic.
From Stdlib Require PrimFloat.

(* ================================================================== *)
(** * Part I: the embedding *)
(* ================================================================== *)

(** ** Exceptions *)

Inductive exn : Set :=
| TypeError
| IndexError
| ValueError
| JSONDecodeError.

Inductive py (A : Type) : Type :=
| Ok (a : A)
| Raise (e : exn).
Arguments Ok {A} a.
Arguments Raise {A} e.

#[global] Instance exn_eq_dec : EqDecision exn.
Proof. solve_decision. Defined.
#[global] Instance py_eq_dec {A} `{EqDecision A} : EqDecision (py A).
Proof. solve_decision. Defined.

#[global] Instance py_ret : MRet py := fun A a => Ok a.
#[global] Instance py_bind : MBind py := fun A B k m =>
  match m with
  | Ok a => k a
  | Raise e => Raise e
  end.

(** ** Strings *)

Module Str.

(** [sep.join(l)] *)
Fixpoint join (sep : string) (l : list string) : string :=
  match l with
  | [] => ""
  | [x] => x
  | x :: xs => x +:+ sep +:+ join sep xs
  end.

(** [sub in s] *)
Fixpoint contains (sub s : string) : bool :=
  String.prefix sub s ||
  match s with
  | EmptyString => false
  | String _ s' => contains sub s'
  end.

(** The scan of [s.split(sep)] for a non-empty [sep]: the piece that is
    being read, and the pieces after it.  [skip] counts the characters of
    an occurrence of [sep] that are still to be passed over: occurrences
    are taken from left to right and do not overlap. *)
Fixpoint split_scan (sep : string) (skip : nat) (s : string)
  : string * list string :=
  match s with
  | EmptyString => (EmptyString, [])
  | String c s' =>
    match skip with
    | S k => split_scan sep k s'
    | O =>
      if String.prefix sep s
      then let '(p, ps) := split_scan sep (String.length sep - 1) s' in
           (EmptyString, p :: ps)
      else let '(p, ps) := split_scan sep 0 s' in
           (String c p, ps)
    end
  end.

(** [s.split(sep)]; an empty separator is a [ValueError]. *)
Definition split (s sep : string) : py (list string) :=
  match sep with
  | EmptyString => Raise ValueError
  | _ => let '(p, ps) := split_scan sep 0 s in Ok (p :: ps)
  end.

Definition lower_char (c : ascii) : ascii :=
  let n := nat_of_ascii c in
  if (65 <=? n)%nat && (n <=? 90)%nat then ascii_of_nat (n + 32) else c.

(** [s.lower()], on the letters [A]-[Z] *)
Fixpoint lower (s : string) : string :=
  match s with
  | EmptyString => EmptyString
  | String c s' => String (lower_char c) (lower s')
  end.

(** [str(n)] and the [{n}] of an f-string, for an [int] *)
Definition of_int (n : Z) : string := pretty n.

End Str.

(** [l[i]] for [i >= 0] *)
Definition getitem {A} (l : list A) (i : nat) : py A :=
  match l !! i with
  | Some x => Ok x
  | None => Raise IndexError
  end.

(** [l[i] = x] for [i >= 0] *)
Definition setitem {A} (l : list A) (i : nat) (x : A) : py (list A) :=
  if decide (i < length l) then Ok (<[i := x]> l) else Raise IndexError.

(** The newline character of Python's ["\n"]. *)
Definition NL : string := String (ascii_of_nat 10) EmptyString.

(** ** The analysis result of the Document Intelligence service *)

Module DocumentSpan.
Record t := { offset : Z; length : Z }.
End DocumentSpan.

Module Cell.
Record t := { row_index : Z; content : string }.
End Cell.

Module Table.
Record t := { cells : list Cell.t; row_count : Z; spans : list DocumentSpan.t }.
End Table.

Module Paragraph.
Record t := { content : string; role : option string;
              spans : list DocumentSpan.t }.
End Paragraph.

(** A result of the analysis of which both fields are set. *)
Record AnalyzeResult :=
  { paragraphs : list Paragraph.t; tables : list Table.t }.

(** The result as the client of the service gives it: [paragraphs] and
    [tables] are optional, and [None] when the service leaves them out. *)
Module Analysis.
Record t :=
  { paragraphs : option (list Paragraph.t);
    tables : option (list Table.t) }.
End Analysis.

(** ** [table_to_markdown] *)

(** [[cell.content for cell in table.cells if cell.row_index == r]] *)
Definition row_contents (table : Table.t) (r : Z) : list string :=
  Cell.content <$> filter (fun cell => Cell.row_index cell = r) (Table.cells table).

Definition markdown_line (row : list string) : string :=
  "| " +:+ Str.join " | " row +:+ " |" +:+ NL.

(** [range(lo, hi)] *)
Definition range (lo hi : Z) : list Z :=
  (fun k => (lo + Z.of_nat k)%Z) <$> seq 0 (Z.to_nat (hi - lo)).

Definition table_to_markdown (table : Table.t) : string :=
  let markdown := "" in
  let headers := row_contents table 0 in
  let markdown := markdown +:+ markdown_line headers in
  let markdown := markdown +:+ markdown_line (replicate (length headers) "---") in
  foldl (fun markdown row_index =>
           let row := row_contents table row_index in
           markdown +:+ markdown_line row)
        markdown (range 1 (Table.row_count table)).

(** ** The [heapq] module (CPython, [Lib/heapq.py])

    A heap is a Python list; [lt] is the [<] of its items. *)

Module heapq.
Section heapq.
Context {A : Type} (lt : A -> A -> bool).

(** The loop of [_siftdown(heap, startpos, pos)]: [newitem] is carried
    towards the root while it is smaller than the parent of its place. *)
Equations? siftdown_loop (heap : list A) (newitem : A) (startpos pos : nat)
  : py (list A) by wf pos Nat.lt :=
  siftdown_loop heap newitem startpos pos with decide (startpos < pos) := {
    | right _ => setitem heap pos newitem
    | left _ with getitem heap ((pos - 1) / 2) := {
      | Raise e => Raise e
      | Ok parent with lt newitem parent := {
        | false => setitem heap pos newitem
        | true with setitem heap pos parent := {
          | Raise e => Raise e
          | Ok heap' => siftdown_loop heap' newitem startpos ((pos - 1) / 2) } } } }.
Proof.
  change (Nat.divmod (pos - 1) 1 0 1).1 with ((pos - 1) / 2).
  unfold Nat.lt. lia.
Qed.

Definition _siftdown (heap : list A) (startpos pos : nat) : py (list A) :=
  newitem ← getitem heap pos;
  siftdown_loop heap newitem startpos pos.

(** [heappush(heap, item)]: append, then [_siftdown(heap, 0, len(heap)-1)] *)
Definition heappush (heap : list A) (item : A) : py (list A) :=
  let heap := heap ++ [item] in
  _siftdown heap 0 (length heap - 1).

(** The test of [_siftup] that moves [childpos] to the right child:
    [rightpos < endpos and not heap[childpos] < heap[rightpos]] *)
Definition right_is_smaller (heap : list A) (endpos childpos : nat) : py bool :=
  let rightpos := childpos + 1 in
  if decide (rightpos < endpos) then
    l ← getitem heap childpos;
    r ← getitem heap rightpos;
    Ok (negb (lt l r))
  else Ok false.

(** The loop of [_siftup(heap, pos)]: the smaller child is moved up until
    a leaf is reached; the result is the heap and the leaf. *)
Equations? siftup_loop (heap : list A) (endpos pos : nat)
  : py (list A * nat) by wf (endpos - pos) Nat.lt :=
  siftup_loop heap endpos pos with decide (2 * pos + 1 < endpos) := {
    | right _ => Ok (heap, pos)
    | left _ with right_is_smaller heap endpos (2 * pos + 1) := {
      | Raise e => Raise e
      | Ok b with getitem heap (if b then 2 * pos + 1 + 1 else 2 * pos + 1) := {
        | Raise e => Raise e
        | Ok child with setitem heap pos child := {
          | Raise e => Raise e
          | Ok heap' =>
            siftup_loop heap' endpos (if b then 2 * pos + 1 + 1 else 2 * pos + 1)
          } } } }.
Proof. unfold Nat.lt. destruct b; lia. Qed.

(** [_siftup(heap, pos)] *)
Definition _siftup (heap : list A) (pos : nat) : py (list A) :=
  let endpos := length heap in
  let startpos := pos in
  newitem ← getitem heap pos;
  '(heap, pos) ← siftup_loop heap endpos pos;
  heap ← setitem heap pos newitem;
  _siftdown heap startpos pos.

(** [heap.pop()] of a Python list *)
Definition list_pop (heap : list A) : py (A * list A) :=
  match last heap with
  | Some lastelt => Ok (lastelt, removelast heap)
  | None => Raise IndexError
  end.

(** [heappop(heap)]: the smallest item and the heap without it *)
Definition heappop (heap : list A) : py (A * list A) :=
  '(lastelt, heap) ← list_pop heap;
  if decide (heap = []) then Ok (lastelt, heap)
  else
    returnitem ← getitem heap 0;
    heap ← setitem heap 0 lastelt;
    heap ← _siftup heap 0;
    Ok (returnitem, heap).

End heapq.
End heapq.

(** *** Lengths: the sifts keep the length of the list, [heappop] takes
    one item away.  (Needed for the termination of the loop that empties
    the queue.) *)

Section heapq_length.
Context {A : Type} (lt : A -> A -> bool).

Lemma setitem_Ok (l l' : list A) i x :
  setitem l i x = Ok l' -> i < length l /\ l' = <[i := x]> l.
Proof. unfold setitem. case_decide; intros [=]; auto. Qed.

Lemma getitem_Ok (l : list A) i x :
  getitem l i = Ok x -> l !! i = Some x.
Proof. unfold getitem. destruct (l !! i); intros [=]; congruence. Qed.

Lemma setitem_length (l l' : list A) i x :
  setitem l i x = Ok l' -> length l' = length l.
Proof. intros [_ ->]%setitem_Ok. apply length_insert. Qed.

Lemma siftdown_loop_length heap newitem startpos pos heap' :
  heapq.siftdown_loop lt heap newitem startpos pos = Ok heap' ->
  length heap' = length heap.
Proof.
  funelim (heapq.siftdown_loop lt heap newitem startpos pos);
    try congruence; intros Hr.
  - eauto using setitem_length.
  - eauto using setitem_length.
  - rewrite (H _ Hr). eauto using setitem_length.
Qed.

Lemma siftdown_length heap startpos pos heap' :
  heapq._siftdown lt heap startpos pos = Ok heap' ->
  length heap' = length heap.
Proof.
  unfold heapq._siftdown. destruct (getitem heap pos); simpl; [|done].
  apply siftdown_loop_length.
Qed.

Lemma siftup_loop_length heap endpos pos heap' pos' :
  heapq.siftup_loop lt heap endpos pos = Ok (heap', pos') ->
  length heap' = length heap.
Proof.
  funelim (heapq.siftup_loop lt heap endpos pos);
    try congruence; intros Hr.
  rewrite (H _ _ Hr). eauto using setitem_length.
Qed.

Lemma siftup_length heap pos heap' :
  heapq._siftup lt heap pos = Ok heap' -> length heap' = length heap.
Proof.
  unfold heapq._siftup. destruct (getitem heap pos); simpl; [|done].
  destruct (heapq.siftup_loop _ _ _ _) as [[h1 p1]|] eqn:E1; simpl; [|done].
  destruct (setitem h1 p1 a) as [h2|] eqn:E2; simpl; [|done].
  intros ->%siftdown_length.
  rewrite (setitem_length _ _ _ _ E2). eauto using siftup_loop_length.
Qed.

Lemma list_pop_Ok (heap : list A) x heap' :
  heapq.list_pop heap = Ok (x, heap') -> heap = heap' ++ [x].
Proof.
  unfold heapq.list_pop. destruct heap as [|a l] using rev_ind; [done|].
  rewrite last_snoc, removelast_last. by intros [= -> ->].
Qed.

Lemma heappop_length heap x heap' :
  heapq.heappop lt heap = Ok (x, heap') -> length heap = S (length heap').
Proof.
  unfold heapq.heappop.
  destruct (heapq.list_pop heap) as [[lastelt h0]|] eqn:E0; simpl; [|done].
  apply list_pop_Ok in E0 as ->. rewrite length_app; simpl.
  case_decide.
  - intros [= _ <-]. lia.
  - destruct (getitem h0 0); simpl; [|done].
    destruct (setitem h0 0 lastelt) as [h1|] eqn:E1; simpl; [|done].
    destruct (heapq._siftup lt h1 0) as [h2|] eqn:E2; simpl; [|done].
    intros [= _ <-]. apply siftup_length in E2.
    apply setitem_length in E1. lia.
Qed.
End heapq_length.

(** ** Tuples [(priority, item)] and their comparison

    Python compares tuples item by item: the first pair of items that
    differ decides; here an [int] and then a [str]. *)

Definition entry : Type := Z * string.

Definition entry_lt (a b : entry) : bool :=
  if (a.1 =? b.1)%Z then String.ltb a.2 b.2 else (a.1 <? b.1)%Z.

(** ** [class PriorityQueue] *)

Module PriorityQueue.

Record t := { _queue : list entry }.

(** [__init__] *)
Definition init : t := {| _queue := [] |}.

(** [push(priority, item)]: [heapq.heappush(self._queue, (priority, item))] *)
Definition push (self : t) (priority : Z) (item : string) : py t :=
  q ← heapq.heappush entry_lt (_queue self) (priority, item);
  Ok {| _queue := q |}.

(** [is_empty()]: [len(self._queue) == 0] *)
Definition is_empty (self : t) : bool :=
  bool_decide (length (_queue self) = 0).

(** [heapq.heappop(self._queue)], the popped tuple and the queue left *)
Definition pop_entry (self : t) : py (entry * t) :=
  '(e, q) ← heapq.heappop entry_lt (_queue self);
  Ok (e, {| _queue := q |}).

(** [pop()]: [heapq.heappop(self._queue)[-1]] *)
Definition pop (self : t) : py (string * t) :=
  '(e, self) ← pop_entry self;
  Ok (e.2, self).

End PriorityQueue.

Lemma pop_entry_length pq e pq' :
  PriorityQueue.pop_entry pq = Ok (e, pq') ->
  length (PriorityQueue._queue pq') < length (PriorityQueue._queue pq).
Proof.
  unfold PriorityQueue.pop_entry.
  destruct (heapq.heappop _ _) as [[e0 q]|] eqn:E; simpl; [|done].
  intros [= _ <-]. apply heappop_length in E. simpl. lia.
Qed.

Lemma pop_length pq item pq' :
  PriorityQueue.pop pq = Ok (item, pq') ->
  length (PriorityQueue._queue pq') < length (PriorityQueue._queue pq).
Proof.
  unfold PriorityQueue.pop.
  destruct (PriorityQueue.pop_entry pq) as [[e q]|] eqn:E; simpl; [|done].
  intros [= _ <-]. eauto using pop_entry_length.
Qed.

(** ** Configuration

    [MIN_WORD_THRESHOLD = os.environ.get("MIN_WORD_THRESHOLD", 1)]: the
    environment holds strings, the default is the [int] 1. *)

Inductive pyval : Set :=
| PyInt (n : Z)
| PyStr (s : string).

(** [os.environ.get(key, default)] *)
Definition environ_get (environ : gmap string string) (key : string)
    (default : pyval) : pyval :=
  match environ !! key with
  | Some v => PyStr v
  | None => default
  end.

Definition MIN_WORD_THRESHOLD (environ : gmap string string) : pyval :=
  environ_get environ "MIN_WORD_THRESHOLD" (PyInt 1).

(** [n > v] for an [int] [n]: an [int] and a [str] do not compare. *)
Definition int_gt (n : Z) (v : pyval) : py bool :=
  match v with
  | PyInt m => Ok (m <? n)%Z
  | PyStr _ => Raise TypeError
  end.

(** A [for] loop whose body may raise. *)
Fixpoint for_each {S X : Type} (body : S -> X -> py S) (s : S) (l : list X)
  : py S :=
  match l with
  | [] => Ok s
  | x :: l' => s' ← body s x; for_each body s' l'
  end.

(** ** [OCR_text_from_pdf] *)

Section OCR.
(** The value of the module constant [MIN_WORD_THRESHOLD]. *)
Variable threshold : pyval.

(** [any(content == cell.content for cell in table.cells)] *)
Definition any_cell (content : string) (table : Table.t) : bool :=
  existsb (fun cell => String.eqb content (Cell.content cell))
          (Table.cells table).

(** The inner loop over [result.tables], left at the first match. *)
Fixpoint check_tables (content : string) (tables : list Table.t) : bool :=
  match tables with
  | [] => false
  | table :: tables' =>
    if any_cell content table then true else check_tables content tables'
  end.

(** [len(content.split(' '))] *)
Definition word_count (content : string) : py Z :=
  words ← Str.split content " ";
  Ok (Z.of_nat (length words)).

(** [not check and paragraph.role != 'pageNumber'
     and len(content.split(' ')) > MIN_WORD_THRESHOLD]:
    a conjunct is evaluated only when those before it hold. *)
Definition kept (tables : list Table.t) (paragraph : Paragraph.t) : py bool :=
  let content := Paragraph.content paragraph in
  let check := check_tables content tables in
  if negb check then
    if negb (bool_decide (Paragraph.role paragraph = Some "pageNumber")) then
      n ← word_count content;
      int_gt n threshold
    else Ok false
  else Ok false.

(** The body of the loop over [result.paragraphs]. *)
Definition push_paragraph (tables : list Table.t) (pq : PriorityQueue.t)
    (paragraph : Paragraph.t) : py PriorityQueue.t :=
  let content := Paragraph.content paragraph in
  keep ← kept tables paragraph;
  if (keep : bool) then
    span ← getitem (Paragraph.spans paragraph) 0;
    PriorityQueue.push pq (DocumentSpan.offset span) content
  else Ok pq.

(** The body of the loop over [result.tables]. *)
Definition push_table (pq : PriorityQueue.t) (table : Table.t)
  : py PriorityQueue.t :=
  let table_string := table_to_markdown table in
  span ← getitem (Table.spans table) 0;
  PriorityQueue.push pq (DocumentSpan.offset span) table_string.

(** [while not pq.is_empty(): items = pq.pop(); result_string += items + "\n"] *)
Equations? drain (pq : PriorityQueue.t) (result_string : string)
  : py string by wf (length (PriorityQueue._queue pq)) Nat.lt :=
  drain pq result_string with PriorityQueue.is_empty pq := {
    | true => Ok result_string
    | false with inspect (PriorityQueue.pop pq) := {
      | exist _ (Raise e) _ => Raise e
      | exist _ (Ok (items, pq')) Hpop =>
        drain pq' (result_string +:+ items +:+ NL) } }.
Proof. eauto using pop_length. Qed.

(** The same loop, keeping the tuples in the order they leave the queue. *)
Equations? drain_entries (pq : PriorityQueue.t)
  : py (list entry) by wf (length (PriorityQueue._queue pq)) Nat.lt :=
  drain_entries pq with PriorityQueue.is_empty pq := {
    | true => Ok []
    | false with inspect (PriorityQueue.pop_entry pq) := {
      | exist _ (Raise e) _ => Raise e
      | exist _ (Ok (e, pq')) Hpop with drain_entries pq' := {
        | Raise e' => Raise e'
        | Ok es => Ok (e :: es) } } }.
Proof. eauto using pop_entry_length. Qed.

(** The queue when both [for] loops are over. *)
Definition fill_queue (result : AnalyzeResult) : py PriorityQueue.t :=
  let pq := PriorityQueue.init in
  pq ← for_each (push_paragraph (tables result)) pq (paragraphs result);
  for_each push_table pq (tables result).

(** [OCR_text_from_pdf] from [result = poller.result()] on. *)
Definition OCR_text (result : AnalyzeResult) : py string :=
  let result_string := "" in
  pq ← fill_queue result;
  drain pq result_string.

(** The fragments of the output, with their offsets, in output order. *)
Definition OCR_fragments (result : AnalyzeResult) : py (list entry) :=
  pq ← fill_queue result;
  drain_entries pq.

End OCR.

(** [OCR_text_from_pdf] from [result = poller.result()] on, for the result
    as the service gives it: the [for] loops of lines 73, 76 and 83 run
    over a field that may be [None], which is not iterable. *)

Section OCR_optional.
Variable threshold : pyval.

(** [for x in l]: the list that the loop runs over. *)
Definition iterable {A} (l : option (list A)) : py (list A) :=
  match l with
  | Some l => Ok l
  | None => Raise TypeError
  end.

Definition OCR_text_optional (result : Analysis.t) : py string :=
  let result_string := "" in
  let pq := PriorityQueue.init in
  paragraphs ← iterable (Analysis.paragraphs result);
  pq ← for_each (fun pq paragraph =>
                   tables ← iterable (Analysis.tables result);
                   push_paragraph threshold tables pq paragraph)
                pq paragraphs;
  tables ← iterable (Analysis.tables result);
  pq ← for_each push_table pq tables;
  drain pq result_string.

End OCR_optional.

(** ** [json.loads]

    The decoder of CPython's [json] module on a [str]: JSON values, with
    the literals [NaN], [Infinity] and [-Infinity] that it also accepts.
    A number with a fraction or an exponent is kept as its literal; a
    [dict] is the list of its keys in insertion order. *)

#[local] Set Warnings "-register-all".
Inductive json : Type :=
| JNull
| JBool (b : bool)
| JInt (n : Z)
| JFloat (literal : string)
| JStr (s : string)
| JList (l : list json)
| JDict (d : list (string * json)).

Module Json.
Local Open Scope char_scope.

(** [d[key] = value] *)
Fixpoint dict_set (d : list (string * json)) (key : string) (value : json)
  : list (string * json) :=
  match d with
  | [] => [(key, value)]
  | (k, v) :: d' =>
    if String.eqb k key then (k, value) :: d'
    else (k, v) :: dict_set d' key value
  end.

(** [dict(pairs)] *)
Definition dict (pairs : list (string * json)) : list (string * json) :=
  foldl (fun d kv => dict_set d kv.1 kv.2) [] pairs.

(** The double quote. *)
Definition DQUOTE : ascii := ascii_of_nat 34.

Definition is_ws (c : ascii) : bool :=
  match c with
  | " " | "009" | "010" | "013" => true
  | _ => false
  end.

Fixpoint skip_ws (s : string) : string :=
  match s with
  | String c s' => if is_ws c then skip_ws s' else s
  | EmptyString => s
  end.

Definition is_digit (c : ascii) : bool :=
  let n := nat_of_ascii c in (48 <=? n)%nat && (n <=? 57)%nat.

Definition hex_digit (c : ascii) : option N :=
  let n := N_of_ascii c in
  if (48 <=? n)%N && (n <=? 57)%N then Some (n - 48)%N
  else if (65 <=? n)%N && (n <=? 70)%N then Some (n - 55)%N
  else if (97 <=? n)%N && (n <=? 102)%N then Some (n - 87)%N
  else None.

(** The four hexadecimal digits of a [\uXXXX] escape. *)
Definition hex4 (s : string) : option (N * string) :=
  match s with
  | String a (String b (String c (String d s'))) =>
    a ← hex_digit a; b ← hex_digit b; c ← hex_digit c; d ← hex_digit d;
    Some (((a * 16 + b) * 16 + c) * 16 + d, s')%N
  | _ => None
  end.

Definition byte (n : N) : string := String (ascii_of_N n) EmptyString.

(** The UTF-8 bytes of a code point. *)
Definition utf8 (u : N) : string :=
  (if u <? 128 then byte u
   else if u <? 2048 then byte (192 + u / 64) +:+ byte (128 + u mod 64)
   else if u <? 65536 then
     byte (224 + u / 4096) +:+ byte (128 + (u / 64) mod 64)
     +:+ byte (128 + u mod 64)
   else
     byte (240 + u / 262144) +:+ byte (128 + (u / 4096) mod 64)
     +:+ byte (128 + (u / 64) mod 64) +:+ byte (128 + u mod 64))%N.

(** A [\u] escape, after the [u]: a high surrogate followed by the escape
    of a low one is the code point of the pair. *)
Definition unicode_escape (s : string) : option (string * string) :=
  '(uni, s1) ← hex4 s;
  if ((55296 <=? uni) && (uni <=? 56319))%N then
    match s1 with
    | String "\" (String "u" s2) =>
      match hex4 s2 with
      | Some (uni2, s3) =>
        if ((56320 <=? uni2) && (uni2 <=? 57343))%N
        then Some (utf8 (65536 + (uni - 55296) * 1024 + (uni2 - 56320))%N, s3)
        else Some (utf8 uni, s1)
      | None => Some (utf8 uni, s1)
      end
    | _ => Some (utf8 uni, s1)
    end
  else Some (utf8 uni, s1).

(** [scanstring], after the opening quote: the string and what follows
    its closing quote. *)
Fixpoint scanstring (fuel : nat) (s : string) : option (string * string) :=
  match fuel with
  | O => None
  | S fuel =>
    match s with
    | EmptyString => None
    | String c s' =>
      if Ascii.eqb c DQUOTE then Some (EmptyString, s')
      else if Ascii.eqb c "\" then
        match s' with
        | String e s'' =>
          let simple (c : ascii) :=
            '(r, rest) ← scanstring fuel s''; Some (String c r, rest) in
          if Ascii.eqb e DQUOTE then simple DQUOTE
          else
            match e with
            | "\" => simple "\"
            | "/" => simple "/"
            | "b" => simple "008"
            | "f" => simple "012"
            | "n" => simple "010"
            | "r" => simple "013"
            | "t" => simple "009"
            | "u" =>
              '(chars, s3) ← unicode_escape s'';
              '(r, rest) ← scanstring fuel s3;
              Some (chars +:+ r, rest)
            | _ => None
            end
        | EmptyString => None
        end
      else if (nat_of_ascii c <? 32)%nat then None
      else '(r, rest) ← scanstring fuel s'; Some (String c r, rest)
    end
  end.

(** The digits at the head of [s], and the rest. *)
Fixpoint digits (s : string) : string * string :=
  match s with
  | String c s' =>
    if is_digit c then let '(d, r) := digits s' in (String c d, r)
    else (EmptyString, s)
  | EmptyString => (EmptyString, s)
  end.

Definition digit_value (c : ascii) : Z := Z.of_nat (nat_of_ascii c - 48).

Definition int_of_digits (d : string) : Z :=
  foldl (fun n c => (10 * n + digit_value c)%Z) 0%Z (list_ascii_of_string d).

(** The integer part of a number: [0], or a digit that is not [0] and
    the digits after it. *)
Definition intpart (s : string) : option (string * string) :=
  match s with
  | String "0" s' => Some ("0"%string, s')
  | String c _ =>
    if is_digit c then Some (digits s) else None
  | EmptyString => None
  end.

(** [(\.\d+)?]: a fraction, when there is one *)
Definition frac (s : string) : string * string :=
  match s with
  | String "." s' =>
    match digits s' with
    | (EmptyString, _) => (EmptyString, s)
    | (d, r) => (String "." d, r)
    end
  | _ => (EmptyString, s)
  end.

(** [([eE][-+]?\d+)?]: an exponent, when there is one *)
Definition exponent (s : string) : string * string :=
  match s with
  | String e s' =>
    if (Ascii.eqb e "e" || Ascii.eqb e "E")%bool then
      let '(sign, s'') :=
        match s' with
        | String "-" t => ("-"%string, t)
        | String "+" t => ("+"%string, t)
        | _ => (EmptyString, s')
        end in
      match digits s'' with
      | (EmptyString, _) => (EmptyString, s)
      | (d, r) => (String e (sign +:+ d), r)
      end
    else (EmptyString, s)
  | EmptyString => (EmptyString, s)
  end.

(** A match of [NUMBER_RE] at the head of [s]. *)
Definition number (s : string) : option (json * string) :=
  let '(neg, s0) :=
    match s with
    | String "-" t => (true, t)
    | _ => (false, s)
    end in
  '(i, s1) ← intpart s0;
  let '(f, s2) := frac s1 in
  let '(e, s3) := exponent s2 in
  match f, e with
  | EmptyString, EmptyString =>
    Some (JInt (if neg then - int_of_digits i else int_of_digits i)%Z, s3)
  | _, _ => Some (JFloat ((if neg then "-" else "")%string +:+ i +:+ f +:+ e), s3)
  end.

(** [word] at the head of [s]: what follows it. *)
Definition after (word s : string) : option string :=
  if String.prefix word s
  then Some (String.substring (String.length word)
                              (String.length s - String.length word) s)
  else None.

(** The values that are neither strings, objects nor arrays. *)
Definition atom (s : string) : option (json * string) :=
  match after "null" s, after "true" s, after "false" s with
  | Some r, _, _ => Some (JNull, r)
  | _, Some r, _ => Some (JBool true, r)
  | _, _, Some r => Some (JBool false, r)
  | _, _, _ =>
    match number s with
    | Some v => Some v
    | None =>
      match after "NaN" s, after "Infinity" s, after "-Infinity" s with
      | Some r, _, _ => Some (JFloat "NaN", r)
      | _, Some r, _ => Some (JFloat "Infinity", r)
      | _, _, Some r => Some (JFloat "-Infinity", r)
      | _, _, _ => None
      end
    end
  end.

(** What the scanner is reading: one value, the items of an array after
    [values], or the pairs of an object after [pairs]. *)
Inductive task : Type :=
| ScanOnce
| ArrayItems (values : list json)
| ObjectPairs (pairs : list (string * json)).

Fixpoint scan (fuel : nat) (t : task) (s : string) : option (json * string) :=
  match fuel with
  | O => None
  | S fuel =>
    match t with
    | ScanOnce =>
      match s with
      | String "{" s' =>
        match skip_ws s' with
        | String "}" r => Some (JDict [], r)
        | r => scan fuel (ObjectPairs []) r
        end
      | String "[" s' =>
        match skip_ws s' with
        | String "]" r => Some (JList [], r)
        | r => scan fuel (ArrayItems []) r
        end
      | String c s' =>
        if Ascii.eqb c DQUOTE then
          '(str, r) ← scanstring (String.length s) s'; Some (JStr str, r)
        else atom s
      | EmptyString => atom s
      end
    | ArrayItems values =>
      '(value, r) ← scan fuel ScanOnce s;
      let values := values ++ [value] in
      match skip_ws r with
      | String "]" r' => Some (JList values, r')
      | String "," r' => scan fuel (ArrayItems values) (skip_ws r')
      | _ => None
      end
    | ObjectPairs pairs =>
      match s with
      | String c s' =>
        if Ascii.eqb c DQUOTE then
          '(key, r) ← scanstring (String.length s) s';
          match skip_ws r with
          | String ":" r' =>
            '(value, r'') ← scan fuel ScanOnce (skip_ws r');
            let pairs := pairs ++ [(key, value)] in
            match skip_ws r'' with
            | String "}" r3 => Some (JDict (dict pairs), r3)
            | String "," r3 => scan fuel (ObjectPairs pairs) (skip_ws r3)
            | _ => None
            end
          | _ => None
          end
        else None
      | EmptyString => None
      end
    end
  end.

(** [json.loads(s)]: one value between whitespace, and nothing else. *)
Definition loads (s : string) : py json :=
  match scan (2 * String.length s + 2) ScanOnce (skip_ws s) with
  | Some (value, r) =>
    match skip_ws r with
    | EmptyString => Ok value
    | _ => Raise JSONDecodeError
    end
  | None => Raise JSONDecodeError
  end.

End Json.

(** ** [CV_Reader_Agent.parse_into_json] *)

Section Agent.
Context {J : Type}.
(** [json.loads] *)
Variable json_loads : string -> py J.

Definition parse_into_json (llm_response separator : string) : py J :=
  parts ← Str.split llm_response separator;
  let separator :=
    if negb (1 <? length parts) then Str.lower separator else separator in
  llm_response ←
    (if Str.contains separator llm_response then
       parts ← Str.split llm_response separator;
       if 1 <? length parts then getitem parts 1 else Ok llm_response
     else Ok llm_response);
  parts ← Str.split llm_response "```";
  json_data ← getitem parts 0;
  json_loads json_data.

End Agent.

(** The default of [separator]. *)
Definition default_separator : string := "```JSON".

(** ** Outcomes with the exceptions of a library

    The calls into [PyPDF2], [pdf2image] and [pytesseract] raise exceptions
    of these libraries and of the operating system: [E] is the type of
    the exceptions (the subclasses of [Exception]) that such a call can
    raise. *)

Inductive outcome (E A : Type) : Type :=
| Returns (a : A)
| Raises (e : E).
Arguments Returns {E A} a.
Arguments Raises {E A} e.

#[global] Instance outcome_ret {E} : MRet (outcome E) := fun A a => Returns a.
#[global] Instance outcome_bind {E} : MBind (outcome E) := fun A B k m =>
  match m with
  | Returns a => k a
  | Raises e => Raises e
  end.

(** The results of the calls of a loop, made one after the other: the
    first exception ends the loop. *)
Fixpoint collect {E A} (calls : list (outcome E A)) : outcome E (list A) :=
  match calls with
  | [] => Returns []
  | call :: calls' =>
    a ← call;
    l ← collect calls';
    Returns (a :: l)
  end.

(** ** [PDF_Reader] ([core/client/pdf_reader.py])

    What [PyPDF2] makes of the file: opening or parsing it may raise;
    otherwise there is, for every page, the outcome of
    [reader.pages[page].extract_text()], which the loops ask for page
    after page.  The file is the same each time it is opened. *)

Definition pdf (E : Type) : Type := outcome E (list (outcome E string)).

(** The characters of [[a-zA-Z0-9]] *)
Definition alnum (c : ascii) : bool :=
  let n := nat_of_ascii c in
  ((48 <=? n)%nat && (n <=? 57)%nat)
  || ((65 <=? n)%nat && (n <=? 90)%nat)
  || ((97 <=? n)%nat && (n <=? 122)%nat).

(** The truth value of [re.search(r'[a-zA-Z0-9]', text)] *)
Fixpoint search_alnum (text : string) : bool :=
  match text with
  | EmptyString => false
  | String c text' => alnum c || search_alnum text'
  end.

Module PDF_Reader.
Section PDF_Reader.
Context {E Image : Type}.
(** [pdf2image.convert_from_path(filepath)] *)
Variable convert_from_path : outcome E (list Image).
(** [pytesseract.image_to_string] *)
Variable image_to_string : Image -> outcome E string.

(** The [for] loop of [is_digital_pdf], inside its [try]: [None] is the
    value of the function when the loop ends without [return], and when
    an exception is caught. *)
Fixpoint is_digital_loop (pages : list (outcome E string)) : option bool :=
  match pages with
  | [] => None
  | page :: pages' =>
    match page with
    | Raises _ => None
    | Returns text =>
      match text with
      | EmptyString => Some false
      | _ => if search_alnum text then Some true else is_digital_loop pages'
      end
    end
  end.

Definition is_digital_pdf (file : pdf E) : option bool :=
  match file with
  | Raises _ => None
  | Returns pages => is_digital_loop pages
  end.

Definition ocr : outcome E string :=
  pages ← convert_from_path;
  extracted_text ← collect (image_to_string <$> pages);
  Returns (Str.join NL extracted_text).

Definition read_digital_pdf (file : pdf E) : outcome E string :=
  pages ← file;
  extracted_text ← collect pages;
  Returns (Str.join NL extracted_text).

(** [if self.is_digital_pdf(filepath)] holds for [True] only. *)
Definition extract_text_from_pdf (file : pdf E) : outcome E string :=
  match is_digital_pdf file with
  | Some true => read_digital_pdf file
  | _ => ocr
  end.

End PDF_Reader.
End PDF_Reader.

(** ** [BaseAgent.check_malicious_keywords_in_query]
    ([core/base/base_agent.py]) *)

Definition dangerous_modules : list string :=
  [ " os"; " io"; ".os"; ".io"; "'os'"; "'io'";
    String Json.DQUOTE ("os" +:+ String Json.DQUOTE "");
    String Json.DQUOTE ("io" +:+ String Json.DQUOTE "");
    "chr("; "chr)"; "chr "; "(chr"; "b64decode" ].

Definition check_malicious_keywords_in_query (query : string) : bool :=
  existsb (fun module => Str.contains module query) dangerous_modules.

(** ** Python objects, [or], and dicts

    The values that the parameters of the model take.  A float is an IEEE
    binary64 number, as in CPython.  A dict is the list of its items, in
    the order of insertion. *)

Inductive pyobject : Type :=
| VNone
| VBool (b : bool)
| VInt (n : Z)
| VFloat (x : PrimFloat.float)
| VStr (s : string)
| VList (l : list pyobject)
| VDict (d : list (string * pyobject)).

Abbreviation dict := (list (string * pyobject)).

Module Float.
Import PrimFloat.
Definition zero : float := 0%float.
Definition one : float := 1%float.
#[warnings="-inexact-float"] Definition six_tenths : float := 0.6%float.
End Float.

(** [bool(v)] *)
Definition truthy (v : pyobject) : bool :=
  match v with
  | VNone => false
  | VBool b => b
  | VInt n => negb (n =? 0)%Z
  | VFloat x => negb (PrimFloat.eqb x Float.zero)
  | VStr s => negb (String.eqb s "")
  | VList l => negb (Nat.eqb (length l) 0)
  | VDict d => negb (Nat.eqb (length d) 0)
  end.

(** [x or y] *)
Definition or_ (x y : pyobject) : pyobject := if truthy x then x else y.

(** [v is None] *)
Definition is_None (v : pyobject) : bool :=
  match v with
  | VNone => true
  | _ => false
  end.

(** [d.get(key)], without the default *)
Fixpoint dict_get (d : dict) (key : string) : option pyobject :=
  match d with
  | [] => None
  | (k, v) :: d' => if String.eqb k key then Some v else dict_get d' key
  end.

(** [d[key] = v] *)
Fixpoint dict_set (d : dict) (key : string) (v : pyobject) : dict :=
  match d with
  | [] => [(key, v)]
  | (k, v') :: d' =>
    if String.eqb k key then (k, v) :: d' else (k, v') :: dict_set d' key v
  end.

(** [{**a, **b}] *)
Definition dict_merge (a b : dict) : dict :=
  fold_left (fun d '(key, v) => dict_set d key v) b a.

(** [os.getenv(key)] *)
Definition getenv (environ : gmap string string) (key : string) : pyobject :=
  match environ !! key with
  | Some s => VStr s
  | None => VNone
  end.

(** [os.environ.get(key, default)] *)
Definition environ_get_default (environ : gmap string string) (key : string)
    (default : pyobject) : pyobject :=
  match environ !! key with
  | Some s => VStr s
  | None => default
  end.

(** ** [BaseOpenAI] and [AzureOpenAI] ([core/base/base_llm.py])

    The exceptions: the built-in ones, [APIKeyNotFoundError] of this
    module, the [NameError] of a name that is not defined, the
    [AttributeError] of an attribute that is not set, and the exceptions
    [E] of the calls that are parameters of the model (the [openai]
    library). *)

Inductive error (E : Type) : Type :=
| Builtin (e : exn)
| APIKeyNotFoundError (message : string)
| NameError (name : string)
| AttributeError (name : string)
| External (e : E).
Arguments Builtin {E} e.
Arguments APIKeyNotFoundError {E} message.
Arguments NameError {E} name.
Arguments AttributeError {E} name.
Arguments External {E} e.

(** A call that is a parameter of the model, with its exception. *)
Definition external {E A} (call : outcome E A) : outcome (error E) A :=
  match call with
  | Returns a => Returns a
  | Raises e => Raises (External e)
  end.

(** The attributes of the classes [LLM], [BaseOpenAI] and [AzureOpenAI]
    that have a value in the class. *)
Definition class_attributes : dict :=
  [ ("last_prompt", VNone);
    ("api_base", VStr "https://api.openai.com/v1");
    ("temperature", VInt 0);
    ("max_tokens", VInt 1000);
    ("top_p", VInt 1);
    ("frequency_penalty", VInt 0);
    ("presence_penalty", VFloat Float.six_tenths);
    ("best_of", VInt 1);
    ("n", VInt 1);
    ("stop", VNone);
    ("request_timeout", VNone);
    ("max_retries", VInt 2);
    ("seed", VNone);
    ("openai_proxy", VNone);
    ("default_headers", VNone);
    ("default_query", VNone);
    ("http_client", VNone);
    ("azure_endpoint", VNone);
    ("azure_ad_token", VNone);
    ("azure_ad_token_provider", VNone);
    ("api_version", VStr "");
    ("api_type", VStr "azure") ].

(** [self.name], for an instance with the attributes [self]: the
    attribute of the instance, or else that of the class. *)
Definition getattr {E} (self : dict) (name : string)
  : outcome (error E) pyobject :=
  match dict_get self name with
  | Some v => Returns v
  | None =>
    match dict_get class_attributes name with
    | Some v => Returns v
    | None => Raises (AttributeError name)
    end
  end.

(** [v > 1] *)
Definition gt_1 {E} (v : pyobject) : outcome (error E) bool :=
  match v with
  | VInt n => Returns (1 <? n)%Z
  | VBool _ => Returns false
  | VFloat x => Returns (PrimFloat.ltb Float.one x)
  | _ => Raises (Builtin TypeError)
  end.

(** [if b: raise e] *)
Definition raise_if {E} (b : bool) (e : error E) : outcome (error E) unit :=
  if b then Raises e else Returns tt.

Definition valid_params : list string :=
  [ "model"; "deployment_name"; "temperature"; "max_tokens"; "top_p";
    "frequency_penalty"; "presence_penalty"; "stop"; "seed" ].

Module BaseOpenAI.
Section BaseOpenAI.
Context {E : Type}.
(** [is_openai_v1()] *)
Variable is_openai_v1 : bool.

Definition _set_params (self : dict) (kwargs : dict) : dict :=
  fold_left (fun self '(key, value) =>
               if bool_decide (key ∈ valid_params)
               then dict_set self key value else self)
            kwargs self.

Definition _default_params (self : dict) : outcome (error E) dict :=
  temperature ← getattr self "temperature";
  top_p ← getattr self "top_p";
  frequency_penalty ← getattr self "frequency_penalty";
  presence_penalty ← getattr self "presence_penalty";
  seed ← getattr self "seed";
  stop ← getattr self "stop";
  n ← getattr self "n";
  let params : dict :=
    [ ("temperature", temperature); ("top_p", top_p);
      ("frequency_penalty", frequency_penalty);
      ("presence_penalty", presence_penalty);
      ("seed", seed); ("stop", stop); ("n", n) ] in
  max_tokens ← getattr self "max_tokens";
  let params :=
    if negb (is_None max_tokens)
    then dict_set params "max_tokens" max_tokens else params in
  best_of ← getattr self "best_of";
  more ← gt_1 best_of;
  Returns (if (more : bool) then dict_set params "best_of" best_of
           else params).

(** [_invocation_params]; [self._default_params] is the property of the
    class of [self]. *)
Definition _invocation_params
    (self_default_params : dict -> outcome (error E) dict) (self : dict)
  : outcome (error E) dict :=
  openai_creds ←
    (if negb is_openai_v1
     then api_token ← getattr self "api_token";
          api_base ← getattr self "api_base";
          Returns (dict_merge [] [("api_key", api_token);
                                  ("api_base", api_base)])
     else Returns []);
  default_params ← self_default_params self;
  Returns (dict_merge openai_creds default_params).

Definition _client_params (self : dict) : outcome (error E) dict :=
  api_token ← getattr self "api_token";
  api_base ← getattr self "api_base";
  request_timeout ← getattr self "request_timeout";
  max_retries ← getattr self "max_retries";
  default_headers ← getattr self "default_headers";
  default_query ← getattr self "default_query";
  http_client ← getattr self "http_client";
  Returns [ ("api_key", api_token); ("base_url", api_base);
            ("timeout", request_timeout); ("max_retries", max_retries);
            ("default_headers", default_headers);
            ("default_query", default_query);
            ("http_client", http_client) ].

End BaseOpenAI.
End BaseOpenAI.

Module AzureOpenAI.

(** The value of [self.client]: an attribute of the object that
    the call of [openai.AzureOpenAI] has made, or a class of the library. *)
Inductive client (SDK : Type) : Type :=
| chat_completions (sdk : SDK)
| completions (sdk : SDK)
| ChatCompletion
| Completion.
Arguments chat_completions {SDK} sdk.
Arguments completions {SDK} sdk.
Arguments ChatCompletion {SDK}.
Arguments Completion {SDK}.

(** An instance: its attributes, and its client. *)
Record t (SDK : Type) : Type :=
  { attributes : dict; self_client : client SDK }.
Arguments attributes {SDK} _.
Arguments self_client {SDK} _.

Section AzureOpenAI.
Context {E SDK : Type}.
(** [os.environ] *)
Variable environ : gmap string string.
(** [is_openai_v1()] *)
Variable is_openai_v1 : bool.
(** [openai.AzureOpenAI], called with the client parameters *)
Variable openai_AzureOpenAI : dict -> outcome E SDK.
(** [client.create], called with the parameters: the [message.content]
    of the choices of the response. *)
Variable create : client SDK -> dict -> outcome E (list pyobject).

Definition _default_params (self : dict) : outcome (error E) dict :=
  params ← BaseOpenAI._default_params self;
  deployment_name ← getattr self "deployment_name";
  Returns (dict_merge params
             [(if is_openai_v1 then "model" else "engine", deployment_name)]).

Definition _invocation_params (self : dict) : outcome (error E) dict :=
  if is_openai_v1
  then BaseOpenAI._invocation_params is_openai_v1 _default_params self
  else
    params ← BaseOpenAI._invocation_params is_openai_v1 _default_params self;
    api_type ← getattr self "api_type";
    api_version ← getattr self "api_version";
    Returns (dict_merge params [("api_type", api_type);
                                ("api_version", api_version)]).

Definition _client_params (self : dict) : outcome (error E) dict :=
  api_version ← getattr self "api_version";
  azure_endpoint ← getattr self "azure_endpoint";
  deployment_name ← getattr self "deployment_name";
  azure_ad_token ← getattr self "azure_ad_token";
  azure_ad_token_provider ← getattr self "azure_ad_token_provider";
  let client_params : dict :=
    [ ("api_version", api_version); ("azure_endpoint", azure_endpoint);
      ("azure_deployment", deployment_name);
      ("azure_ad_token", azure_ad_token);
      ("azure_ad_token_provider", azure_ad_token_provider) ] in
  params ← BaseOpenAI._client_params self;
  Returns (dict_merge client_params params).

(** The messages of the exceptions of [__init__] *)
Definition key_required : string :=
  "Azure OpenAI key is required. Please add an environment variable "
  +:+ "`AZURE_OPENAI_API_KEY` or `OPENAI_API_KEY` or pass `api_token` as a named parameter".
Definition endpoint_required : string :=
  "Azure endpoint is required. Please add an environment variable "
  +:+ "`AZURE_OPENAI_API_ENDPOINT` or pass `azure_endpoint` as a named parameter".
Definition base_required : string :=
  "Azure OpenAI base is required. Please add an environment variable "
  +:+ "`OPENAI_API_BASE` or pass `api_base` as a named parameter".
Definition version_required : string :=
  "Azure OpenAI version is required. Please add an environment variable "
  +:+ "`OPENAI_API_VERSION` or pass `api_version` as a named parameter".

(** [__init__]; [kwargs] holds the keyword arguments that are not
    parameters of [__init__].  The assignment to [openai.proxy], a global
    of the library, is not in the outcome. *)
Definition __init__
    (api_token azure_endpoint azure_ad_token azure_ad_token_provider
       api_base api_version deployment_name is_chat_model : pyobject)
    (kwargs : dict) : outcome (error E) (t SDK) :=
  let self : dict := [] in
  let self :=
    dict_set self "api_token"
      (or_ (or_ api_token (getenv environ "AZURE_OPENAI_API_KEY"))
           (getenv environ "OPENAI_API_KEY")) in
  let self :=
    dict_set self "azure_endpoint"
      (or_ azure_endpoint (getenv environ "AZURE_OPENAI_ENDPOINT")) in
  let self :=
    dict_set self "api_base"
      (or_ api_base (getenv environ "OPENAI_API_BASE")) in
  let self :=
    dict_set self "api_version"
      (or_ api_version (getenv environ "OPENAI_API_VERSION")) in
  token ← getattr self "api_token";
  _ ← raise_if (is_None token)
        (APIKeyNotFoundError key_required);
  _ ← (if is_openai_v1
       then endpoint ← getattr self "azure_endpoint";
            raise_if (is_None endpoint)
              (APIKeyNotFoundError endpoint_required)
       else base ← getattr self "api_base";
            raise_if (is_None base)
              (APIKeyNotFoundError base_required));
  version ← getattr self "api_version";
  _ ← raise_if (is_None version)
        (APIKeyNotFoundError version_required);
  (* [MissingModelError] is not a name of the module *)
  _ ← raise_if (is_None deployment_name) (NameError "MissingModelError");
  let self :=
    dict_set self "azure_ad_token"
      (or_ azure_ad_token (getenv environ "AZURE_OPENAI_AD_TOKEN")) in
  let self := dict_set self "azure_ad_token_provider" azure_ad_token_provider in
  let self := dict_set self "_is_chat_model" is_chat_model in
  let self := dict_set self "deployment_name" deployment_name in
  let self :=
    dict_set self "openai_proxy"
      (or_ (default VNone (dict_get kwargs "openai_proxy"))
           (getenv environ "OPENAI_PROXY")) in
  let self := BaseOpenAI._set_params self kwargs in
  chat ← getattr self "_is_chat_model";
  if truthy chat
  then
    if is_openai_v1
    then client_params ← _client_params self;
         sdk ← external (openai_AzureOpenAI client_params);
         Returns {| attributes := self; self_client := chat_completions sdk |}
    else Returns {| attributes := self; self_client := ChatCompletion |}
  else
    if is_openai_v1
    then client_params ← _client_params self;
         sdk ← external (openai_AzureOpenAI client_params);
         Returns {| attributes := self; self_client := completions sdk |}
    else Returns {| attributes := self; self_client := Completion |}.

(** [BaseOpenAI.chat_completion], on an instance of [AzureOpenAI] *)
Definition chat_completion (self : t SDK) (value : pyobject)
  : outcome (error E) pyobject :=
  let messages := [VDict [("role", VStr "user"); ("content", value)]] in
  invocation_params ← _invocation_params (attributes self);
  let params := dict_merge invocation_params [("messages", VList messages)] in
  stop ← getattr (attributes self) "stop";
  let params :=
    if negb (is_None stop) then dict_set params "stop" (VList [stop])
    else params in
  choices ← external (create (self_client self) params);
  match choices with
  | [] => Raises (Builtin IndexError)
  | content :: _ => Returns content
  end.

End AzureOpenAI.
End AzureOpenAI.

(** ** [AzDocumentIntelligenceClient]
    ([core/client/document_intelligence_client.py]) *)

Module AzDocumentIntelligenceClient.
Section AzDocumentIntelligenceClient.
Context {E Credential Client : Type}.
(** [AzureKeyCredential(key)] *)
Variable AzureKeyCredential : pyobject -> outcome E Credential.
(** [DocumentIntelligenceClient(endpoint, credential, api_version)] *)
Variable DocumentIntelligenceClient :
  pyobject -> Credential -> pyobject -> outcome E Client.

(** [create_document_intelligence_client]: the outcome of the call, and
    the value of the class attribute [document_intelligence_client] after
    it. *)
Definition create_document_intelligence_client
    (document_intelligence_client : option Client)
    (DOCUMENT_INTELLIGENCE_ENDPOINT DOCUMENT_INTELLIGENCE_KEY
       DOCUMENT_INTELLIGENCE_API_VERSION : pyobject)
  : outcome E Client * option Client :=
  match document_intelligence_client with
  | Some client => (Returns client, Some client)
  | None =>
    match
      credential ← AzureKeyCredential DOCUMENT_INTELLIGENCE_KEY;
      DocumentIntelligenceClient DOCUMENT_INTELLIGENCE_ENDPOINT credential
        DOCUMENT_INTELLIGENCE_API_VERSION
    with
    | Returns client => (Returns client, Some client)
    | Raises e => (Raises e, None)
    end
  end.

End AzDocumentIntelligenceClient.
End AzDocumentIntelligenceClient.

(** ** [OpenAIClient] ([core/client/llm_client.py])

    The environment is that of the import of the module. *)

Module OpenAIClient.
Section OpenAIClient.
Context {E SDK : Type}.
(** [os.environ] *)
Variable environ : gmap string string.
(** [is_openai_v1()] *)
Variable is_openai_v1 : bool.
(** [openai.AzureOpenAI], called with the client parameters *)
Variable openai_AzureOpenAI : dict -> outcome E SDK.
(** [float(x)] *)
Variable float : pyobject -> outcome E pyobject.

Definition AZURE_OPENAI_KEY : pyobject := getenv environ "AZURE_OPENAI_KEY".
Definition AZURE_OPENAI_ENDPOINT : pyobject :=
  environ_get_default environ "AZURE_OPENAI_ENDPOINT"
    (VStr "https://pas-gpt-eastus2.openai.azure.com/").
Definition AZURE_OPENAI_API_VERSION : pyobject :=
  environ_get_default environ "AZURE_OPENAI_API_VERSION"
    (VStr "2023-06-01-preview").
Definition AZURE_OPENAI_DEPLOYMENT_NAME : pyobject :=
  environ_get_default environ "AZURE_OPENAI_DEPLOYMENT_NAME"
    (VStr "gpt-4o-eastus2").
Definition AZURE_OPENAI_TEMPERATURE : pyobject :=
  environ_get_default environ "AZURE_OPENAI_TEMPERATURE" (VInt 0).
Definition AZURE_OPENAI_TOP_P : pyobject :=
  environ_get_default environ "AZURE_OPENAI_TOP_P" (VFloat Float.one).

(** [create_azure_openai_chat_client]: the outcome of the call, and the
    value of the class attribute [pandas_openai_chat_client] after it. *)
Definition create_azure_openai_chat_client
    (pandas_openai_chat_client : option (AzureOpenAI.t SDK))
    (api_token azure_endpoint api_version deployment_name temperature top_p
       presence_penalty max_tokens is_chat_model : pyobject)
  : outcome (error E) (AzureOpenAI.t SDK) * option (AzureOpenAI.t SDK) :=
  match pandas_openai_chat_client with
  | Some llm => (Returns llm, Some llm)
  | None =>
    match
      temperature ← external (float temperature);
      top_p ← external (float top_p);
      AzureOpenAI.__init__ environ is_openai_v1 openai_AzureOpenAI
        api_token azure_endpoint VNone VNone VNone api_version
        deployment_name is_chat_model
        [ ("temperature", temperature);
          ("presence_penalty", presence_penalty);
          ("top_p", top_p); ("max_tokens", max_tokens) ]
    with
    | Returns llm => (Returns llm, Some llm)
    | Raises e => (Raises e, None)
    end
  end.

(** The call with the defaults of the parameters. *)
Definition create_azure_openai_chat_client_default
    (pandas_openai_chat_client : option (AzureOpenAI.t SDK)) :=
  create_azure_openai_chat_client pandas_openai_chat_client
    AZURE_OPENAI_KEY AZURE_OPENAI_ENDPOINT AZURE_OPENAI_API_VERSION
    AZURE_OPENAI_DEPLOYMENT_NAME AZURE_OPENAI_TEMPERATURE AZURE_OPENAI_TOP_P
    (VInt 0) (VInt 1500) (VBool true).

End OpenAIClient.
End OpenAIClient.

(** ** [OCR_text_from_pdf] and [analyze_document]

    The calls of [OCR_text_from_pdf] share the stream [pdfBytes] and the
    class attribute [document_intelligence_client].  Line 67 wraps the
    stream in a new [io.BufferedReader], which is an argument of the call
    of the service and to which nothing else refers: when
    [OCR_text_from_pdf] returns the reader is finalized, and a reader
    that is finalized closes the stream it reads.  A reader cannot be
    made on a closed stream. *)

(** A binary stream, as far as the calls can tell. *)
Inductive stream : Set :=
| Open
| Closed.

(** [io.BufferedReader(raw)] *)
Definition BufferedReader (raw : stream) : py unit :=
  match raw with
  | Open => Ok tt
  | Closed => Raise ValueError
  end.

(** [pdfBytes.seek(0)] *)
Definition seek (pdfBytes : stream) : py unit :=
  match pdfBytes with
  | Open => Ok tt
  | Closed => Raise ValueError
  end.

(** [f"{page}-{page+1999}"] *)
Definition window (page : Z) : string :=
  Str.of_int page +:+ "-" +:+ Str.of_int (page + 1999).

Section Driver.
Context {Credential Client : Type}.
(** The value of the module constant [MIN_WORD_THRESHOLD]. *)
Variable threshold : pyval.
(** [os.environ], when the module is imported *)
Variable environ : gmap string string.
(** [AzureKeyCredential(key)] *)
Variable AzureKeyCredential : pyobject -> outcome exn Credential.
(** [DocumentIntelligenceClient(endpoint, credential, api_version)] *)
Variable DocumentIntelligenceClient :
  pyobject -> Credential -> pyobject -> outcome exn Client.
(** The service on the document at hand:
    [client.begin_analyze_document("prebuilt-layout", ...,
    pages=pages).result()] *)
Variable begin_analyze_document : Client -> option string -> py Analysis.t.
(** [fitz.open(stream=pdfBytes, filetype="pdf").page_count] *)
Variable page_count : py Z.

Definition DOCUMENT_INTELLIGENCE_KEY : pyobject :=
  getenv environ "DOCUMENT_INTELLIGENCE_KEY".
Definition DOCUMENT_INTELLIGENCE_ENDPOINT : pyobject :=
  getenv environ "DOCUMENT_INTELLIGENCE_ENDPOINT".
Definition DOCUMENT_INTELLIGENCE_API_VERSION : pyobject :=
  environ_get_default environ "DOCUMENT_INTELLIGENCE_API_VERSION"
    (VStr "2024-02-29-preview").

(** [OCR_text_from_pdf(pdfBytes, pages)]: the text, and, when it returns,
    the stream and the class attribute after the call. *)
Definition OCR_text_from_pdf (pdfBytes : stream)
    (document_intelligence_client : option Client) (pages : option string)
  : py (string * stream * option Client) :=
  let '(created, document_intelligence_client) :=
    AzDocumentIntelligenceClient.create_document_intelligence_client
      AzureKeyCredential DocumentIntelligenceClient
      document_intelligence_client
      DOCUMENT_INTELLIGENCE_ENDPOINT DOCUMENT_INTELLIGENCE_KEY
      DOCUMENT_INTELLIGENCE_API_VERSION in
  match created with
  | Raises e => Raise e
  | Returns document_analysis_client =>
    _ ← BufferedReader pdfBytes;
    result ← begin_analyze_document document_analysis_client pages;
    result_string ← OCR_text_optional threshold result;
    Ok (result_string, Closed, document_intelligence_client)
  end.

(** The [while page < num_pages] loop.  [issued] lists the [pages]
    arguments of the calls of [OCR_text_from_pdf] made so far, oldest
    first. *)
Equations? window_loop (num_pages page : Z) (pdfBytes : stream)
    (document_intelligence_client : option Client)
    (issued : list (option string)) (result_string : string)
  : list (option string) * py string
  by wf (Z.to_nat (num_pages - page)) Nat.lt :=
  window_loop num_pages page pdfBytes document_intelligence_client issued
              result_string
    with decide (page < num_pages)%Z := {
    | right _ => (issued, Ok result_string)
    | left _
      with OCR_text_from_pdf pdfBytes document_intelligence_client
             (Some (window page)) := {
      | Raise e => (issued ++ [Some (window page)], Raise e)
      | Ok (text, pdfBytes', document_intelligence_client') =>
        window_loop num_pages (page + 2000) pdfBytes'
                    document_intelligence_client'
                    (issued ++ [Some (window page)])
                    (result_string +:+ text) } }.
Proof. unfold Nat.lt. lia. Qed.

(** [analyze_document(pdfBytes, file_type)]: the [pages] arguments of the
    calls of [OCR_text_from_pdf] it made, and its outcome. *)
Definition analyze_document (pdfBytes : stream)
    (document_intelligence_client : option Client) (file_type : string)
  : list (option string) * py string :=
  match seek pdfBytes with
  | Raise e => ([], Raise e)
  | Ok _ =>
    if String.eqb file_type "docx"
    then ([None],
          '(result_string, _, _) ←
            OCR_text_from_pdf pdfBytes document_intelligence_client None;
          Ok result_string)
    else
      match page_count with
      | Raise e => ([], Raise e)
      | Ok num_pages =>
        window_loop num_pages 1 pdfBytes document_intelligence_client [] ""
      end
  end.

End Driver.

(** ** Vocabulary of the properties *)

(** The pages [page], [page + 2000], ... below [num_pages]. *)
Definition starts_from (page num_pages : Z) : list Z :=
  (fun k => page + 2000 * Z.of_nat k)%Z
    <$> seq 0 (Z.to_nat ((num_pages - page + 1999) / 2000)).

(** The place above [i] in a heap. *)
Definition parent (i : nat) : nat := (i - 1) / 2.

Section heap_order.
Context {A : Type} (lt : A -> A -> bool).

(** [x <= y], as [not y < x] *)
Definition le (x y : A) : Prop := lt y x = false.

(** The invariant of [heapq]: no item is smaller than its parent. *)
Definition is_heap (h : list A) : Prop :=
  forall i x p, 0 < i -> h !! i = Some x -> h !! parent i = Some p -> le p x.

(** A heap with a hole at [pos]: what is at [pos] is not looked at; the
    other items are in order with their parents, and the items below the
    hole with the item above it. *)
Definition hole_heap (h : list A) (pos : nat) : Prop :=
  (forall i x p, 0 < i -> i <> pos -> parent i <> pos ->
                 h !! i = Some x -> h !! parent i = Some p -> le p x)
  /\ (forall i x g, 0 < pos -> parent i = pos ->
                    h !! i = Some x -> h !! parent pos = Some g -> le g x).

(** Every item below the hole is at least [newitem]. *)
Definition hole_fits (h : list A) (pos : nat) (newitem : A) : Prop :=
  forall c x, 0 < c -> parent c = pos -> h !! c = Some x -> le newitem x.

End heap_order.

(** The order of the tuples: by priority, and by item among equal
    priorities. *)
Definition entry_le (a b : entry) : Prop :=
  (a.1 < b.1)%Z \/ (a.1 = b.1 /\ String.le a.2 b.2).

(** The text of a list of fragments: each item and a newline. *)
Definition lines (es : list entry) : string :=
  foldr (fun e s => e.2 +:+ NL +:+ s) "" es.

(** The tuple pushed for a paragraph, and for a table. *)
Definition entry_of_paragraph (p : Paragraph.t) : option entry :=
  s ← Paragraph.spans p !! 0;
  Some (DocumentSpan.offset s, Paragraph.content p).

Definition entry_of_table (t : Table.t) : option entry :=
  s ← Table.spans t !! 0;
  Some (DocumentSpan.offset s, table_to_markdown t).

(** The paragraphs that pass the test of line 80. *)
Definition kept_paragraphs (threshold : pyval) (result : AnalyzeResult)
  : list Paragraph.t :=
  filter (fun p => kept threshold (tables result) p = Ok true)
         (paragraphs result).

(** The tuples that the two [for] loops push. *)
Definition pushed (threshold : pyval) (result : AnalyzeResult) : list entry :=
  omap entry_of_paragraph (kept_paragraphs threshold result)
  ++ omap entry_of_table (tables result).

(** The paragraphs for which line 80 gets to its third conjunct. *)
Definition reaches_word_count (tables : list Table.t) (p : Paragraph.t)
  : bool :=
  negb (check_tables (Paragraph.content p) tables)
  && negb (bool_decide (Paragraph.role p = Some "pageNumber")).

(** ** Sample inputs *)

Definition cell (r : Z) (c : string) : Cell.t :=
  {| Cell.row_index := r; Cell.content := c |}.

Definition span (o : Z) : DocumentSpan.t :=
  {| DocumentSpan.offset := o; DocumentSpan.length := 1 |}.

Definition paragraph (o : Z) (c : string) (r : option string) : Paragraph.t :=
  {| Paragraph.content := c; Paragraph.role := r;
     Paragraph.spans := [span o] |}.

(** The table of header [Name], [Age] and one row [Alice], [30]. *)
Definition name_age_cells : list Cell.t :=
  [cell 0 "Name"; cell 0 "Age"; cell 1 "Alice"; cell 1 "30"].

Definition name_age_table : Table.t :=
  {| Table.cells := name_age_cells; Table.row_count := 2;
     Table.spans := [span 20] |}.

(** A result with a table, paragraphs around it, a paragraph that repeats
    a cell, a paragraph of one word, a page number, and two paragraphs at
    the same offset. *)
Definition sample_result : AnalyzeResult :=
  {| paragraphs :=
       [ paragraph 50 "hello world" None;
         paragraph 10 "Curriculum Vitae of Alice" None;
         paragraph 22 "Name" None;
         paragraph 12 "one" None;
         paragraph 60 "Page 1 of 3" (Some "pageNumber");
         paragraph 10 "A B" None ];
     tables := [name_age_table] |}.

(** The same result, listed by the service in another order. *)
Definition sample_result' : AnalyzeResult :=
  {| paragraphs := reverse (paragraphs sample_result);
     tables := tables sample_result |}.

(** A page number of four words, alone. *)
Definition page_number_result : AnalyzeResult :=
  {| paragraphs := [paragraph 0 "Page 1 of 3" (Some "pageNumber")];
     tables := [] |}.

(** A response of the model: [body] on a line of its own between an
    opening fence with [tag] and a closing fence. *)
Definition fenced (tag body : string) : string :=
  "```" +:+ tag +:+ NL +:+ body +:+ NL +:+ "```".

(** The JSON text of the object with the key [a] and the value 1. *)
Definition a1 : string :=
  let q := String Json.DQUOTE EmptyString in
  "{" +:+ q +:+ "a" +:+ q +:+ ":1}".

(* ================================================================== *)
(** * Part II: properties *)
(* ================================================================== *)

(** ** The runtime, on samples

    What CPython gives on these inputs. *)

Example split_spaces : Str.split "a  b" " " = Ok ["a"; ""; "b"].
Proof. reflexivity. Qed.

Example split_no_overlap : Str.split "aaa" "aa" = Ok [""; "a"].
Proof. reflexivity. Qed.

Example split_empty : Str.split "" " " = Ok [""].
Proof. reflexivity. Qed.

Example split_marker :
  Str.split "x```JSON1```JSONy" "```JSON" = Ok ["x"; "1"; "y"].
Proof. reflexivity. Qed.

Example split_empty_separator : Str.split "abc" "" = Raise ValueError.
Proof. reflexivity. Qed.

Example join_three : Str.join ", " ["a"; "b"; "c"] = "a, b, c".
Proof. reflexivity. Qed.

Example lower_marker : Str.lower "```JSON" = "```json".
Proof. reflexivity. Qed.

Example of_int_samples :
  Str.of_int 0 = "0" /\ Str.of_int 4001 = "4001" /\ Str.of_int (-7) = "-7".
Proof. repeat split; reflexivity. Qed.

Example heappush_samples :
  for_each (heapq.heappush entry_lt) []
           [(5, "e"); (3, "c"); (8, "h"); (1, "a"); (3, "b"); (1, "a")]%Z
  = Ok [(1, "a"); (3, "b"); (1, "a"); (5, "e"); (3, "c"); (8, "h")]%Z.
Proof. reflexivity. Qed.

Example heappop_sample :
  heapq.heappop entry_lt
    [(1, "a"); (3, "b"); (1, "a"); (5, "e"); (3, "c"); (8, "h")]%Z
  = Ok ((1, "a"), [(1, "a"); (3, "b"); (8, "h"); (5, "e"); (3, "c")])%Z.
Proof. reflexivity. Qed.

Example loads_values :
  Json.loads " [1, -2.5e3, [true, false, null], {}, -0, 12, NaN] "
  = Ok (JList [JInt 1; JFloat "-2.5e3";
               JList [JBool true; JBool false; JNull];
               JDict []; JInt 0; JInt 12; JFloat "NaN"]).
Proof. reflexivity. Qed.

Example loads_object : Json.loads a1 = Ok (JDict [("a", JInt 1)]).
Proof. reflexivity. Qed.

Example loads_errors :
  Json.loads "[1, 01]" = Raise JSONDecodeError
  /\ Json.loads "1." = Raise JSONDecodeError
  /\ Json.loads "[1,]" = Raise JSONDecodeError
  /\ Json.loads "{a:1}" = Raise JSONDecodeError
  /\ Json.loads "" = Raise JSONDecodeError.
Proof. repeat split; reflexivity. Qed.

(** ** Strings *)

#[local] Arguments String.append !_ _ / : simpl nomatch.

Lemma str_app_nil_r (s : string) : s +:+ "" = s.
Proof. induction s; simpl; congruence. Qed.

Lemma str_app_assoc (a b c : string) : (a +:+ b) +:+ c = a +:+ (b +:+ c).
Proof. induction a; simpl; congruence. Qed.

Lemma join_empty_cons (x : string) (xs : list string) :
  Str.join "" (x :: xs) = x +:+ Str.join "" xs.
Proof. destruct xs; simpl; [by rewrite str_app_nil_r | done]. Qed.

Lemma prefix_app (a b s : string) :
  String.prefix (a +:+ b) s = true -> String.prefix a s = true.
Proof.
  revert s. induction a as [|c a IH]; intros s; simpl.
  - by destruct s.
  - destruct s as [|d s]; [done|]. simpl.
    destruct (ascii_dec c d); eauto.
Qed.

Lemma contains_app (a b s : string) :
  Str.contains a s = false -> Str.contains (a +:+ b) s = false.
Proof.
  induction s as [|c s IH]; cbn [Str.contains];
    rewrite !orb_false_iff; intros [Hp Hs]; (split; [|by eauto]).
  - by destruct a.
  - destruct (String.prefix (a +:+ b) (String c s)) eqn:E; [|done].
    apply prefix_app in E. congruence.
Qed.

(** A separator that does not occur splits nothing. *)
Lemma split_scan_absent (sep s : string) :
  Str.contains sep s = false -> Str.split_scan sep 0 s = (s, []).
Proof.
  induction s as [|c s IH]; [done|].
  cbn [Str.contains]. rewrite orb_false_iff. intros [Hp Hs].
  cbn [Str.split_scan]. rewrite Hp, (IH Hs). done.
Qed.

Lemma split_absent (sep s : string) :
  sep <> "" -> Str.contains sep s = false -> Str.split s sep = Ok [s].
Proof.
  intros Hne Hs. unfold Str.split. rewrite (split_scan_absent _ _ Hs).
  by destruct sep.
Qed.

(** ** Table rendering *)

(** The rendering is the header line, the line of dashes, and the lines
    of the rows 1 to [row_count - 1]. *)
Lemma table_to_markdown_rows table :
  table_to_markdown table =
  markdown_line (row_contents table 0)
  +:+ markdown_line (replicate (length (row_contents table 0)) "---")
  +:+ Str.join "" (markdown_line ∘ row_contents table
                     <$> range 1 (Table.row_count table)).
Proof.
  unfold table_to_markdown. cbn [append]. rewrite <- str_app_assoc.
  generalize (markdown_line (row_contents table 0)
     +:+ markdown_line (replicate (length (row_contents table 0)) "---")).
  induction (range 1 (Table.row_count table)) as [|r rs IH]; intros acc.
  - simpl. by rewrite str_app_nil_r.
  - rewrite fmap_cons, join_empty_cons. simpl foldl.
    by rewrite IH, str_app_assoc.
Qed.

(** C5: the table with header row Name, Age (row_index 0) and one data
    row Alice, 30 (row_index 1) is rendered as exactly three lines: the
    header cells joined by " | " between pipes, one "---" per header cell,
    and the data row. *)
Theorem table_to_markdown_name_age (spans : list DocumentSpan.t) :
  table_to_markdown
    {| Table.cells := name_age_cells; Table.row_count := 2;
       Table.spans := spans |} =
  "| Name | Age |" +:+ NL +:+ "| --- | --- |" +:+ NL +:+ "| Alice | 30 |" +:+ NL.
Proof. rewrite table_to_markdown_rows. reflexivity. Qed.

(** ** Parsing the response of the model *)

Section parse_into_json.
Context {J : Type} (json_loads : string -> py J).

(** Without a fence the whole response is what [json.loads] is given. *)
Lemma parse_into_json_unfenced (llm_response : string) :
  Str.contains "```" llm_response = false ->
  parse_into_json json_loads llm_response default_separator
  = json_loads llm_response.
Proof.
  intros Hno. unfold parse_into_json, default_separator.
  rewrite (split_absent "```JSON" llm_response);
    [|done|by apply (contains_app "```" "JSON")].
  change (Str.lower "```JSON") with "```json".
  unfold mbind, py_bind. change (1 <? length [llm_response]) with false.
  cbv iota beta. change (negb false) with true. cbv iota.
  rewrite (contains_app "```" "json" _ Hno : Str.contains "```json" _ = false).
  by rewrite (split_absent "```" llm_response).
Qed.

(** With the fence of either case, the line of the body. *)
Lemma parse_into_json_fenced_body (tag : string) :
  tag = "JSON" \/ tag = "json" ->
  parse_into_json json_loads (fenced tag a1) default_separator
  = json_loads (NL +:+ a1 +:+ NL).
Proof. by intros [-> | ->]. Qed.

End parse_into_json.

(** C6: the response made of the upper-case fence, the text of the object
    with key a and value 1 on its own line, and a closing fence, is parsed
    to that object; with the lower-case fence, which the upper-case marker
    does not split, the marker in lower case is used and the result is the
    same object. *)
Theorem parse_into_json_fences :
  Str.split (fenced "JSON" a1) default_separator
    = Ok [""; NL +:+ a1 +:+ NL +:+ "```"]
  /\ parse_into_json Json.loads (fenced "JSON" a1) default_separator
    = Ok (JDict [("a", JInt 1)])
  /\ Str.split (fenced "json" a1) default_separator = Ok [fenced "json" a1]
  /\ Str.split (fenced "json" a1) (Str.lower default_separator)
     = Ok [""; NL +:+ a1 +:+ NL +:+ "```"]
  /\ parse_into_json Json.loads (fenced "json" a1) default_separator
     = Ok (JDict [("a", JInt 1)]).
Proof.
  rewrite !parse_into_json_fenced_body by auto.
  repeat split; reflexivity.
Qed.

(** C7, as stated, fails: a response without any fence that is a JSON
    text is parsed, and no error is raised. *)
Lemma parse_into_json_unfenced_returns :
  ~ (forall llm_response,
       Str.contains "```" llm_response = false ->
       exists e, parse_into_json Json.loads llm_response default_separator
                 = Raise e).
Proof.
  intros H. destruct (H a1) as [e He]; [reflexivity|].
  vm_compute in He. discriminate He.
Qed.

(** C7, amended: a response without any fence is given whole to
    [json.loads]; the outcome of [parse_into_json] is the outcome of
    [json.loads] on it, an error exactly when the response is not a JSON
    text. *)
Theorem parse_into_json_no_fence (llm_response : string) :
  Str.contains "```" llm_response = false ->
  parse_into_json Json.loads llm_response default_separator
  = Json.loads llm_response.
Proof. apply parse_into_json_unfenced. Qed.

Lemma parse_into_json_no_fence_witness :
  parse_into_json Json.loads "not json" default_separator
  = Json.loads "not json"
  /\ Json.loads "not json" = Raise JSONDecodeError.
Proof.
  split; [|reflexivity].
  apply (parse_into_json_no_fence "not json"). reflexivity.
Defined.

(** ** The windows of [analyze_document] *)

Lemma starts_from_done (page num_pages : Z) :
  (num_pages <= page)%Z -> starts_from page num_pages = [].
Proof.
  intros H. unfold starts_from.
  replace (Z.to_nat _) with 0%nat by lia. done.
Qed.

Lemma starts_from_step (page num_pages : Z) :
  (page < num_pages)%Z ->
  starts_from page num_pages = page :: starts_from (page + 2000) num_pages.
Proof.
  intros H. unfold starts_from.
  replace (Z.to_nat ((num_pages - page + 1999) / 2000))
    with (S (Z.to_nat ((num_pages - (page + 2000) + 1999) / 2000))) by lia.
  cbn [seq]. rewrite fmap_cons, <- fmap_S_seq, <- list_fmap_compose.
  f_equal; [lia|]. apply list_fmap_ext. intros _ k _. simpl. lia.
Qed.

Lemma elem_of_starts_from (page num_pages p : Z) :
  p ∈ starts_from page num_pages <->
  exists k, (0 <= k /\ p = page + 2000 * k /\ p < num_pages)%Z.
Proof.
  unfold starts_from. rewrite list_elem_of_fmap. split.
  - intros (k & -> & Hk%elem_of_seq). exists (Z.of_nat k). lia.
  - intros (k & Hk & -> & Hlt). exists (Z.to_nat k).
    rewrite elem_of_seq. lia.
Qed.

Section Driver_facts.
Context {Credential Client : Type}.
Variable threshold : pyval.
Variable environ : gmap string string.
Variable AzureKeyCredential : pyobject -> outcome exn Credential.
Variable DocumentIntelligenceClient :
  pyobject -> Credential -> pyobject -> outcome exn Client.
Variable begin_analyze_document : Client -> option string -> py Analysis.t.

Abbreviation ocr :=
  (OCR_text_from_pdf threshold environ AzureKeyCredential
     DocumentIntelligenceClient begin_analyze_document).
Abbreviation loop :=
  (window_loop threshold environ AzureKeyCredential
     DocumentIntelligenceClient begin_analyze_document).

Lemma window_loop_done num_pages page pdfBytes client issued result_string :
  (num_pages <= page)%Z ->
  loop num_pages page pdfBytes client issued result_string
  = (issued, Ok result_string).
Proof.
  intros H. simp window_loop.
  destruct (decide (page < num_pages)%Z); [lia|done].
Qed.

Lemma window_loop_step num_pages page pdfBytes client issued result_string :
  (page < num_pages)%Z ->
  loop num_pages page pdfBytes client issued result_string
  = match ocr pdfBytes client (Some (window page)) with
    | Raise e => (issued ++ [Some (window page)], Raise e)
    | Ok (text, pdfBytes', client') =>
      loop num_pages (page + 2000) pdfBytes' client'
           (issued ++ [Some (window page)]) (result_string +:+ text)
    end.
Proof.
  intros H. simp window_loop.
  destruct (decide (page < num_pages)%Z); [|lia]. simpl.
  by destruct (ocr pdfBytes client (Some (window page)))
    as [[[text pdfBytes'] client']|e].
Qed.

(** Every call of the loop is for a window that starts at one of the
    pages the loop runs through. *)
Lemma window_loop_issued num_pages page pdfBytes client issued
    result_string w :
  w ∈ (loop num_pages page pdfBytes client issued result_string).1 ->
  w ∈ issued \/ exists p, p ∈ starts_from page num_pages /\ w = Some (window p).
Proof.
  remember (Z.to_nat (num_pages - page)) as fuel eqn:Hfuel.
  revert page pdfBytes client issued result_string Hfuel.
  induction (lt_wf fuel) as [fuel _ IH].
  intros page pdfBytes client issued result_string ->.
  destruct (decide (page < num_pages)%Z) as [Hlt|Hge].
  - rewrite window_loop_step, starts_from_step by done.
    assert (w ∈ issued ++ [Some (window page)] ->
            w ∈ issued
            \/ exists p, p ∈ page :: starts_from (page + 2000) num_pages
                         /\ w = Some (window p)) as Hlast.
    { intros [Hw|Hw%list_elem_of_singleton]%elem_of_app; [by left|].
      right. exists page. split; [left|done]. }
    destruct (ocr pdfBytes client (Some (window page)))
      as [[[text pdfBytes'] client']|e]; [|exact Hlast].
    intros Hw.
    destruct (IH (Z.to_nat (num_pages - (page + 2000))) ltac:(lia)
                 (page + 2000)%Z pdfBytes' client' _ _ eq_refl Hw)
      as [Hin|(p & Hp & ->)]; [by apply Hlast|].
    right. exists p. split; [by right|done].
  - rewrite window_loop_done by lia. by left.
Qed.

(** A call returns only on an open stream, which it leaves closed, with
    the client set. *)
Lemma OCR_text_from_pdf_returns pdfBytes client pages text pdfBytes' client' :
  ocr pdfBytes client pages = Ok (text, pdfBytes', client') ->
  pdfBytes = Open /\ pdfBytes' = Closed /\ exists c, client' = Some c.
Proof.
  unfold OCR_text_from_pdf,
    AzDocumentIntelligenceClient.create_document_intelligence_client.
  destruct client as [c|].
  - destruct pdfBytes; [|done]. unfold mbind, py_bind. simpl.
    destruct (begin_analyze_document c pages) as [result|e]; [|done].
    destruct (OCR_text_optional threshold result); [|done].
    intros [= <- <- <-]. by eauto.
  - destruct (_ ≫= _) as [c|e]; [|done].
    destruct pdfBytes; [|done]. unfold mbind, py_bind. simpl.
    destruct (begin_analyze_document c pages) as [result|e]; [|done].
    destruct (OCR_text_optional threshold result); [|done].
    intros [= <- <- <-]. by eauto.
Qed.

(** On a closed stream, and with the client made, a call raises before
    the service is asked. *)
Lemma OCR_text_from_pdf_closed (c : Client) pages :
  ocr Closed (Some c) pages = Raise ValueError.
Proof. done. Qed.

(** A PDF of more than 2001 pages: the second window is called for on the
    stream that the first call has closed. *)
Lemma window_loop_second num_pages client :
  (2001 < num_pages)%Z ->
  loop num_pages 1 Open client [] ""
  = match ocr Open client (Some "1-2000") with
    | Raise e => ([Some "1-2000"], Raise e)
    | Ok _ => ([Some "1-2000"; Some "2001-4000"], Raise ValueError)
    end.
Proof.
  intros H. rewrite window_loop_step by lia.
  change (window 1) with "1-2000".
  destruct (ocr Open client (Some "1-2000"))
    as [[[text pdfBytes'] client']|e] eqn:Hfirst; [|done].
  apply OCR_text_from_pdf_returns in Hfirst as (_ & -> & c & ->).
  rewrite window_loop_step by lia.
  change (window (1 + 2000)) with "2001-4000".
  by rewrite OCR_text_from_pdf_closed.
Qed.

Lemma analyze_document_pdf num_pages client :
  analyze_document threshold environ AzureKeyCredential
    DocumentIntelligenceClient begin_analyze_document (Ok num_pages)
    Open client "pdf"
  = loop num_pages 1 Open client [] "".
Proof. done. Qed.

End Driver_facts.

(** C2: the code misses the claim at the second window.  For a PDF of
    4001 pages [analyze_document] calls for the window "1-2000"; when this
    call returns it calls for "2001-4000" on the stream that the first
    call has closed, and raises the ValueError of line 67: the service is
    not asked for the second window, and the text of the first is lost,
    whatever the service would answer. *)
Theorem analyze_document_4001_pages {Credential Client : Type} threshold
    environ (AzureKeyCredential : pyobject -> outcome exn Credential)
    (DocumentIntelligenceClient :
       pyobject -> Credential -> pyobject -> outcome exn Client)
    begin_analyze_document client :
  analyze_document threshold environ AzureKeyCredential
    DocumentIntelligenceClient begin_analyze_document (Ok 4001%Z)
    Open client "pdf"
  = match OCR_text_from_pdf threshold environ AzureKeyCredential
            DocumentIntelligenceClient begin_analyze_document
            Open client (Some "1-2000") with
    | Raise e => ([Some "1-2000"], Raise e)
    | Ok _ => ([Some "1-2000"; Some "2001-4000"], Raise ValueError)
    end.
Proof. rewrite analyze_document_pdf. apply window_loop_second. lia. Qed.

(** C9: a PDF of one page gets no window and the empty text; for every
    PDF the start of a window is a page below [num_pages], so the last
    page starts none, and when [num_pages] is 2000 k + 1 every window
    ends before the last page. *)
Theorem analyze_document_last_page {Credential Client : Type} threshold
    environ (AzureKeyCredential : pyobject -> outcome exn Credential)
    (DocumentIntelligenceClient :
       pyobject -> Credential -> pyobject -> outcome exn Client)
    begin_analyze_document :
  (forall client,
      analyze_document threshold environ AzureKeyCredential
        DocumentIntelligenceClient begin_analyze_document (Ok 1%Z)
        Open client "pdf"
      = ([], Ok ""))
  /\ forall num_pages pdfBytes client w,
      w ∈ (analyze_document threshold environ AzureKeyCredential
             DocumentIntelligenceClient begin_analyze_document
             (Ok num_pages) pdfBytes client "pdf").1 ->
      exists p, w = Some (window p)
        /\ (1 <= p < num_pages)%Z
        /\ forall k, (0 <= k)%Z -> (num_pages = 2000 * k + 1)%Z ->
                     (p + 1999 < num_pages)%Z.
Proof.
  split.
  - intros client. rewrite analyze_document_pdf.
    by rewrite window_loop_done.
  - intros num_pages [|] client w; [|by intros Hw%elem_of_nil].
    rewrite analyze_document_pdf.
    intros [Hw|(p & Hp & ->)]%window_loop_issued;
      [by apply elem_of_nil in Hw|].
    apply elem_of_starts_from in Hp as (j & Hj & -> & Hlt).
    exists (1 + 2000 * j)%Z. split; [done|]. split; [lia|].
    intros k Hk ->. lia.
Qed.

(** ** The type of the threshold *)

Lemma word_count_Ok (content : string) :
  word_count content
  = Ok (Z.of_nat (S (length (Str.split_scan " " 0 content).2))).
Proof.
  unfold word_count, Str.split.
  by destruct (Str.split_scan " " 0 content).
Qed.

Lemma kept_reaches threshold tables p :
  reaches_word_count tables p = true ->
  kept threshold tables p
  = n ← word_count (Paragraph.content p); int_gt n threshold.
Proof.
  unfold reaches_word_count, kept.
  intros [-> ->]%andb_true_iff. done.
Qed.

Lemma kept_not_reaches threshold tables p :
  reaches_word_count tables p = false -> kept threshold tables p = Ok false.
Proof.
  unfold reaches_word_count, kept.
  destruct (negb (check_tables _ _)); [|done]. simpl. by intros ->.
Qed.

(** With a [str] for threshold no paragraph is pushed: the loop over the
    paragraphs ends in a [TypeError] at the first that reaches the
    comparison. *)
Lemma push_paragraph_str_threshold v tables pq p :
  push_paragraph (PyStr v) tables pq p
  = if reaches_word_count tables p then Raise TypeError else Ok pq.
Proof.
  unfold push_paragraph. destruct (reaches_word_count tables p) eqn:E.
  - rewrite kept_reaches, word_count_Ok by done. done.
  - rewrite kept_not_reaches by done. done.
Qed.

Lemma paragraphs_str_threshold v tables pq ps :
  for_each (push_paragraph (PyStr v) tables) pq ps
  = if existsb (reaches_word_count tables) ps then Raise TypeError else Ok pq.
Proof.
  induction ps as [|p ps IH]; [done|]. cbn [for_each existsb].
  rewrite push_paragraph_str_threshold.
  destruct (reaches_word_count tables p); [done|apply IH].
Qed.

(** C10: when the environment does not set MIN_WORD_THRESHOLD the
    threshold is the int 1 and the comparison of line 80 is between two
    ints; when it is set the threshold is a str, and for every paragraph
    that reaches the comparison it raises a TypeError, and so does
    [OCR_text_from_pdf]. *)
Theorem threshold_typing (environ : gmap string string)
    (result : AnalyzeResult) (p : Paragraph.t) :
  p ∈ paragraphs result ->
  reaches_word_count (tables result) p = true ->
  match environ !! "MIN_WORD_THRESHOLD" with
  | None =>
    MIN_WORD_THRESHOLD environ = PyInt 1
    /\ exists n, word_count (Paragraph.content p) = Ok n
         /\ kept (MIN_WORD_THRESHOLD environ) (tables result) p
            = Ok (1 <? n)%Z
  | Some v =>
    MIN_WORD_THRESHOLD environ = PyStr v
    /\ kept (MIN_WORD_THRESHOLD environ) (tables result) p = Raise TypeError
    /\ OCR_text (MIN_WORD_THRESHOLD environ) result = Raise TypeError
  end.
Proof.
  intros Hp Hreach. unfold MIN_WORD_THRESHOLD, environ_get.
  destruct (environ !! "MIN_WORD_THRESHOLD") as [v|].
  - split; [done|]. split.
    + rewrite kept_reaches, word_count_Ok by done. done.
    + unfold OCR_text, fill_queue. rewrite paragraphs_str_threshold.
      replace (existsb _ _) with true; [done|].
      symmetry. apply existsb_exists. exists p.
      by rewrite <- list_elem_of_In.
  - split; [done|]. eexists. split; [apply word_count_Ok|].
    rewrite kept_reaches, word_count_Ok by done. done.
Qed.

(** ** The heap of [heapq] *)

Section heap_facts.
Context {A : Type} (lt : A -> A -> bool).
Hypothesis lt_asym : forall x y, lt x y = true -> lt y x = false.
Hypothesis le_trans : forall x y z, le lt x y -> le lt y z -> le lt x z.

Lemma le_refl x : le lt x x.
Proof. unfold le. destruct (lt x x) eqn:E; [|done]. by rewrite <- (lt_asym _ _ E). Qed.

Lemma lt_le x y : lt x y = true -> le lt x y.
Proof. apply lt_asym. Qed.

(** Writing [b] over one item and [a] over another is a permutation when
    [a] and [b] are these items. *)
Lemma insert_one_perm (l : list A) j a b :
  l !! j = Some b -> b :: <[j := a]> l ≡ₚ a :: l.
Proof.
  revert j. induction l as [|y l IH]; intros [|j]; simpl; try done.
  - intros [= ->]. apply perm_swap.
  - intros Hj. rewrite (perm_swap y b), (IH _ Hj). apply perm_swap.
Qed.

Lemma insert_swap_perm (l : list A) i j a b :
  i <> j -> l !! i = Some a -> l !! j = Some b ->
  <[i := b]> (<[j := a]> l) ≡ₚ l.
Proof.
  revert i j. induction l as [|y l IH]; intros [|i] [|j]; simpl; try done.
  - intros _ [= ->] Hj. by apply insert_one_perm.
  - intros _ Hi [= ->]. by apply insert_one_perm.
  - intros Hij Hi Hj. f_equiv. apply IH; [lia|done..].
Qed.

(** The root of a heap is its least item. *)
Lemma heap_root_le (h : list A) r :
  is_heap lt h -> h !! 0 = Some r -> forall i x, h !! i = Some x -> le lt r x.
Proof.
  intros Hh Hr i. induction i as [i IH] using lt_wf_ind. intros x Hx.
  destruct (decide (i = 0)) as [->|Hi].
  - rewrite Hr in Hx. injection Hx as ->. apply le_refl.
  - assert (parent i < i) as Hlt by (unfold parent; lia).
    destruct (lookup_lt_is_Some_2 h (parent i)) as [p Hp].
    { apply lookup_lt_Some in Hx. lia. }
    eapply le_trans; [by eapply IH|]. eapply Hh; [|done..]. lia.
Qed.

Lemma hole_heap_insert (h : list A) pos x :
  hole_heap lt h pos -> hole_heap lt (<[pos := x]> h) pos.
Proof.
  intros [H1 H2]. split.
  - intros i y p Hi Hne Hpar. rewrite !list_lookup_insert_ne by done.
    by apply H1.
  - intros i y g Hpos Hpar.
    rewrite !list_lookup_insert_ne by (unfold parent in *; lia).
    by apply H2.
Qed.

Lemma is_heap_hole (h : list A) pos : is_heap lt h -> hole_heap lt h pos.
Proof.
  intros Hh. split.
  - intros i x p Hi _ _. by apply Hh.
  - intros i x g Hpos Hpar Hx Hg.
    destruct (lookup_lt_is_Some_2 h pos) as [y Hy].
    { apply lookup_lt_Some in Hx. unfold parent in *. lia. }
    eapply le_trans; [eapply (Hh pos); [lia|done..]|].
    eapply (Hh i); [unfold parent in *; lia|done|by rewrite Hpar].
Qed.

(** Filling the hole with an item that fits between what is above and
    what is below gives a heap. *)
Lemma hole_heap_fill (h : list A) pos newitem :
  pos < length h ->
  hole_heap lt h pos -> hole_fits lt h pos newitem ->
  (forall p, 0 < pos -> h !! parent pos = Some p -> le lt p newitem) ->
  is_heap lt (<[pos := newitem]> h).
Proof.
  intros Hlen [H1 H2] Hfit Hup i x p Hi Hx Hp.
  destruct (decide (i = pos)) as [->|Hne].
  - rewrite list_lookup_insert_eq in Hx by done. injection Hx as <-.
    rewrite list_lookup_insert_ne in Hp by (unfold parent; lia).
    by apply Hup.
  - rewrite list_lookup_insert_ne in Hx by done.
    destruct (decide (parent i = pos)) as [Hpar|Hpar].
    + rewrite Hpar, list_lookup_insert_eq in Hp by done.
      injection Hp as <-. by eapply Hfit.
    + rewrite list_lookup_insert_ne in Hp by done. by eapply H1.
Qed.

Lemma setitem_lt (l : list A) i x :
  i < length l -> setitem l i x = Ok (<[i := x]> l).
Proof. intros H. unfold setitem. by rewrite decide_True. Qed.

Lemma getitem_lt (l : list A) i :
  i < length l -> exists x, l !! i = Some x /\ getitem l i = Ok x.
Proof.
  intros [x Hx]%lookup_lt_is_Some_2. exists x. unfold getitem. by rewrite Hx.
Qed.

(** One round of [_siftdown]: the parent comes down, the hole goes up. *)
Lemma hole_heap_up (heap : list A) pos p newitem :
  0 < pos -> pos < length heap ->
  heap !! parent pos = Some p -> lt newitem p = true ->
  hole_heap lt heap pos -> hole_fits lt heap pos newitem ->
  hole_heap lt (<[pos := p]> heap) (parent pos)
  /\ hole_fits lt (<[pos := p]> heap) (parent pos) newitem.
Proof.
  intros Hpos Hlen Hp Hlt [H1 H2] Hfit.
  assert (parent pos < pos) as Hq by (unfold parent; lia).
  assert (forall i x, 0 < i -> i <> pos -> parent i = parent pos ->
                      heap !! i = Some x -> le lt p x) as Hsib.
  { intros i x Hi Hne Hpar Hx. eapply (H1 i); [done|done|lia|done|].
    by rewrite Hpar. }
  split; [split|].
  - intros i x g Hi Hne Hpar.
    destruct (decide (i = pos)) as [->|Hip]; [done|].
    rewrite list_lookup_insert_ne by done. intros Hx.
    destruct (decide (parent i = pos)) as [Hpi|Hpi].
    + rewrite Hpi, list_lookup_insert_eq by done. intros [= <-].
      by eapply H2.
    + rewrite list_lookup_insert_ne by done. by eapply H1.
  - intros i x g Hq0 Hpar Hx.
    rewrite list_lookup_insert_ne by (unfold parent in *; lia). intros Hg.
    assert (le lt g p) as Hgp.
    { eapply (H1 (parent pos)); [done|lia|unfold parent in *; lia|done..]. }
    destruct (decide (i = pos)) as [->|Hip].
    + rewrite list_lookup_insert_eq in Hx by done. by injection Hx as <-.
    + rewrite list_lookup_insert_ne in Hx by done.
      eapply le_trans; [done|].
      eapply (Hsib i); [unfold parent in *; lia|done..].
  - intros c x Hc Hpar.
    destruct (decide (c = pos)) as [->|Hcp].
    + rewrite list_lookup_insert_eq by done. intros [= <-]. by apply lt_le.
    + rewrite list_lookup_insert_ne by done. intros Hx.
      eapply le_trans; [by apply lt_le|]. by eapply (Hsib c).
Qed.

(** [_siftdown] from a hole that [newitem] fits ends in a heap with
    [newitem] in it. *)
Lemma siftdown_loop_heap heap newitem startpos pos :
  startpos = 0 -> pos < length heap ->
  hole_heap lt heap pos -> hole_fits lt heap pos newitem ->
  exists heap', heapq.siftdown_loop lt heap newitem startpos pos = Ok heap'
    /\ is_heap lt heap' /\ heap' ≡ₚ <[pos := newitem]> heap.
Proof.
  funelim (heapq.siftdown_loop lt heap newitem startpos pos);
    intros -> Hlen Hhole Hfit.
  - exists (<[pos := newitem]> heap). rewrite setitem_lt by done.
    split; [done|]. split; [|done].
    apply hole_heap_fill; [done..|]. intros p Hp. lia.
  - destruct (getitem_lt heap ((pos - 1) / 2)) as (x & _ & Hx); [lia|].
    congruence.
  - exists (<[pos := newitem]> heap). rewrite setitem_lt by done.
    split; [done|]. split; [|done].
    apply hole_heap_fill; [done..|]. intros p _ Hp.
    apply getitem_Ok in Heq0. unfold parent in Hp.
    rewrite Hp in Heq0. by injection Heq0 as ->.
  - apply setitem_Ok in Heq as [_ ->]. apply getitem_Ok in Heq1.
    destruct (hole_heap_up heap pos parent0 newitem) as [Hh' Hf']; try done.
    destruct H as (heap'' & -> & Hheap & Hperm);
      [done|rewrite length_insert; lia|done..|].
    exists heap''. split; [done|]. split; [done|].
    rewrite Hperm.
    rewrite <- (list_insert_insert_eq heap pos parent0 newitem).
    apply insert_swap_perm; [lia| |].
    + by rewrite list_lookup_insert_ne by lia.
    + by rewrite list_lookup_insert_eq.
  - rewrite setitem_lt in Heq by done. done.
Qed.

Lemma heappush_heap (h : list A) item :
  is_heap lt h ->
  exists h', heapq.heappush lt h item = Ok h'
    /\ is_heap lt h' /\ h' ≡ₚ item :: h.
Proof.
  intros Hh. unfold heapq.heappush, heapq._siftdown.
  rewrite length_app, Nat.add_sub. unfold getitem at 1.
  rewrite list_lookup_middle by done. simpl.
  destruct (siftdown_loop_heap (h ++ [item]) item 0 (length h))
    as (h' & -> & Hh' & Hperm); [done|rewrite length_app; cbn [length]; lia| | |].
  - split.
    + intros i x p Hi Hne Hpar Hx Hp.
      assert (i < length h).
      { apply lookup_lt_Some in Hx. rewrite length_app in Hx. cbn [length] in *; lia. }
      rewrite lookup_app_l in Hx, Hp by (unfold parent; lia). by eapply Hh.
    + intros i x g Hpos Hpar Hx. apply lookup_lt_Some in Hx.
      rewrite length_app in Hx. unfold parent in *. cbn [length] in *; lia.
  - intros c x Hc Hpar Hx. apply lookup_lt_Some in Hx.
    rewrite length_app in Hx. unfold parent in *. cbn [length] in *; lia.
  - exists h'. split; [done|]. split; [done|]. rewrite Hperm.
    rewrite list_insert_id by (by apply list_lookup_middle).
    by rewrite Permutation_app_comm.
Qed.

(** The child that [_siftup] moves up is no greater than the other. *)
Lemma right_is_smaller_child (heap : list A) pos :
  2 * pos + 1 < length heap ->
  exists b child,
    heapq.right_is_smaller lt heap (length heap) (2 * pos + 1) = Ok b
    /\ heap !! (if b then 2 * pos + 1 + 1 else 2 * pos + 1) = Some child
    /\ forall s y, 0 < s -> parent s = pos ->
         s <> (if b then 2 * pos + 1 + 1 else 2 * pos + 1) ->
         heap !! s = Some y -> le lt child y.
Proof.
  intros Hc. unfold heapq.right_is_smaller.
  destruct (getitem_lt heap (2 * pos + 1)) as (l & Hl & ->); [done|].
  case_decide as Hr.
  - destruct (getitem_lt heap (2 * pos + 1 + 1)) as (r & Hr' & ->); [done|].
    simpl. destruct (lt l r) eqn:E; simpl.
    + exists false, l. split; [done|]. split; [done|].
      intros s y Hs Hpar Hne Hy.
      replace s with (2 * pos + 1 + 1) in Hy by (unfold parent in *; lia).
      rewrite Hr' in Hy. injection Hy as <-. by apply lt_le.
    + exists true, r. split; [done|]. split; [done|].
      intros s y Hs Hpar Hne Hy.
      replace s with (2 * pos + 1) in Hy by (unfold parent in *; lia).
      rewrite Hl in Hy. by injection Hy as <-.
  - exists false, l. split; [done|]. split; [done|].
    intros s y Hs Hpar Hne Hy. apply lookup_lt_Some in Hy.
    unfold parent in *. lia.
Qed.

(** One round of [_siftup]: the smaller child comes up, the hole goes
    down. *)
Lemma hole_heap_down (heap : list A) pos c child :
  0 < c -> parent c = pos -> heap !! c = Some child ->
  (forall s y, 0 < s -> parent s = pos -> s <> c ->
               heap !! s = Some y -> le lt child y) ->
  hole_heap lt heap pos -> hole_heap lt (<[pos := child]> heap) c.
Proof.
  intros Hc Hpar Hchild Hsib [H1 H2].
  assert (pos < c) as Hlt by (unfold parent in *; lia).
  assert (pos < length heap) as Hlen.
  { apply lookup_lt_Some in Hchild. lia. }
  split.
  - intros i x g Hi Hne Hpi.
    destruct (decide (i = pos)) as [->|Hip].
    + rewrite list_lookup_insert_eq by done. intros [= <-].
      rewrite list_lookup_insert_ne by (unfold parent; lia).
      intros Hg. by eapply (H2 c).
    + rewrite list_lookup_insert_ne by done. intros Hx.
      destruct (decide (parent i = pos)) as [Hpp|Hpp].
      * rewrite Hpp, list_lookup_insert_eq by done. intros [= <-].
        by eapply (Hsib i).
      * rewrite list_lookup_insert_ne by done. by eapply H1.
  - intros i x g _ Hpi.
    rewrite list_lookup_insert_ne by (unfold parent in *; lia).
    rewrite Hpar, list_lookup_insert_eq by done. intros Hx [= <-].
    eapply (H1 i); [unfold parent in *; lia..|done|by rewrite Hpi].
Qed.

(** [_siftup] takes the hole to a leaf. *)
Lemma siftup_loop_hole heap endpos pos :
  endpos = length heap -> pos < endpos -> hole_heap lt heap pos ->
  exists heap' pos',
    heapq.siftup_loop lt heap endpos pos = Ok (heap', pos')
    /\ pos' < endpos /\ endpos <= 2 * pos' + 1
    /\ hole_heap lt heap' pos'
    /\ forall newitem, <[pos' := newitem]> heap' ≡ₚ <[pos := newitem]> heap.
Proof.
  funelim (heapq.siftup_loop lt heap endpos pos); intros -> Hpos Hhole.
  - exists heap, pos. split; [done|]. split; [done|]. split; [lia|]. done.
  - destruct (right_is_smaller_child heap pos) as (b & c & Hb & _); [done|].
    congruence.
  - destruct (right_is_smaller_child heap pos) as (b' & c & Hb & Hc & _);
      [done|].
    rewrite Hb in Heq0. injection Heq0 as ->.
    unfold getitem in Heq. by rewrite Hc in Heq.
  - destruct (right_is_smaller_child heap pos) as (b' & c & Hb & Hc & Hsib);
      [done|].
    rewrite Hb in Heq1. injection Heq1 as ->.
    apply getitem_Ok in Heq0. rewrite Hc in Heq0. injection Heq0 as ->.
    apply setitem_Ok in Heq as [_ ->].
    set (cpos := if b then 2 * pos + 1 + 1 else 2 * pos + 1) in *.
    assert (0 < cpos /\ parent cpos = pos) as [Hc0 Hcp].
    { unfold parent, cpos. destruct b; lia. }
    assert (cpos < length heap) as Hclen by (by eapply lookup_lt_Some).
    destruct H as (heap' & pos' & -> & Hp' & Hleaf & Hh' & Hperm).
    { by rewrite length_insert. }
    { done. }
    { by eapply hole_heap_down. }
    exists heap', pos'. split; [done|]. split; [done|]. split; [done|].
    split; [done|]. intros newitem. rewrite Hperm.
    rewrite <- (list_insert_insert_eq heap pos child newitem).
    apply insert_swap_perm; [unfold parent in *; lia| |].
    + by rewrite list_lookup_insert_ne by (unfold parent in *; lia).
    + by rewrite list_lookup_insert_eq.
  - rewrite setitem_lt in Heq by done. done.
Qed.

(** [_siftup] at the root of a heap whose root was overwritten. *)
Lemma siftup_heap (heap : list A) newitem :
  heap !! 0 = Some newitem -> hole_heap lt heap 0 ->
  exists heap', heapq._siftup lt heap 0 = Ok heap'
    /\ is_heap lt heap' /\ heap' ≡ₚ heap.
Proof.
  intros Hroot Hhole. unfold heapq._siftup, getitem at 1. rewrite Hroot.
  assert (0 < length heap) as Hlen by (by eapply lookup_lt_Some).
  destruct (siftup_loop_hole heap (length heap) 0)
    as (heap1 & pos1 & Hloop & Hp1 & Hleaf & Hh1 & Hperm); [done..|].
  simpl. rewrite Hloop. simpl.
  assert (length heap1 = length heap) as Hlen1
    by (by eapply siftup_loop_length).
  rewrite setitem_lt by lia. simpl. unfold heapq._siftdown, getitem.
  rewrite list_lookup_insert_eq by lia. simpl.
  destruct (siftdown_loop_heap (<[pos1 := newitem]> heap1) newitem 0 pos1)
    as (heap' & -> & Hheap & Hperm'); [done|rewrite length_insert; lia| | |].
  - by apply hole_heap_insert.
  - intros c x Hc Hpar Hx. apply lookup_lt_Some in Hx.
    rewrite length_insert in Hx. unfold parent in *. lia.
  - exists heap'. split; [done|]. split; [done|].
    rewrite Hperm', list_insert_insert_eq, Hperm.
    by rewrite list_insert_id.
Qed.

Lemma is_heap_nil : is_heap lt [].
Proof. by intros i x p _ Hx. Qed.

Lemma is_heap_app (h1 h2 : list A) : is_heap lt (h1 ++ h2) -> is_heap lt h1.
Proof.
  intros Hh i x p Hi Hx Hp. eapply (Hh i); [done|..].
  - by apply lookup_app_l_Some.
  - by apply lookup_app_l_Some.
Qed.

(** [heappop] gives the least item and leaves a heap of the others. *)
Lemma heappop_heap (h : list A) :
  is_heap lt h -> h <> [] ->
  exists x h', heapq.heappop lt h = Ok (x, h')
    /\ is_heap lt h' /\ h ≡ₚ x :: h' /\ forall y, y ∈ h -> le lt x y.
Proof.
  intros Hh Hne. destruct h as [|lastelt h0 _] using rev_ind; [done|].
  unfold heapq.heappop, heapq.list_pop.
  rewrite last_snoc, removelast_last. simpl. case_decide as Hh0.
  - subst h0. exists lastelt, []. split; [done|]. split; [apply is_heap_nil|].
    split; [done|]. intros y ->%list_elem_of_singleton. apply le_refl.
  - destruct h0 as [|r t]; [done|]. simpl.
    destruct (siftup_heap (lastelt :: t) lastelt) as (h2 & -> & Hh2 & Hperm);
      [done| |].
    { apply (hole_heap_insert (r :: t) 0 lastelt), is_heap_hole.
      by eapply is_heap_app. }
    simpl. exists r, h2. split; [done|]. split; [done|]. split.
    + rewrite Hperm. simpl. f_equiv. by rewrite Permutation_app_comm.
    + intros y [i Hy]%list_elem_of_lookup.
      by eapply (heap_root_le ((r :: t) ++ [lastelt])).
Qed.


End heap_facts.

(** ** The order of the tuples *)

Lemma ltb_false_le (s1 s2 : string) : String.ltb s2 s1 = false <-> String.le s1 s2.
Proof.
  unfold String.le, String.ltb, String.leb.
  rewrite (String.compare_antisym s1 s2).
  destruct (String.compare s2 s1); simpl; naive_solver.
Qed.

Lemma entry_lt_le (a b : entry) : le entry_lt a b <-> entry_le a b.
Proof.
  unfold le, entry_lt, entry_le. destruct (Z.eqb_spec b.1 a.1) as [E|E].
  - rewrite ltb_false_le. intuition lia.
  - rewrite Z.ltb_ge. intuition lia.
Qed.

Lemma entry_lt_asym (a b : entry) : entry_lt a b = true -> entry_lt b a = false.
Proof.
  intros Hab. apply entry_lt_le. revert Hab.
  unfold entry_lt, entry_le. destruct (Z.eqb_spec a.1 b.1) as [E|E].
  - intros Hlt. right. split; [done|]. apply ltb_false_le.
    unfold String.ltb in *. rewrite String.compare_antisym.
    by destruct (String.compare a.2 b.2).
  - intros ?%Z.ltb_lt. by left.
Qed.

#[local] Instance entry_le_trans : Transitive entry_le.
Proof.
  intros a b c [Hab|[Hab Hab']] [Hbc|[Hbc Hbc']]; unfold entry_le;
    [left; lia..|].
  right. split; [lia|]. by etrans.
Qed.

#[local] Instance entry_le_antisym : AntiSymm (=) entry_le.
Proof.
  intros [a1 a2] [b1 b2] [Hab|[Hab Hab']] [Hba|[Hba Hba']];
    simpl in *; try lia.
  f_equal; [done|]. by apply (anti_symm String.le).
Qed.

Lemma le_entry_trans (a b c : entry) :
  le entry_lt a b -> le entry_lt b c -> le entry_lt a c.
Proof. rewrite !entry_lt_le. apply entry_le_trans. Qed.

(** ** The queue *)

Abbreviation queue_heap pq := (is_heap entry_lt (PriorityQueue._queue pq)).

Lemma push_heap pq priority item :
  queue_heap pq ->
  exists pq', PriorityQueue.push pq priority item = Ok pq'
    /\ queue_heap pq'
    /\ PriorityQueue._queue pq' ≡ₚ (priority, item) :: PriorityQueue._queue pq.
Proof.
  intros Hh. unfold PriorityQueue.push.
  destruct (heappush_heap entry_lt entry_lt_asym le_entry_trans
              (PriorityQueue._queue pq) (priority, item) Hh)
    as (q & -> & Hq & Hperm).
  by eexists.
Qed.

Lemma pop_entry_heap pq :
  queue_heap pq -> PriorityQueue.is_empty pq = false ->
  exists e pq', PriorityQueue.pop_entry pq = Ok (e, pq')
    /\ queue_heap pq'
    /\ PriorityQueue._queue pq ≡ₚ e :: PriorityQueue._queue pq'
    /\ Forall (entry_le e) (PriorityQueue._queue pq').
Proof.
  intros Hh Hne. unfold PriorityQueue.pop_entry.
  destruct (heappop_heap entry_lt entry_lt_asym le_entry_trans
              (PriorityQueue._queue pq) Hh)
    as (e & q & -> & Hq & Hperm & Hmin).
  { unfold PriorityQueue.is_empty in Hne.
    apply bool_decide_eq_false in Hne. by destruct (PriorityQueue._queue pq). }
  exists e, {| PriorityQueue._queue := q |}. simpl.
  split; [done|]. split; [done|]. split; [done|].
  apply Forall_forall. intros y Hy. apply entry_lt_le, Hmin.
  rewrite Hperm. by right.
Qed.

(** The tuples leave the queue in ascending order. *)
Lemma drain_entries_sorted pq :
  queue_heap pq ->
  exists es, drain_entries pq = Ok es
    /\ es ≡ₚ PriorityQueue._queue pq /\ StronglySorted entry_le es.
Proof.
  funelim (drain_entries pq); intros Hh.
  - exists []. split; [done|]. split; [|constructor].
    unfold PriorityQueue.is_empty in Heq. apply bool_decide_eq_true in Heq.
    by destruct (PriorityQueue._queue pq).
  - destruct (pop_entry_heap pq) as (e0 & pq0 & Hpop' & _); [done..|].
    congruence.
  - destruct (pop_entry_heap pq) as (e0 & pq0 & Hpop' & Hh' & Hperm & Hmin);
      [done..|].
    assert (e0 = e /\ pq0 = pq') as [-> ->] by (split; congruence).
    destruct (Hind Hh') as (es' & Hes' & Hp' & Hsorted).
    assert (es' = es) as -> by congruence.
    exists (e :: es). split; [done|]. split; [by rewrite Hperm, Hp'|].
    constructor; [done|]. by rewrite Hp'.
  - destruct (pop_entry_heap pq) as (e0 & pq0 & Hpop' & Hh' & _); [done..|].
    assert (e0 = e /\ pq0 = pq') as [-> ->] by (split; congruence).
    destruct (Hind Hh') as (es' & Hes' & _). congruence.
Qed.

(** Forget the equation that [inspect] leaves behind. *)
Ltac clear_inspect :=
  repeat match goal with
         | H : @eq (sigma _) _ _ |- _ => clear H
         end.

Lemma drain_entries_step pq :
  drain_entries pq
  = if PriorityQueue.is_empty pq then Ok []
    else '(e, pq') ← PriorityQueue.pop_entry pq;
         es ← drain_entries pq';
         Ok (e :: es).
Proof.
  funelim (drain_entries pq); rewrite ?Heq, ?Heq0; try done.
  - by rewrite e1.
  - rewrite Hpop. simpl. by rewrite Heq.
  - rewrite Hpop. simpl. by rewrite Heq.
Qed.

(** The text of [drain] is the text of the tuples of [drain_entries]. *)
Lemma drain_lines pq result_string :
  drain pq result_string
  = es ← drain_entries pq; Ok (result_string +:+ lines es).
Proof.
  funelim (drain pq result_string); clear_inspect;
    rewrite drain_entries_step, Heq.
  - simpl. by rewrite str_app_nil_r.
  - unfold PriorityQueue.pop in Hpop.
    destruct (PriorityQueue.pop_entry pq) as [[e pq0]|]; [|done].
    simpl in Hpop. injection Hpop as <- <-.
    rewrite H. simpl. destruct (drain_entries pq0) as [es|]; [|done].
    simpl. by rewrite !str_app_assoc.
  - match goal with
    | Hr : PriorityQueue.pop pq = Raise _ |- _ =>
      unfold PriorityQueue.pop in Hr;
      destruct (PriorityQueue.pop_entry pq) as [[e' pq0]|]; [done|];
      simpl in Hr; by injection Hr as <-
    end.
Qed.

(** ** What the two [for] loops leave in the queue *)

Section fill.
Variable threshold : pyval.

Lemma push_paragraph_step tables p pq pq' :
  queue_heap pq ->
  push_paragraph threshold tables pq p = Ok pq' ->
  queue_heap pq'
  /\ PriorityQueue._queue pq'
     ≡ₚ omap entry_of_paragraph
          (filter (fun p => kept threshold tables p = Ok true) [p])
        ++ PriorityQueue._queue pq.
Proof.
  intros Hh. unfold push_paragraph.
  destruct (kept threshold tables p) as [[]|] eqn:Hk; simpl; [| |done].
  - rewrite filter_cons_True by done.
    unfold getitem. cbn [omap list_omap]. unfold entry_of_paragraph.
    destruct (Paragraph.spans p !! 0) as [s|]; simpl; [|done].
    destruct (push_heap pq (DocumentSpan.offset s) (Paragraph.content p) Hh)
      as (pq1 & -> & Hh1 & Hperm).
    by intros [= <-].
  - rewrite filter_cons_False by congruence. by intros [= <-].
Qed.

Lemma paragraphs_loop tables ps pq pq' :
  queue_heap pq ->
  for_each (push_paragraph threshold tables) pq ps = Ok pq' ->
  queue_heap pq'
  /\ PriorityQueue._queue pq'
     ≡ₚ omap entry_of_paragraph
          (filter (fun p => kept threshold tables p = Ok true) ps)
        ++ PriorityQueue._queue pq.
Proof.
  revert pq. induction ps as [|p ps IH]; intros pq Hh; cbn [for_each].
  - by intros [= ->].
  - destruct (push_paragraph threshold tables pq p) as [pq1|] eqn:E;
      unfold mbind, py_bind; [|done].
    apply push_paragraph_step in E as [Hh1 Hp1]; [|done].
    intros [Hh' Hp']%IH; [|done]. split; [done|].
    rewrite Hp', Hp1, (filter_app _ [p] ps), omap_app.
    rewrite (assoc_L (++)). f_equiv. apply Permutation_app_comm.
Qed.

Lemma push_table_step t pq pq' :
  queue_heap pq ->
  push_table pq t = Ok pq' ->
  queue_heap pq'
  /\ PriorityQueue._queue pq'
     ≡ₚ omap entry_of_table [t] ++ PriorityQueue._queue pq.
Proof.
  intros Hh. unfold push_table, getitem. cbn [omap list_omap].
  unfold entry_of_table.
  destruct (Table.spans t !! 0) as [s|]; simpl; [|done].
  destruct (push_heap pq (DocumentSpan.offset s) (table_to_markdown t) Hh)
    as (pq1 & -> & Hh1 & Hperm).
  by intros [= <-].
Qed.

Lemma tables_loop ts pq pq' :
  queue_heap pq ->
  for_each push_table pq ts = Ok pq' ->
  queue_heap pq'
  /\ PriorityQueue._queue pq'
     ≡ₚ omap entry_of_table ts ++ PriorityQueue._queue pq.
Proof.
  revert pq. induction ts as [|t ts IH]; intros pq Hh; cbn [for_each].
  - by intros [= ->].
  - destruct (push_table pq t) as [pq1|] eqn:E;
      unfold mbind, py_bind; [|done].
    apply push_table_step in E as [Hh1 Hp1]; [|done].
    intros [Hh' Hp']%IH; [|done]. split; [done|].
    rewrite Hp', Hp1, (omap_app _ [t] ts : omap _ (t :: ts) = _).
    rewrite (assoc_L (++)). f_equiv. apply Permutation_app_comm.
Qed.

Lemma fill_queue_pushed result pq :
  fill_queue threshold result = Ok pq ->
  queue_heap pq /\ PriorityQueue._queue pq ≡ₚ pushed threshold result.
Proof.
  unfold fill_queue.
  destruct (for_each (push_paragraph threshold (tables result)) _ _)
    as [pq1|] eqn:E1; simpl; [|done].
  apply paragraphs_loop in E1 as [Hh1 Hp1];
    [|apply (is_heap_nil entry_lt)].
  intros [Hh Hp]%tables_loop; [|done]. split; [done|].
  rewrite Hp, Hp1. simpl. rewrite app_nil_r. unfold pushed, kept_paragraphs.
  apply Permutation_app_comm.
Qed.

(** The fragments of the output are the tuples pushed, in the order of
    [entry_le]; the output is their text. *)
Lemma OCR_fragments_sorted result frags :
  OCR_fragments threshold result = Ok frags ->
  StronglySorted entry_le frags
  /\ frags ≡ₚ pushed threshold result
  /\ OCR_text threshold result = Ok (lines frags).
Proof.
  unfold OCR_fragments, OCR_text.
  destruct (fill_queue threshold result) as [pq|] eqn:E; simpl; [|done].
  apply fill_queue_pushed in E as [Hh Hperm]. rewrite drain_lines.
  destruct (drain_entries_sorted pq Hh) as (es & -> & Hes & Hsorted).
  intros [= <-]. split; [done|]. split; [by etrans|done].
Qed.

Lemma OCR_text_fragments result out :
  OCR_text threshold result = Ok out ->
  exists frags, OCR_fragments threshold result = Ok frags /\ out = lines frags.
Proof.
  unfold OCR_fragments, OCR_text.
  destruct (fill_queue threshold result) as [pq|] eqn:E; simpl; [|done].
  rewrite drain_lines. destruct (drain_entries pq) as [es|]; simpl; [|done].
  intros [= <-]. by exists es.
Qed.

End fill.

(** ** The filter of the paragraphs *)

Lemma check_tables_true content tables :
  check_tables content tables = true <->
  exists table c, table ∈ tables /\ c ∈ Table.cells table
                  /\ Cell.content c = content.
Proof.
  induction tables as [|t ts IH]; cbn [check_tables].
  - split; [done|]. by intros (? & ? & ?%elem_of_nil & _).
  - destruct (any_cell content t) eqn:E.
    + split; [intros _|done]. apply existsb_exists in E as (c & Hc & Heq).
      exists t, c. split; [left|]. split; [by apply list_elem_of_In|].
      symmetry. by apply String.eqb_eq.
    + rewrite IH. split.
      * intros (t' & c & Ht & Hc). exists t', c. split; [by right|done].
      * intros (t' & c & [Heqt|Ht]%elem_of_cons & Hc & Heq).
        -- exfalso. subst t'.
           assert (any_cell content t = true); [|congruence].
           apply existsb_exists. exists c.
           split; [by apply list_elem_of_In|]. by apply String.eqb_eq.
        -- by exists t', c.
Qed.

Lemma check_tables_perm content (ts1 ts2 : list Table.t) :
  ts1 ≡ₚ ts2 -> check_tables content ts1 = check_tables content ts2.
Proof.
  intros Hperm. apply eq_true_iff_eq. rewrite !check_tables_true.
  by setoid_rewrite Hperm.
Qed.

Lemma kept_perm threshold (ts1 ts2 : list Table.t) p :
  ts1 ≡ₚ ts2 -> kept threshold ts1 p = kept threshold ts2 p.
Proof. intros Hperm. unfold kept. by rewrite (check_tables_perm _ _ _ Hperm). Qed.

(** A kept paragraph repeats no cell, is no page number, and has more
    words than the threshold. *)
Lemma kept_true threshold tables p :
  kept threshold tables p = Ok true ->
  check_tables (Paragraph.content p) tables = false
  /\ Paragraph.role p <> Some "pageNumber"
  /\ exists n, word_count (Paragraph.content p) = Ok n
               /\ int_gt n threshold = Ok true.
Proof.
  unfold kept. destruct (check_tables _ _); [done|]. simpl.
  case_bool_decide; [done|]. simpl. rewrite word_count_Ok. simpl.
  intros Hgt. split; [done|]. split; [done|]. by eexists.
Qed.

Lemma kept_int t tables p :
  kept (PyInt t) tables p
  = Ok (negb (check_tables (Paragraph.content p) tables)
        && negb (bool_decide (Paragraph.role p = Some "pageNumber"))
        && (t <? Z.of_nat (S (length (Str.split_scan " " 0
                                         (Paragraph.content p)).2)))%Z).
Proof.
  unfold kept. destruct (check_tables _ _); [done|]. simpl.
  case_bool_decide; [done|]. simpl. by rewrite word_count_Ok.
Qed.

(** When the paragraphs are all pushed, each kept one has a span. *)
Lemma paragraphs_loop_spans threshold tables ps pq pq' p :
  for_each (push_paragraph threshold tables) pq ps = Ok pq' ->
  p ∈ ps -> kept threshold tables p = Ok true ->
  is_Some (entry_of_paragraph p).
Proof.
  revert pq. induction ps as [|q ps IH]; intros pq; cbn [for_each].
  - by intros _ ?%elem_of_nil.
  - destruct (push_paragraph threshold tables pq q) as [pq1|] eqn:E;
      unfold mbind, py_bind; [|done].
    intros Hrest [Heq|Hp]%elem_of_cons Hk; [subst q|by eapply IH].
    unfold push_paragraph in E. rewrite Hk in E. simpl in E.
    unfold entry_of_paragraph, getitem in *.
    by destruct (Paragraph.spans p !! 0).
Qed.

Lemma StronglySorted_lookup {X} (R : relation X) (l : list X) i j a b :
  StronglySorted R l -> i < j -> l !! i = Some a -> l !! j = Some b -> R a b.
Proof.
  intros Hs. revert i j. induction Hs as [|x l Hs IH Hx]; intros i j Hij.
  - done.
  - destruct i as [|i], j as [|j]; try lia; simpl.
    + intros [= ->] Hb. rewrite Forall_forall in Hx.
      apply Hx. by eapply list_elem_of_lookup_2.
    + apply IH. lia.
Qed.

(** With an int for threshold and a span on every paragraph and table,
    the function returns. *)
Lemma paragraphs_loop_returns t tables ps pq :
  queue_heap pq ->
  Forall (fun p => is_Some (Paragraph.spans p !! 0)) ps ->
  exists pq', for_each (push_paragraph (PyInt t) tables) pq ps = Ok pq'
              /\ queue_heap pq'.
Proof.
  intros Hh Hspans. revert pq Hh.
  induction Hspans as [|p ps [s Hs] _ IH]; intros pq Hh; cbn [for_each].
  - by exists pq.
  - assert (exists pq1, push_paragraph (PyInt t) tables pq p = Ok pq1
                        /\ queue_heap pq1) as (pq1 & -> & Hh1).
    { unfold push_paragraph, getitem. rewrite kept_int, Hs.
      unfold mbind, py_bind.
      destruct (_ && _); [|by exists pq].
      destruct (push_heap pq (DocumentSpan.offset s) (Paragraph.content p) Hh)
        as (pq1 & -> & Hh1 & _).
      by exists pq1. }
    apply (IH pq1 Hh1).
Qed.

Lemma tables_loop_returns ts pq :
  queue_heap pq ->
  Forall (fun t => is_Some (Table.spans t !! 0)) ts ->
  exists pq', for_each push_table pq ts = Ok pq' /\ queue_heap pq'.
Proof.
  intros Hh Hspans. revert pq Hh.
  induction Hspans as [|t ts [s Hs] _ IH]; intros pq Hh; cbn [for_each].
  - by exists pq.
  - assert (exists pq1, push_table pq t = Ok pq1 /\ queue_heap pq1)
      as (pq1 & -> & Hh1).
    { unfold push_table, getitem. rewrite Hs. unfold mbind, py_bind.
      destruct (push_heap pq (DocumentSpan.offset s) (table_to_markdown t) Hh)
        as (pq1 & -> & Hh1 & _).
      by exists pq1. }
    apply (IH pq1 Hh1).
Qed.

Lemma OCR_text_returns t result :
  Forall (fun p => is_Some (Paragraph.spans p !! 0)) (paragraphs result) ->
  Forall (fun t => is_Some (Table.spans t !! 0)) (tables result) ->
  exists out, OCR_text (PyInt t) result = Ok out.
Proof.
  intros Hps Hts. unfold OCR_text, fill_queue.
  destruct (paragraphs_loop_returns t (tables result) (paragraphs result)
              PriorityQueue.init (is_heap_nil entry_lt) Hps)
    as (pq1 & -> & Hh1).
  destruct (tables_loop_returns (tables result) pq1 Hh1 Hts)
    as (pq2 & Hpq2 & Hh2).
  unfold mbind at 1 2, py_bind. unfold mbind, py_bind in Hpq2.
  rewrite Hpq2, drain_lines.
  destruct (drain_entries_sorted pq2 Hh2) as (es & -> & _).
  by eexists.
Qed.

(** ** The Span Ordering Engine *)

(** C1: whenever [OCR_text_from_pdf] returns, its output is the text of
    fragments whose offsets ascend: of two fragments, the one that comes
    first in the output has the smaller or the same offset. *)
Theorem OCR_text_ascending threshold result out :
  OCR_text threshold result = Ok out ->
  exists frags,
    OCR_fragments threshold result = Ok frags /\ out = lines frags
    /\ forall i j a b, i < j -> frags !! i = Some a -> frags !! j = Some b ->
                       (a.1 <= b.1)%Z.
Proof.
  intros (frags & Hf & ->)%OCR_text_fragments. exists frags.
  split; [done|]. split; [done|].
  apply OCR_fragments_sorted in Hf as (Hsorted & _).
  intros i j a b Hij Ha Hb.
  destruct (StronglySorted_lookup _ _ _ _ _ _ Hsorted Hij Ha Hb)
    as [?|[? _]]; lia.
Qed.

Lemma OCR_text_ascending_witness :
  exists frags,
    OCR_fragments (PyInt 1) sample_result = Ok frags
    /\ "A B" +:+ NL +:+ "Curriculum Vitae of Alice" +:+ NL
       +:+ table_to_markdown name_age_table +:+ NL
       +:+ "hello world" +:+ NL = lines frags
    /\ forall i j a b, i < j -> frags !! i = Some a -> frags !! j = Some b ->
                       (a.1 <= b.1)%Z.
Proof.
  apply (OCR_text_ascending (PyInt 1) sample_result). vm_compute. reflexivity.
Defined.

(** C3: a paragraph whose content is the content of a cell of a table of
    the result is not a fragment of the output, whatever its offset: the
    fragments are the rendered tables and the kept paragraphs, and no kept
    paragraph has this content. *)
Theorem cell_paragraph_suppressed threshold result out p table c :
  OCR_text threshold result = Ok out ->
  p ∈ paragraphs result ->
  table ∈ tables result -> c ∈ Table.cells table ->
  Cell.content c = Paragraph.content p ->
  (forall q, q ∈ kept_paragraphs threshold result ->
             Paragraph.content q <> Paragraph.content p)
  /\ exists frags,
      out = lines frags
      /\ frags ≡ₚ omap entry_of_paragraph (kept_paragraphs threshold result)
                  ++ omap entry_of_table (tables result).
Proof.
  intros Hout Hp Ht Hc Hcp. split.
  - intros q [Hk _]%list_elem_of_filter Hq.
    apply kept_true in Hk as [Hcheck _]. rewrite Hq in Hcheck.
    assert (check_tables (Paragraph.content p) (tables result) = true);
      [|congruence].
    apply check_tables_true. by exists table, c.
  - apply OCR_text_fragments in Hout as (frags & Hf & ->). exists frags.
    split; [done|]. by apply OCR_fragments_sorted in Hf as (_ & Hperm & _).
Qed.

Lemma cell_paragraph_suppressed_witness :
  (forall q, q ∈ kept_paragraphs (PyInt 1) sample_result ->
             Paragraph.content q <> "Name")
  /\ exists frags,
      "A B" +:+ NL +:+ "Curriculum Vitae of Alice" +:+ NL
      +:+ table_to_markdown name_age_table +:+ NL
      +:+ "hello world" +:+ NL = lines frags
      /\ frags ≡ₚ omap entry_of_paragraph
                    (kept_paragraphs (PyInt 1) sample_result)
                  ++ omap entry_of_table (tables sample_result).
Proof.
  apply (cell_paragraph_suppressed (PyInt 1) sample_result _
           (paragraph 22 "Name" None) name_age_table (cell 0 "Name")).
  - vm_compute. reflexivity.
  - apply list_elem_of_In. simpl. tauto.
  - apply list_elem_of_In. simpl. tauto.
  - apply list_elem_of_In. simpl. tauto.
  - reflexivity.
Defined.

Lemma OCR_text_kept_spans threshold result out p :
  OCR_text threshold result = Ok out ->
  p ∈ kept_paragraphs threshold result ->
  is_Some (entry_of_paragraph p).
Proof.
  unfold OCR_text, fill_queue.
  destruct (for_each (push_paragraph threshold (tables result)) _ _)
    as [pq1|] eqn:E1; simpl; [|done].
  intros _ [Hk Hp]%list_elem_of_filter. by eapply paragraphs_loop_spans.
Qed.

(** C4, as stated, fails: a page number of four words, with the
    threshold 1, is not in the output. *)
Lemma page_number_over_threshold_dropped :
  word_count "Page 1 of 3" = Ok 4%Z
  /\ MIN_WORD_THRESHOLD ∅ = PyInt 1
  /\ OCR_fragments (PyInt 1) page_number_result = Ok []
  /\ OCR_text (PyInt 1) page_number_result = Ok "".
Proof. repeat split; vm_compute; reflexivity. Qed.

(** C4, amended: with an int for threshold, a paragraph whose word count
    is at most the threshold is not a fragment of the output; one whose
    word count is greater is a fragment of the output when its content is
    the content of no cell and its role is not pageNumber. *)
Theorem word_count_filter (t : Z) result out p n :
  OCR_text (PyInt t) result = Ok out ->
  p ∈ paragraphs result ->
  word_count (Paragraph.content p) = Ok n ->
  exists frags,
    out = lines frags
    /\ frags ≡ₚ omap entry_of_paragraph (kept_paragraphs (PyInt t) result)
                ++ omap entry_of_table (tables result)
    /\ ((n <= t)%Z ->
        forall q, q ∈ kept_paragraphs (PyInt t) result ->
                  Paragraph.content q <> Paragraph.content p)
    /\ ((t < n)%Z ->
        check_tables (Paragraph.content p) (tables result) = false ->
        Paragraph.role p <> Some "pageNumber" ->
        p ∈ kept_paragraphs (PyInt t) result
        /\ exists e, entry_of_paragraph p = Some e /\ e ∈ frags).
Proof.
  intros Hout Hp Hn.
  destruct (OCR_text_fragments _ _ _ Hout) as (frags & Hf & ->).
  apply OCR_fragments_sorted in Hf as (_ & Hperm & _).
  exists frags. split; [done|]. split; [done|]. split.
  - intros Hle q [Hk _]%list_elem_of_filter Hq.
    apply kept_true in Hk as (_ & _ & n' & Hn' & Hgt).
    rewrite Hq, Hn in Hn'. injection Hn' as <-.
    simpl in Hgt. injection Hgt as Hgt. lia.
  - intros Hlt Hcheck Hrole.
    assert (p ∈ kept_paragraphs (PyInt t) result) as Hkept.
    { apply list_elem_of_filter. split; [|done].
      rewrite kept_int, Hcheck. rewrite word_count_Ok in Hn.
      injection Hn as <-. rewrite bool_decide_eq_false_2 by done.
      simpl. f_equal. by apply Z.ltb_lt. }
    split; [done|].
    destruct (OCR_text_kept_spans _ _ _ _ Hout Hkept) as [e He].
    exists e. split; [done|]. rewrite Hperm.
    apply elem_of_app. left. apply list_elem_of_omap. by exists p.
Qed.

Lemma word_count_filter_witness :
  exists frags,
    "A B" +:+ NL +:+ "Curriculum Vitae of Alice" +:+ NL
    +:+ table_to_markdown name_age_table +:+ NL
    +:+ "hello world" +:+ NL = lines frags
    /\ frags ≡ₚ omap entry_of_paragraph
                  (kept_paragraphs (PyInt 1) sample_result)
                ++ omap entry_of_table (tables sample_result)
    /\ ((2 <= 1)%Z ->
        forall q, q ∈ kept_paragraphs (PyInt 1) sample_result ->
                  Paragraph.content q <> "hello world")
    /\ ((1 < 2)%Z ->
        check_tables "hello world" (tables sample_result) = false ->
        None <> Some "pageNumber" ->
        paragraph 50 "hello world" None
          ∈ kept_paragraphs (PyInt 1) sample_result
        /\ exists e, entry_of_paragraph (paragraph 50 "hello world" None)
                     = Some e /\ e ∈ frags).
Proof.
  apply (word_count_filter 1 sample_result _
           (paragraph 50 "hello world" None) 2).
  - vm_compute. reflexivity.
  - apply list_elem_of_In. simpl. tauto.
  - reflexivity.
Defined.

(** C8: the output is a function of the paragraphs and tables of the
    result alone, and not even of the order in which the result lists
    them: results with the same paragraphs and the same tables give the
    same output, fragments of one offset included; between these the
    order is that of their contents. *)
Theorem OCR_text_deterministic threshold result1 result2 out1 out2 :
  paragraphs result1 ≡ₚ paragraphs result2 ->
  tables result1 ≡ₚ tables result2 ->
  OCR_text threshold result1 = Ok out1 ->
  OCR_text threshold result2 = Ok out2 ->
  out1 = out2
  /\ exists frags,
      out1 = lines frags /\ frags ≡ₚ pushed threshold result1
      /\ StronglySorted entry_le frags.
Proof.
  intros Hps Hts (f1 & Hf1 & ->)%OCR_text_fragments
         (f2 & Hf2 & ->)%OCR_text_fragments.
  apply OCR_fragments_sorted in Hf1 as (Hs1 & Hp1 & _).
  apply OCR_fragments_sorted in Hf2 as (Hs2 & Hp2 & _).
  split; [|by exists f1].
  f_equal. apply (StronglySorted_unique entry_le); [done..|].
  rewrite Hp1, Hp2. unfold pushed, kept_paragraphs.
  apply Permutation_app; [|by apply omap_Permutation].
  apply omap_Permutation. rewrite Hps.
  rewrite (list_filter_iff _
             (fun p => kept threshold (tables result2) p = Ok true)); [done|].
  intros p. by rewrite (kept_perm _ _ _ _ Hts).
Qed.

Lemma OCR_text_deterministic_witness :
  OCR_text (PyInt 1) sample_result = OCR_text (PyInt 1) sample_result'
  /\ OCR_fragments (PyInt 1) sample_result
     = Ok [(10, "A B"); (10, "Curriculum Vitae of Alice");
           (20, table_to_markdown name_age_table); (50, "hello world")]%Z.
Proof.
  split; [|vm_compute; reflexivity].
  assert (OCR_text (PyInt 1) sample_result
          = Ok ("A B" +:+ NL +:+ "Curriculum Vitae of Alice" +:+ NL
                +:+ table_to_markdown name_age_table +:+ NL
                +:+ "hello world" +:+ NL)) as H1
    by (vm_compute; reflexivity).
  destruct (OCR_text (PyInt 1) sample_result') as [out2|e] eqn:H2;
    [|vm_compute in H2; discriminate H2].
  rewrite H1. f_equal.
  apply (OCR_text_deterministic (PyInt 1) sample_result sample_result' _ out2).
  - symmetry. apply (reverse_Permutation (paragraphs sample_result)).
  - reflexivity.
  - exact H1.
  - exact H2.
Defined.

Lemma threshold_typing_witness :
  (MIN_WORD_THRESHOLD ∅ = PyInt 1
   /\ exists n, word_count "hello world" = Ok n
        /\ kept (MIN_WORD_THRESHOLD ∅) (tables sample_result)
                (paragraph 50 "hello world" None) = Ok (1 <? n)%Z)
  /\ (MIN_WORD_THRESHOLD {[ "MIN_WORD_THRESHOLD" := "1" ]} = PyStr "1"
      /\ kept (MIN_WORD_THRESHOLD {[ "MIN_WORD_THRESHOLD" := "1" ]})
              (tables sample_result) (paragraph 50 "hello world" None)
         = Raise TypeError
      /\ OCR_text (MIN_WORD_THRESHOLD {[ "MIN_WORD_THRESHOLD" := "1" ]})
                  sample_result = Raise TypeError).
Proof.
  assert (paragraph 50 "hello world" None ∈ paragraphs sample_result) as Hp.
  { apply list_elem_of_In. simpl. tauto. }
  split.
  - pose proof (threshold_typing ∅ sample_result _ Hp eq_refl) as H.
    rewrite lookup_empty in H. exact H.
  - pose proof (threshold_typing {[ "MIN_WORD_THRESHOLD" := "1" ]}
                  sample_result _ Hp eq_refl) as H.
    rewrite lookup_singleton_eq in H. exact H.
Defined.

(* ================================================================== *)
(** * Part III: further properties of the code *)
(* ================================================================== *)

(** ** [OCR_text_from_pdf]: what the loops ignore, keep and raise *)

Section ignored.
Variable threshold : pyval.

Lemma push_paragraph_ignored tables pq p :
  reaches_word_count tables p = false ->
  push_paragraph threshold tables pq p = Ok pq.
Proof.
  intros Hr. unfold push_paragraph. by rewrite kept_not_reaches.
Qed.

Lemma paragraphs_loop_ignored tables pq ps :
  for_each (push_paragraph threshold tables) pq ps
  = for_each (push_paragraph threshold tables) pq
             (filter (fun p => reaches_word_count tables p = true) ps).
Proof.
  revert pq. induction ps as [|p ps IH]; intros pq; [done|].
  destruct (reaches_word_count tables p) eqn:E.
  - rewrite filter_cons_True by done. cbn [for_each].
    destruct (push_paragraph threshold tables pq p); [apply IH|done].
  - rewrite filter_cons_False by congruence. cbn [for_each].
    rewrite push_paragraph_ignored by done. apply IH.
Qed.

End ignored.

(** X1: the paragraphs that are page numbers or repeat the content of a
    cell have no effect at all: without them the outcome is the same, be
    it a text or an exception, even when such a paragraph has no span and
    even when the threshold is a str. *)
Theorem OCR_text_ignores threshold result :
  OCR_text threshold result
  = OCR_text threshold
      {| paragraphs :=
           filter (fun p => reaches_word_count (tables result) p = true)
                  (paragraphs result);
         tables := tables result |}.
Proof.
  unfold OCR_text, fill_queue. cbn [paragraphs tables].
  by rewrite <- paragraphs_loop_ignored.
Qed.

Lemma tables_loop_spans ts pq pq' t :
  for_each push_table pq ts = Ok pq' -> t ∈ ts -> is_Some (entry_of_table t).
Proof.
  revert pq. induction ts as [|t' ts IH]; intros pq; cbn [for_each].
  - by intros _ ?%elem_of_nil.
  - destruct (push_table pq t') as [pq1|] eqn:E;
      unfold mbind, py_bind; [|done].
    intros Hrest [Heq|Ht]%elem_of_cons; [subst t'|by eapply IH].
    unfold push_table, entry_of_table, getitem in *.
    by destruct (Table.spans t !! 0).
Qed.

Lemma OCR_text_table_spans threshold result out t :
  OCR_text threshold result = Ok out ->
  t ∈ tables result -> is_Some (entry_of_table t).
Proof.
  unfold OCR_text, fill_queue.
  destruct (for_each (push_paragraph threshold (tables result)) _ _)
    as [pq1|]; simpl; [|done].
  destruct (for_each push_table pq1 (tables result)) as [pq2|] eqn:E;
    simpl; [|done].
  intros _. by eapply tables_loop_spans.
Qed.

Lemma length_omap_Some {X Y} (f : X -> option Y) (l : list X) :
  (forall x, x ∈ l -> is_Some (f x)) -> length (omap f l) = length l.
Proof.
  induction l as [|x l IH]; intros H; [done|]. cbn [omap list_omap].
  destruct (H x) as [y ->]; [left|]. simpl. f_equal. apply IH.
  intros x' Hx'. apply H. by right.
Qed.

(** X2: when [OCR_text_from_pdf] returns, no table is lost: every table of
    the result is a fragment of the output, rendered, at the offset of its
    first span, and the fragments are as many as the tables and the kept
    paragraphs together. *)
Theorem OCR_text_keeps_tables threshold result out :
  OCR_text threshold result = Ok out ->
  exists frags,
    out = lines frags
    /\ length frags
       = (length (kept_paragraphs threshold result)
          + length (tables result))%nat
    /\ forall t, t ∈ tables result ->
         exists s, Table.spans t !! 0 = Some s
           /\ (DocumentSpan.offset s, table_to_markdown t) ∈ frags.
Proof.
  intros Hout.
  destruct (OCR_text_fragments _ _ _ Hout) as (frags & Hf & ->).
  apply OCR_fragments_sorted in Hf as (_ & Hperm & _).
  exists frags. split; [done|]. split.
  - rewrite Hperm. unfold pushed. rewrite length_app.
    rewrite !length_omap_Some; [done|..].
    + intros t Ht. by eapply OCR_text_table_spans.
    + intros p Hp. by eapply OCR_text_kept_spans.
  - intros t Ht.
    destruct (OCR_text_table_spans _ _ _ _ Hout Ht) as [e He].
    unfold entry_of_table in He.
    destruct (Table.spans t !! 0) as [s|] eqn:Hs; [|done].
    simpl in He. injection He as <-. exists s. split; [done|].
    rewrite Hperm. apply elem_of_app. right.
    apply list_elem_of_omap. exists t. split; [done|].
    unfold entry_of_table. by rewrite Hs.
Qed.

Lemma OCR_text_keeps_tables_witness :
  exists frags,
    "A B" +:+ NL +:+ "Curriculum Vitae of Alice" +:+ NL
    +:+ table_to_markdown name_age_table +:+ NL
    +:+ "hello world" +:+ NL = lines frags
    /\ length frags
       = (length (kept_paragraphs (PyInt 1) sample_result)
          + length (tables sample_result))%nat
    /\ forall t, t ∈ tables sample_result ->
         exists s, Table.spans t !! 0 = Some s
           /\ (DocumentSpan.offset s, table_to_markdown t) ∈ frags.
Proof.
  apply (OCR_text_keeps_tables (PyInt 1) sample_result).
  vm_compute. reflexivity.
Defined.

Lemma lookup_0_None {X} (l : list X) : l !! 0 = None <-> l = [].
Proof. by destruct l. Qed.

Lemma push_paragraph_outcome t tables pq p :
  queue_heap pq ->
  match push_paragraph (PyInt t) tables pq p with
  | Ok pq' =>
    queue_heap pq'
    /\ (kept (PyInt t) tables p = Ok true -> Paragraph.spans p <> [])
  | Raise e =>
    e = IndexError /\ kept (PyInt t) tables p = Ok true
    /\ Paragraph.spans p = []
  end.
Proof.
  intros Hh. unfold push_paragraph. rewrite kept_int.
  destruct (_ && _) eqn:Hk; unfold mbind, py_bind; [|done].
  unfold getitem. destruct (Paragraph.spans p !! 0) as [s|] eqn:Hs.
  - destruct (push_heap pq (DocumentSpan.offset s)
                (Paragraph.content p) Hh) as (pq1 & -> & Hh1 & _).
    split; [done|]. intros _ Hnil. by rewrite Hnil in Hs.
  - split; [done|]. split; [done|by apply lookup_0_None].
Qed.

Lemma paragraphs_loop_outcome t tables ps pq :
  queue_heap pq ->
  match for_each (push_paragraph (PyInt t) tables) pq ps with
  | Ok pq' =>
    queue_heap pq'
    /\ forall p, p ∈ ps -> kept (PyInt t) tables p = Ok true ->
                 Paragraph.spans p <> []
  | Raise e =>
    e = IndexError
    /\ exists p, p ∈ ps /\ kept (PyInt t) tables p = Ok true
                 /\ Paragraph.spans p = []
  end.
Proof.
  revert pq. induction ps as [|p ps IH]; intros pq Hh; cbn [for_each].
  - split; [done|]. by intros p ?%elem_of_nil.
  - pose proof (push_paragraph_outcome t tables pq p Hh) as Hp.
    destruct (push_paragraph (PyInt t) tables pq p) as [pq1|e];
      unfold mbind, py_bind.
    + destruct Hp as [Hh1 Hp]. specialize (IH pq1 Hh1).
      destruct (for_each _ pq1 ps) as [pq'|e].
      * destruct IH as [Hh' Hall]. split; [done|].
        intros q [->|Hq]%elem_of_cons Hkq; [by apply Hp|by apply Hall].
      * destruct IH as [-> (q & Hq & Hkq & Hnil)]. split; [done|].
        exists q. split; [by right|done].
    + destruct Hp as (-> & Hk & Hnil). split; [done|].
      exists p. split; [left|done].
Qed.

Lemma push_table_outcome pq t :
  queue_heap pq ->
  match push_table pq t with
  | Ok pq' => queue_heap pq' /\ Table.spans t <> []
  | Raise e => e = IndexError /\ Table.spans t = []
  end.
Proof.
  intros Hh. unfold push_table, getitem.
  destruct (Table.spans t !! 0) as [s|] eqn:Hs; unfold mbind, py_bind.
  - destruct (push_heap pq (DocumentSpan.offset s)
                (table_to_markdown t) Hh) as (pq1 & -> & Hh1 & _).
    split; [done|]. intros Hnil. by rewrite Hnil in Hs.
  - split; [done|by apply lookup_0_None].
Qed.

Lemma tables_loop_outcome ts pq :
  queue_heap pq ->
  match for_each push_table pq ts with
  | Ok pq' => queue_heap pq' /\ forall t, t ∈ ts -> Table.spans t <> []
  | Raise e => e = IndexError /\ exists t, t ∈ ts /\ Table.spans t = []
  end.
Proof.
  revert pq. induction ts as [|t ts IH]; intros pq Hh; cbn [for_each].
  - split; [done|]. by intros t ?%elem_of_nil.
  - pose proof (push_table_outcome pq t Hh) as Ht.
    destruct (push_table pq t) as [pq1|e]; unfold mbind, py_bind.
    + destruct Ht as [Hh1 Ht]. specialize (IH pq1 Hh1).
      destruct (for_each _ pq1 ts) as [pq'|e].
      * destruct IH as [Hh' Hall]. split; [done|].
        intros q [->|Hq]%elem_of_cons; [done|by apply Hall].
      * destruct IH as [-> (q & Hq & Hnil)]. split; [done|].
        exists q. split; [by right|done].
    + destruct Ht as [-> Hnil]. split; [done|].
      exists t. split; [left|done].
Qed.

Lemma drain_returns pq result_string :
  queue_heap pq -> exists out, drain pq result_string = Ok out.
Proof.
  intros Hh. rewrite drain_lines.
  destruct (drain_entries_sorted pq Hh) as (es & -> & _). by eexists.
Qed.

(** With an int for threshold, and for a result that has its paragraphs
    and its tables, the only exception is the IndexError of [spans[0]]:
    it is raised exactly when a kept paragraph or a table has no span, and
    otherwise a text is returned. *)
Lemma OCR_text_present (t : Z) result :
  (OCR_text (PyInt t) result = Raise IndexError <->
   (exists p, p ∈ kept_paragraphs (PyInt t) result
              /\ Paragraph.spans p = [])
   \/ (exists tb, tb ∈ tables result /\ Table.spans tb = []))
  /\ ((exists out, OCR_text (PyInt t) result = Ok out)
      \/ OCR_text (PyInt t) result = Raise IndexError).
Proof.
  unfold OCR_text, fill_queue, kept_paragraphs.
  pose proof (paragraphs_loop_outcome t (tables result) (paragraphs result)
                PriorityQueue.init (is_heap_nil entry_lt)) as Hps.
  destruct (for_each (push_paragraph (PyInt t) (tables result)) _ _)
    as [pq1|e1]; unfold mbind at 1 2 3 4 5 6, py_bind.
  - destruct Hps as [Hh1 Hps].
    pose proof (tables_loop_outcome (tables result) pq1 Hh1) as Hts.
    destruct (for_each push_table pq1 (tables result)) as [pq2|e2].
    + destruct Hts as [Hh2 Hts].
      destruct (drain_returns pq2 "" Hh2) as [out Hout].
      unfold mbind, py_bind. rewrite Hout. split; [|left; by eexists].
      split; [done|].
      intros [(p & [Hk Hp]%list_elem_of_filter & Hnil)|(tb & Htb & Hnil)].
      * by destruct (Hps p Hp Hk).
      * by destruct (Hts tb Htb).
    + destruct Hts as [-> Hts]. split; [|by right].
      split; [by right|done].
  - destruct Hps as [-> (p & Hp & Hk & Hnil)]. split; [|by right].
    split; [|done]. intros _. left. exists p.
    split; [by apply list_elem_of_filter|done].
Qed.

(** On a result that has its paragraphs and its tables, the loops are
    those of [OCR_text]. *)
Lemma OCR_text_optional_Some threshold paragraphs tables :
  OCR_text_optional threshold
    {| Analysis.paragraphs := Some paragraphs;
       Analysis.tables := Some tables |}
  = OCR_text threshold {| paragraphs := paragraphs; tables := tables |}.
Proof.
  unfold OCR_text_optional, OCR_text, fill_queue. simpl.
  change (fun pq paragraph => push_paragraph threshold tables pq paragraph)
    with (push_paragraph threshold tables).
  by destruct (for_each (push_paragraph threshold tables) PriorityQueue.init
                        paragraphs).
Qed.

(** Without its paragraphs or without its tables, the TypeError of a loop
    over [None]. *)
Lemma OCR_text_optional_None threshold result :
  Analysis.paragraphs result = None \/ Analysis.tables result = None ->
  OCR_text_optional threshold result = Raise TypeError.
Proof.
  destruct result as [[paragraphs|] [tables|]]; cbn [Analysis.paragraphs
    Analysis.tables]; intros [H|H]; try done.
  unfold OCR_text_optional. cbn [Analysis.paragraphs Analysis.tables].
  by destruct paragraphs.
Qed.

(** A text is returned only for a result that has its paragraphs and its
    tables, and it is the text of [OCR_text]. *)
Lemma OCR_text_optional_Ok threshold result out :
  OCR_text_optional threshold result = Ok out ->
  exists ps ts,
    result = {| Analysis.paragraphs := Some ps; Analysis.tables := Some ts |}
    /\ OCR_text threshold {| paragraphs := ps; tables := ts |} = Ok out.
Proof.
  destruct result as [[ps|] [ts|]].
  - rewrite OCR_text_optional_Some. by exists ps, ts.
  - by rewrite OCR_text_optional_None by (cbn; auto).
  - by rewrite OCR_text_optional_None by (cbn; auto).
  - by rewrite OCR_text_optional_None by (cbn; auto).
Qed.

(** X3: with an int for threshold, [OCR_text_from_pdf], once it has the
    result, returns a text or raises one of two exceptions: the TypeError
    of a loop over [None], exactly when the result has no paragraphs or no
    tables, and the IndexError of [spans[0]], exactly when it has both and
    a kept paragraph or a table has no span. *)
Theorem OCR_text_outcomes (t : Z) (result : Analysis.t) :
  (OCR_text_optional (PyInt t) result = Raise TypeError
   <-> Analysis.paragraphs result = None \/ Analysis.tables result = None)
  /\ (OCR_text_optional (PyInt t) result = Raise IndexError
      <-> exists paragraphs tables,
            Analysis.paragraphs result = Some paragraphs
            /\ Analysis.tables result = Some tables
            /\ ((exists p,
                    p ∈ kept_paragraphs (PyInt t)
                          {| paragraphs := paragraphs; tables := tables |}
                    /\ Paragraph.spans p = [])
                \/ (exists tb, tb ∈ tables /\ Table.spans tb = [])))
  /\ ((exists out, OCR_text_optional (PyInt t) result = Ok out)
      \/ OCR_text_optional (PyInt t) result = Raise IndexError
      \/ OCR_text_optional (PyInt t) result = Raise TypeError).
Proof.
  destruct result as [[ps|] [ts|]];
    cbn [Analysis.paragraphs Analysis.tables].
  2-4: rewrite OCR_text_optional_None by (cbn; auto);
    (split; [split; [auto|done]|]);
    (split; [split; [done|by intros (? & ? & ? & ? & ?)]|auto]).
  rewrite OCR_text_optional_Some.
  destruct (OCR_text_present t {| paragraphs := ps; tables := ts |})
    as [Hiff Hout].
  cbn [paragraphs tables] in Hiff.
  split; [|split].
  - split; [|by intros [?|?]].
    intros Htype. destruct Hout as [[out Hout]|Hout]; congruence.
  - rewrite Hiff. split.
    + intros H. by exists ps, ts.
    + by intros (ps' & ts' & [= <-] & [= <-] & H).
  - destruct Hout as [Hout|Hout]; auto.
Qed.

(** ** [PriorityQueue] on its own *)

(** [push] for each tuple of a list, in its order. *)
Definition push_all (pq : PriorityQueue.t) (l : list entry)
  : py PriorityQueue.t :=
  for_each (fun pq e => PriorityQueue.push pq e.1 e.2) pq l.

Lemma push_all_heap l pq :
  queue_heap pq ->
  exists pq', push_all pq l = Ok pq' /\ queue_heap pq'
              /\ PriorityQueue._queue pq' ≡ₚ l ++ PriorityQueue._queue pq.
Proof.
  unfold push_all. revert pq.
  induction l as [|[priority item] l IH]; intros pq Hh; cbn [for_each].
  - by exists pq.
  - destruct (push_heap pq priority item Hh) as (pq1 & Hpq1 & Hh1 & Hp1).
    cbn [fst snd]. rewrite Hpq1. unfold mbind, py_bind.
    destruct (IH pq1 Hh1) as (pq' & -> & Hh' & Hp').
    exists pq'. split; [done|]. split; [done|].
    rewrite Hp', Hp1. symmetry. apply Permutation_middle.
Qed.

(** X4: pushes never fail; the queue holds as many tuples as were pushed
    and [is_empty] holds exactly when none was; [pop] on the empty queue
    raises the IndexError of [heappop]. *)
Theorem push_all_size (l : list entry) :
  exists pq,
    push_all PriorityQueue.init l = Ok pq
    /\ length (PriorityQueue._queue pq) = length l
    /\ (PriorityQueue.is_empty pq = true <-> l = [])
    /\ (l = [] -> PriorityQueue.pop pq = Raise IndexError)
    /\ (l <> [] -> exists item pq', PriorityQueue.pop pq = Ok (item, pq')
                     /\ length (PriorityQueue._queue pq') = pred (length l)).
Proof.
  destruct (push_all_heap l PriorityQueue.init (is_heap_nil entry_lt))
    as (pq & Hpq & Hh & Hperm).
  rewrite app_nil_r in Hperm. exists pq. split; [done|].
  assert (length (PriorityQueue._queue pq) = length l) as Hlen
    by (by rewrite Hperm).
  split; [done|]. split; [|split].
  - unfold PriorityQueue.is_empty. rewrite bool_decide_eq_true, Hlen.
    by destruct l.
  - intros ->. unfold PriorityQueue.pop, PriorityQueue.pop_entry.
    by destruct (PriorityQueue._queue pq).
  - intros Hne.
    destruct (pop_entry_heap pq Hh) as (e & pq' & Hpop & _ & Hp' & _).
    { unfold PriorityQueue.is_empty. apply bool_decide_eq_false.
      rewrite Hlen. by destruct l. }
    exists e.2, pq'. unfold PriorityQueue.pop. rewrite Hpop.
    split; [done|]. rewrite <- Hlen, Hp'. done.
Qed.

(** X5: [pop] gives an item of the smallest priority among the tuples
    pushed, not of the highest, and leaves the other tuples in the queue. *)
Theorem pop_smallest (l : list entry) pq :
  l <> [] ->
  push_all PriorityQueue.init l = Ok pq ->
  exists priority item pq',
    PriorityQueue.pop pq = Ok (item, pq')
    /\ (priority, item) ∈ l
    /\ (forall e, e ∈ l -> (priority <= e.1)%Z)
    /\ l ≡ₚ (priority, item) :: PriorityQueue._queue pq'.
Proof.
  intros Hne Hpush.
  destruct (push_all_heap l PriorityQueue.init (is_heap_nil entry_lt))
    as (pq0 & Hpq & Hh & Hperm).
  rewrite Hpush in Hpq. injection Hpq as <-. rewrite app_nil_r in Hperm.
  destruct (pop_entry_heap pq Hh) as ([priority item] & pq' & Hpop & _ & Hp' & Hmin).
  { unfold PriorityQueue.is_empty. apply bool_decide_eq_false.
    rewrite Hperm. by destruct l. }
  exists priority, item, pq'. unfold PriorityQueue.pop. rewrite Hpop.
  assert (l ≡ₚ (priority, item) :: PriorityQueue._queue pq') as Hl
    by (by rewrite <- Hperm).
  split; [done|]. split; [rewrite Hl; left|]. split; [|done].
  intros e He. rewrite Hl in He.
  apply elem_of_cons in He as [->|He]; [simpl; lia|].
  rewrite Forall_forall in Hmin.
  destruct (Hmin e He) as [?|[? _]]; simpl in *; lia.
Qed.

Lemma pop_smallest_witness :
  exists priority item pq',
    PriorityQueue.pop
      {| PriorityQueue._queue := [(1, "a"); (5, "e"); (3, "c")]%Z |}
    = Ok (item, pq')
    /\ (priority, item) ∈ [(5, "e"); (1, "a"); (3, "c")]%Z
    /\ (forall e, e ∈ [(5, "e"); (1, "a"); (3, "c")]%Z -> (priority <= e.1)%Z)
    /\ [(5, "e"); (1, "a"); (3, "c")]%Z
       ≡ₚ (priority, item) :: PriorityQueue._queue pq'.
Proof.
  apply (pop_smallest [(5, "e"); (1, "a"); (3, "c")]%Z).
  - discriminate.
  - reflexivity.
Defined.

(** ** Substrings *)

Lemma prefix_refl (s : string) : String.prefix s s = true.
Proof. induction s as [|c s IH]; simpl; [done|]. by destruct (ascii_dec c c). Qed.

Lemma prefix_app_l (sub a b : string) :
  String.prefix sub a = true -> String.prefix sub (a +:+ b) = true.
Proof.
  revert a. induction sub as [|c sub IH]; intros [|d a]; simpl; try done.
  - by destruct b.
  - destruct (ascii_dec c d); [apply IH|done].
Qed.

Lemma contains_refl (s : string) : Str.contains s s = true.
Proof. destruct s; cbn [Str.contains]; by rewrite prefix_refl. Qed.

Lemma contains_app_l (sub a b : string) :
  Str.contains sub a = true -> Str.contains sub (a +:+ b) = true.
Proof.
  induction a as [|c a IH]; cbn [Str.contains].
  - rewrite orb_false_r. intros H. destruct sub; [|done]. by destruct b.
  - intros [H|H]%orb_true_iff; simpl; apply orb_true_iff.
    + left. by apply (prefix_app_l sub (String c a) b).
    + right. by apply IH.
Qed.

Lemma contains_app_r (sub a b : string) :
  Str.contains sub b = true -> Str.contains sub (a +:+ b) = true.
Proof.
  intros H. induction a as [|c a IH]; simpl; [done|].
  cbn [Str.contains]. rewrite IH. apply orb_true_r.
Qed.

Lemma contains_join (sep x y : string) (l : list string) :
  y ∈ l -> Str.contains x y = true ->
  Str.contains x (Str.join sep l) = true.
Proof.
  intros Hy Hxy. induction l as [|z l IH]; [by apply elem_of_nil in Hy|].
  apply elem_of_cons in Hy as [->|Hy].
  - destruct l; cbn [Str.join]; [done|]. by apply contains_app_l.
  - destruct l as [|z' l]; [by apply elem_of_nil in Hy|].
    cbn [Str.join]. apply contains_app_r, contains_app_r. by apply IH.
Qed.

(** ** [table_to_markdown]: the cells it reads *)

Lemma elem_of_range (lo hi r : Z) : r ∈ range lo hi <-> (lo <= r < hi)%Z.
Proof.
  unfold range. rewrite list_elem_of_fmap. split.
  - intros (k & -> & Hk%elem_of_seq). lia.
  - intros H. exists (Z.to_nat (r - lo)). rewrite elem_of_seq. lia.
Qed.

(** The rendering is a function of [row_count] and of the rows 0 and 1 to
    [row_count - 1]. *)
Lemma table_to_markdown_ext (t1 t2 : Table.t) :
  Table.row_count t1 = Table.row_count t2 ->
  row_contents t1 0 = row_contents t2 0 ->
  (forall r, (1 <= r < Table.row_count t1)%Z ->
             row_contents t1 r = row_contents t2 r) ->
  table_to_markdown t1 = table_to_markdown t2.
Proof.
  intros Hrc H0 Hr. rewrite !table_to_markdown_rows, <- Hrc, H0.
  do 3 f_equal. apply list_fmap_ext. intros i r Hlk. simpl. f_equal.
  apply Hr, elem_of_range. by eapply list_elem_of_lookup_2.
Qed.

Lemma row_contents_skip cells1 c cells2 rc sp1 sp2 r :
  Cell.row_index c <> r ->
  row_contents {| Table.cells := cells1 ++ c :: cells2;
                  Table.row_count := rc; Table.spans := sp1 |} r
  = row_contents {| Table.cells := cells1 ++ cells2;
                    Table.row_count := rc; Table.spans := sp2 |} r.
Proof.
  intros Hne. unfold row_contents. cbn [Table.cells].
  rewrite !filter_app, filter_cons_False by done. done.
Qed.

(** X6: a cell whose [row_index] is neither 0 nor from 1 to
    [row_count - 1] is left out of the rendering without any error: with
    or without it the table is rendered the same. *)
Theorem table_to_markdown_out_of_range cells1 c cells2 row_count spans :
  (Cell.row_index c < 0 \/ (row_count <= Cell.row_index c
                            /\ Cell.row_index c <> 0))%Z ->
  table_to_markdown {| Table.cells := cells1 ++ c :: cells2;
                       Table.row_count := row_count; Table.spans := spans |}
  = table_to_markdown {| Table.cells := cells1 ++ cells2;
                         Table.row_count := row_count; Table.spans := spans |}.
Proof.
  intros Hc. apply table_to_markdown_ext; cbn [Table.row_count]; [done|..].
  - apply row_contents_skip. lia.
  - intros r Hr. apply row_contents_skip. lia.
Qed.

Lemma table_to_markdown_out_of_range_witness :
  table_to_markdown
    {| Table.cells := name_age_cells ++ cell 2 "Bob" :: [cell 2 "41"];
       Table.row_count := 2; Table.spans := [] |}
  = table_to_markdown
      {| Table.cells := name_age_cells ++ [cell 2 "41"];
         Table.row_count := 2; Table.spans := [] |}.
Proof.
  apply (table_to_markdown_out_of_range name_age_cells (cell 2 "Bob")).
  right. simpl. lia.
Defined.

(** X7: the content of every cell of the header row and of the rows 1 to
    [row_count - 1] is in the rendering. *)
Theorem table_to_markdown_contains (table : Table.t) (c : Cell.t) :
  c ∈ Table.cells table ->
  (Cell.row_index c = 0 \/ 1 <= Cell.row_index c < Table.row_count table)%Z ->
  Str.contains (Cell.content c) (table_to_markdown table) = true.
Proof.
  intros Hc Hr.
  assert (forall r, Cell.row_index c = r ->
            Str.contains (Cell.content c)
                         (markdown_line (row_contents table r)) = true)
    as Hline.
  { intros r Hcr. unfold markdown_line.
    apply contains_app_r, contains_app_l.
    apply (contains_join _ _ (Cell.content c)); [|apply contains_refl].
    unfold row_contents. apply list_elem_of_fmap. exists c.
    split; [done|]. by apply list_elem_of_filter. }
  rewrite table_to_markdown_rows. destruct Hr as [Hr|Hr].
  - by apply contains_app_l, Hline.
  - apply contains_app_r, contains_app_r.
    apply (contains_join _ _
             (markdown_line (row_contents table (Cell.row_index c))));
      [|by apply Hline].
    apply list_elem_of_fmap. exists (Cell.row_index c).
    split; [done|]. by apply elem_of_range.
Qed.

Lemma table_to_markdown_contains_witness :
  Str.contains "Alice" (table_to_markdown name_age_table) = true.
Proof.
  apply (table_to_markdown_contains name_age_table (cell 1 "Alice")).
  - apply list_elem_of_In. simpl. tauto.
  - right. simpl. lia.
Defined.

(** ** [analyze_document]: the runs that return, and the second window *)

Section Driver_more.
Context {Credential Client : Type}.
Variable threshold : pyval.
Variable environ : gmap string string.
Variable AzureKeyCredential : pyobject -> outcome exn Credential.
Variable DocumentIntelligenceClient :
  pyobject -> Credential -> pyobject -> outcome exn Client.
Variable begin_analyze_document : Client -> option string -> py Analysis.t.

Abbreviation ocr :=
  (OCR_text_from_pdf threshold environ AzureKeyCredential
     DocumentIntelligenceClient begin_analyze_document).
Abbreviation analyze :=
  (analyze_document threshold environ AzureKeyCredential
     DocumentIntelligenceClient begin_analyze_document).

(** X8: on an open stream, [analyze_document] returns a text for a PDF in
    two cases only: there is at most one page, no call is made and the
    text is empty; or there are 2 to 2001 pages, the one call is for the
    window "1-2000", which holds every page below [num_pages], and the
    text is the text of this call. *)
Theorem analyze_document_returns client num_pages issued text :
  analyze (Ok num_pages) Open client "pdf" = (issued, Ok text)
  <-> ((num_pages <= 1)%Z /\ issued = [] /\ text = "")
      \/ ((1 < num_pages <= 2001)%Z /\ issued = [Some "1-2000"]
          /\ exists pdfBytes' client',
               ocr Open client (Some "1-2000")
               = Ok (text, pdfBytes', client')).
Proof.
  rewrite analyze_document_pdf.
  destruct (decide (num_pages <= 1)%Z) as [Hone|Hmore].
  { rewrite window_loop_done by lia. split.
    - intros [= <- <-]. by left.
    - intros [(_ & -> & ->)|(H & _)]; [done|lia]. }
  destruct (decide (num_pages <= 2001)%Z) as [Hfew|Hmany].
  - rewrite window_loop_step by lia. change (window 1) with "1-2000".
    destruct (OCR_text_from_pdf _ _ _ _ _ Open client (Some "1-2000"))
      as [[[text1 pdfBytes'] client']|e].
    + rewrite window_loop_done by lia. split.
      * intros [= <- <-]. right. split; [lia|]. split; [done|]. by eauto.
      * intros [(H & _)|(_ & -> & ? & ? & [= -> _ _])]; [lia|done].
    + split; [done|]. intros [(H & _)|(_ & _ & ? & ? & ?)]; [lia|done].
  - rewrite window_loop_second by lia.
    destruct (OCR_text_from_pdf _ _ _ _ _ Open client (Some "1-2000"));
      (split; [done|]); intros [(H & _)|(H & _)]; lia.
Qed.

(** X9: on an open stream, [analyze_document] never returns for a PDF of
    more than 2001 pages.  When the call for the window "1-2000" raises,
    it raises the same exception; when this call returns, the call for
    "2001-4000" raises the ValueError of a reader on a closed stream, the
    text of the first window is lost, and no window after the second is
    called for. *)
Theorem analyze_document_second_window client num_pages :
  (2001 < num_pages)%Z ->
  analyze (Ok num_pages) Open client "pdf"
  = match ocr Open client (Some "1-2000") with
    | Raise e => ([Some "1-2000"], Raise e)
    | Ok _ => ([Some "1-2000"; Some "2001-4000"], Raise ValueError)
    end.
Proof. intros H. rewrite analyze_document_pdf. by apply window_loop_second. Qed.

(** X10: [OCR_text_from_pdf] works once on a stream: after a call that
    has returned, any call on the same stream raises ValueError before the
    service is asked, whatever the pages. *)
Theorem OCR_text_from_pdf_once pdfBytes client pages text pdfBytes' client'
    pages' :
  ocr pdfBytes client pages = Ok (text, pdfBytes', client') ->
  ocr pdfBytes' client' pages' = Raise ValueError.
Proof.
  intros (_ & -> & c & ->)%OCR_text_from_pdf_returns.
  apply OCR_text_from_pdf_closed.
Qed.

End Driver_more.

(** A service that answers each call with one paragraph that names the
    pages, and constructors that accept what they are given. *)
Definition naming_service (client : unit) (pages : option string)
  : py Analysis.t :=
  Ok {| Analysis.paragraphs :=
          Some [paragraph 0 ("window " +:+ default "all" pages) None];
        Analysis.tables := Some [] |}.

Definition any_credential (key : pyobject) : outcome exn unit := Returns tt.

Definition any_client (endpoint : pyobject) (credential : unit)
    (api_version : pyobject) : outcome exn unit :=
  Returns tt.

Lemma analyze_document_second_window_witness :
  analyze_document (PyInt 1) ∅ any_credential any_client naming_service
    (Ok 4001%Z) Open None "pdf"
  = ([Some "1-2000"; Some "2001-4000"], Raise ValueError).
Proof.
  rewrite (analyze_document_second_window (PyInt 1) ∅ any_credential
             any_client naming_service None 4001) by lia.
  vm_compute. reflexivity.
Defined.

Lemma OCR_text_from_pdf_once_witness :
  OCR_text_from_pdf (PyInt 1) ∅ any_credential any_client naming_service
    Closed (Some tt) (Some "2001-4000")
  = Raise ValueError.
Proof.
  apply (OCR_text_from_pdf_once (PyInt 1) ∅ any_credential any_client
           naming_service Open None (Some "1-2000")
           ("window 1-2000" +:+ NL) Closed (Some tt) (Some "2001-4000")).
  vm_compute. reflexivity.
Defined.

(** ** [parse_into_json]: what [json.loads] is given *)

(** The backtick, and the strings without any. *)
Definition BACKTICK : ascii := ascii_of_nat 96.

Definition no_backtick (s : string) : Prop :=
  Str.contains (String BACKTICK EmptyString) s = false.

(** The first piece of a split is the text up to its end or to the
    separator. *)
Lemma split_scan_first (sep s : string) :
  exists rest, s = (Str.split_scan sep 0 s).1 +:+ rest.
Proof.
  induction s as [|c s [rest IH]]; [by exists ""|].
  cbn [Str.split_scan]. destruct (String.prefix sep (String c s)).
  - destruct (Str.split_scan sep (String.length sep - 1) s).
    by exists (String c s).
  - destruct (Str.split_scan sep 0 s) as [p ps]. exists rest.
    simpl in *. by rewrite <- IH.
Qed.

Lemma split_scan_first_free (sep s : string) :
  sep <> "" -> Str.contains sep (Str.split_scan sep 0 s).1 = false.
Proof.
  intros Hne. induction s as [|c s IH].
  - simpl. by destruct sep.
  - cbn [Str.split_scan]. destruct (String.prefix sep (String c s)) eqn:Hp.
    + destruct (Str.split_scan sep (String.length sep - 1) s).
      simpl. by destruct sep.
    + destruct (split_scan_first sep s) as [rest Hrest].
      destruct (Str.split_scan sep 0 s) as [p ps]. simpl in *.
      rewrite IH, orb_false_r.
      destruct (String.prefix sep (String c p)) eqn:Hp'; [|done].
      apply (prefix_app_l _ _ rest) in Hp'. simpl in Hp'.
      rewrite <- Hrest in Hp'. congruence.
Qed.

Lemma split_first_free (s sep : string) :
  sep <> "" ->
  exists p ps, Str.split s sep = Ok (p :: ps) /\ Str.contains sep p = false.
Proof.
  intros Hne. pose proof (split_scan_first_free sep s Hne) as H.
  unfold Str.split. destruct (Str.split_scan sep 0 s) as [p ps].
  exists p, ps. by destruct sep.
Qed.

Lemma lower_nonempty (s : string) : s <> "" -> Str.lower s <> "".
Proof. by destruct s. Qed.

(** X11: whatever the response, [parse_into_json] with a separator that
    is not empty raises nothing of its own: no index is out of range, and
    its outcome is that of [json.loads] on a text without any fence. *)
Theorem parse_into_json_fence_free {J} (json_loads : string -> py J)
    (llm_response separator : string) :
  separator <> "" ->
  exists json_data,
    parse_into_json json_loads llm_response separator = json_loads json_data
    /\ Str.contains "```" json_data = false.
Proof.
  intros Hsep. unfold parse_into_json.
  destruct (split_first_free llm_response separator Hsep)
    as (p0 & ps0 & -> & _).
  unfold mbind at 1, py_bind at 1.
  set (separator' := if negb (1 <? length (p0 :: ps0))
                     then Str.lower separator else separator).
  assert (separator' <> "") as Hsep'.
  { unfold separator'. destruct (negb _); [by apply lower_nonempty|done]. }
  assert (exists r, (if Str.contains separator' llm_response
                     then parts ← Str.split llm_response separator';
                          if 1 <? length parts then getitem parts 1
                          else Ok llm_response
                     else Ok llm_response) = Ok r) as [r ->].
  { destruct (Str.contains separator' llm_response); [|by eexists].
    destruct (split_first_free llm_response separator' Hsep')
      as (p1 & ps1 & -> & _).
    unfold mbind, py_bind. destruct ps1 as [|p2 ps1]; by eexists. }
  unfold mbind at 1, py_bind at 1.
  destruct (split_first_free r "```") as (d & ps & -> & Hd); [done|].
  exists d. done.
Qed.

Lemma parse_into_json_fence_free_witness :
  exists json_data,
    parse_into_json Json.loads (fenced "JSON" a1) default_separator
    = Json.loads json_data
    /\ Str.contains "```" json_data = false.
Proof.
  apply (parse_into_json_fence_free Json.loads (fenced "JSON" a1)
           default_separator).
  discriminate.
Defined.

(** The marker of a fence: three backticks and a tag. *)
Definition marker (tag : string) : string := "```" +:+ tag.

(** What may follow the body: nothing, or a closing fence and a text
    without backtick. *)
Definition closing (tail : string) : Prop :=
  tail = "" \/ exists post, tail = "```" +:+ post /\ no_backtick post.

Lemma no_backtick_cons (c : ascii) (s : string) :
  no_backtick (String c s) -> BACKTICK <> c /\ no_backtick s.
Proof.
  unfold no_backtick. cbn [Str.contains]. intros [Hp Hs]%orb_false_iff.
  split; [|done]. intros <-. simpl in Hp. by destruct s.
Qed.

Lemma prefix_cons_eq (c : ascii) (sep s : string) :
  String.prefix (String c sep) (String c s) = String.prefix sep s.
Proof. simpl. by destruct (ascii_dec c c). Qed.

Lemma prefix_cons_ne (c d : ascii) (sep s : string) :
  c <> d -> String.prefix (String c sep) (String d s) = false.
Proof. intros Hne. simpl. by destruct (ascii_dec c d). Qed.

Section separator.
Variable sep' : string.
Abbreviation sep := (String BACKTICK sep').

Lemma split_scan_app_absent (a t : string) :
  no_backtick a ->
  Str.split_scan sep 0 (a +:+ t)
  = (a +:+ (Str.split_scan sep 0 t).1, (Str.split_scan sep 0 t).2).
Proof.
  induction a as [|c a IH]; intros Ha.
  - simpl. by destruct (Str.split_scan sep 0 t).
  - apply no_backtick_cons in Ha as [Hc Ha]. simpl append.
    cbn [Str.split_scan]. rewrite prefix_cons_ne by done.
    rewrite (IH Ha). done.
Qed.

Lemma contains_app_absent (a t : string) :
  no_backtick a -> Str.contains sep (a +:+ t) = Str.contains sep t.
Proof.
  induction a as [|c a IH]; intros Ha; [done|].
  apply no_backtick_cons in Ha as [Hc Ha]. simpl append.
  cbn [Str.contains]. rewrite prefix_cons_ne by done. by apply IH.
Qed.

Lemma split_scan_skip (x rest : string) :
  Str.split_scan sep (String.length x) (x +:+ rest)
  = Str.split_scan sep 0 rest.
Proof. induction x as [|c x IH]; [done|]. simpl. apply IH. Qed.

Lemma split_scan_match (rest : string) :
  Str.split_scan sep 0 (sep +:+ rest)
  = ("", (Str.split_scan sep 0 rest).1 :: (Str.split_scan sep 0 rest).2).
Proof.
  change (sep +:+ rest) with (String BACKTICK (sep' +:+ rest)).
  cbn [Str.split_scan].
  rewrite (prefix_app_l sep sep rest (prefix_refl sep)
           : String.prefix sep (String BACKTICK (sep' +:+ rest)) = true).
  cbn [String.length]. rewrite Nat.sub_succ, Nat.sub_0_r, split_scan_skip.
  by destruct (Str.split_scan sep 0 rest).
Qed.

Lemma contains_match (a rest : string) :
  Str.contains sep (a +:+ sep +:+ rest) = true.
Proof. apply contains_app_r, contains_app_l, contains_refl. Qed.

End separator.

Lemma no_backtick_fence_free (s : string) :
  no_backtick s -> Str.contains "```" s = false.
Proof. apply (contains_app (String BACKTICK "") "``"). Qed.

Lemma no_backtick_marker_free (tag s : string) :
  no_backtick s -> Str.contains (marker tag) s = false.
Proof. apply (contains_app (String BACKTICK "") ("``" +:+ tag)). Qed.

(** In what may follow the body, a marker can only be at the start. *)
Lemma closing_contains (tag tail : string) :
  closing tail ->
  Str.contains (marker tag) tail = String.prefix (marker tag) tail.
Proof.
  intros [->|(post & -> & Hpost)]; [done|].
  unfold marker. simpl append. cbn [Str.contains].
  rewrite (no_backtick_marker_free tag post Hpost : Str.contains
             (String "`" (String "`" (String "`" tag))) post = false).
  destruct post as [|c post]; [by rewrite !orb_false_r|].
  apply no_backtick_cons in Hpost as [Hc _].
  assert (String.prefix (String "`" (String "`" (String "`" tag)))
            (String "`" (String "`" (String c post))) = false) as ->.
  { rewrite !prefix_cons_eq. by apply (prefix_cons_ne BACKTICK). }
  assert (String.prefix (String "`" (String "`" (String "`" tag)))
            (String "`" (String c post)) = false) as ->.
  { rewrite prefix_cons_eq. by apply (prefix_cons_ne BACKTICK). }
  by rewrite !orb_false_r.
Qed.

Lemma closing_split_first (tag tail : string) :
  closing tail ->
  (Str.split_scan (marker tag) 0 tail).1 = ""
  \/ (Str.split_scan (marker tag) 0 tail).1 = tail.
Proof.
  intros Htail. pose proof (closing_contains tag tail Htail) as Hc.
  destruct (String.prefix (marker tag) tail) eqn:Hp.
  - left. destruct tail as [|c tail]; [done|].
    cbn [Str.split_scan]. rewrite Hp.
    by destruct (Str.split_scan (marker tag) _ tail).
  - right. by rewrite split_scan_absent.
Qed.

(** The split of a fenced response at the marker of its fence. *)
Lemma fenced_split (tag pre body tail : string) :
  no_backtick pre -> no_backtick body -> closing tail ->
  exists p2 ps,
    Str.split (pre +:+ marker tag +:+ body +:+ tail) (marker tag)
    = Ok (pre :: p2 :: ps)
    /\ (p2 = body \/ p2 = body +:+ tail).
Proof.
  intros Hpre Hbody Htail. unfold Str.split, marker. simpl ("```" +:+ tag).
  rewrite (split_scan_app_absent _ pre _ Hpre).
  rewrite (split_scan_match _ (body +:+ tail)).
  rewrite (split_scan_app_absent _ body _ Hbody). cbn [fst snd].
  rewrite str_app_nil_r. eexists _, _. split; [done|].
  destruct (closing_split_first tag tail Htail) as [H|H].
  - left.
    rewrite (H : (Str.split_scan
                    (String BACKTICK (String "`" (String "`" tag))) 0 tail).1
                 = _).
    apply str_app_nil_r.
  - right.
    by rewrite (H : (Str.split_scan
                       (String BACKTICK (String "`" (String "`" tag))) 0
                       tail).1 = _).
Qed.

Lemma fenced_first (body tail p2 : string) :
  no_backtick body -> closing tail ->
  p2 = body \/ p2 = body +:+ tail ->
  exists ps, Str.split p2 "```" = Ok (body :: ps).
Proof.
  intros Hbody Htail Hp2.
  assert (Str.split body "```" = Ok [body]) as Hb.
  { apply split_absent; [done|]. by apply no_backtick_fence_free. }
  destruct Hp2 as [->| ->]; [by eexists|].
  destruct Htail as [->|(post & -> & Hpost)].
  - rewrite str_app_nil_r. by eexists.
  - unfold Str.split.
    rewrite (split_scan_app_absent "``" body _ Hbody).
    rewrite (split_scan_match "``" post
             : Str.split_scan (String BACKTICK "``") 0 ("```" +:+ post) = _).
    cbn [fst snd]. rewrite str_app_nil_r. by eexists.
Qed.

Section fenced.
Context {J : Type} (json_loads : string -> py J).

(** After the marker has been chosen: the body is what is parsed. *)
Lemma parse_at_marker (tag pre body tail : string) :
  no_backtick pre -> no_backtick body -> closing tail ->
  (llm_response ←
     (if Str.contains (marker tag) (pre +:+ marker tag +:+ body +:+ tail)
      then parts ← Str.split (pre +:+ marker tag +:+ body +:+ tail)
                             (marker tag);
           if 1 <? length parts then getitem parts 1
           else Ok (pre +:+ marker tag +:+ body +:+ tail)
      else Ok (pre +:+ marker tag +:+ body +:+ tail));
   parts ← Str.split llm_response "```";
   json_data ← getitem parts 0;
   json_loads json_data)
  = json_loads body.
Proof.
  intros Hpre Hbody Htail.
  destruct (fenced_split tag pre body tail Hpre Hbody Htail)
    as (p2 & ps & Hsplit & Hp2).
  destruct (fenced_first body tail p2 Hbody Htail Hp2) as (ps' & Hfirst).
  assert (Str.contains (marker tag) (pre +:+ marker tag +:+ body +:+ tail)
          = true) as ->
    by apply contains_app_r, contains_app_l, contains_refl.
  rewrite Hsplit. unfold mbind, py_bind. simpl (1 <? _). cbv iota.
  change (getitem (pre :: p2 :: ps) 1) with (Ok p2 : py string).
  change (1 <? S (S (length ps))) with true. cbv beta iota.
  rewrite Hfirst. done.
Qed.

End fenced.

(** X12: a response made of a text, the fence of [```JSON], a body, and
    then nothing or a closing fence and a text, none of these texts with a
    backtick, is parsed as its body: what is before the fence and after
    the closing fence is dropped, and a fence that is not closed is
    accepted. *)
Theorem parse_into_json_upper {J} (json_loads : string -> py J)
    (pre body tail : string) :
  no_backtick pre -> no_backtick body -> closing tail ->
  parse_into_json json_loads (pre +:+ "```JSON" +:+ body +:+ tail)
                  default_separator
  = json_loads body.
Proof.
  intros Hpre Hbody Htail. unfold parse_into_json, default_separator.
  destruct (fenced_split "JSON" pre body tail Hpre Hbody Htail)
    as (p2 & ps & Hsplit & _).
  change (marker "JSON") with "```JSON" in Hsplit.
  rewrite Hsplit at 1. unfold mbind at 1, py_bind at 1.
  simpl (negb _). cbv iota.
  by apply (parse_at_marker json_loads "JSON").
Qed.

Lemma parse_into_json_upper_witness :
  parse_into_json Json.loads
    ("Here is the data: " +:+ "```JSON" +:+ a1 +:+ "```" +:+ " Anything else?")
    default_separator
  = Ok (JDict [("a", JInt 1)]).
Proof.
  apply (parse_into_json_upper Json.loads "Here is the data: " a1
           ("```" +:+ " Anything else?")).
  - reflexivity.
  - reflexivity.
  - right. exists " Anything else?". split; reflexivity.
Defined.

Lemma contains_upper_lower (rest : string) :
  Str.contains "```JSON" ("```json" +:+ rest) = Str.contains "```JSON" rest.
Proof. reflexivity. Qed.

(** X13: the same response with the fence in lower case, [```json], is
    parsed as its body as well, when what follows the body does not start
    with the fence in upper case. *)
Theorem parse_into_json_lower {J} (json_loads : string -> py J)
    (pre body tail : string) :
  no_backtick pre -> no_backtick body -> closing tail ->
  String.prefix "```JSON" tail = false ->
  parse_into_json json_loads (pre +:+ "```json" +:+ body +:+ tail)
                  default_separator
  = json_loads body.
Proof.
  intros Hpre Hbody Htail Hupper. unfold parse_into_json, default_separator.
  assert (Str.contains "```JSON" (pre +:+ "```json" +:+ body +:+ tail)
          = false) as Hno.
  { rewrite (contains_app_absent "``JSON" pre _ Hpre
             : Str.contains "```JSON" (pre +:+ "```json" +:+ body +:+ tail)
               = Str.contains "```JSON" ("```json" +:+ body +:+ tail)).
    rewrite contains_upper_lower.
    rewrite (contains_app_absent "``JSON" body _ Hbody
             : Str.contains "```JSON" (body +:+ tail)
               = Str.contains "```JSON" tail).
    by rewrite (closing_contains "JSON" tail Htail
                : Str.contains "```JSON" tail = String.prefix "```JSON" tail). }
  rewrite (split_absent "```JSON" _ ltac:(done) Hno) at 1.
  unfold mbind at 1, py_bind at 1. simpl (negb _). cbv iota.
  by apply (parse_at_marker json_loads "json").
Qed.

Lemma parse_into_json_lower_witness :
  parse_into_json Json.loads
    ("Here is the data: " +:+ "```json" +:+ a1 +:+ "```" +:+ " Anything else?")
    default_separator
  = Ok (JDict [("a", JInt 1)]).
Proof.
  apply (parse_into_json_lower Json.loads "Here is the data: " a1
           ("```" +:+ " Anything else?")).
  - reflexivity.
  - reflexivity.
  - right. exists " Anything else?". split; reflexivity.
  - reflexivity.
Defined.

(** ** [PDF_Reader]: the verdict on the file, and the text *)

Lemma search_alnum_app (a b : string) :
  search_alnum (a +:+ b) = search_alnum a || search_alnum b.
Proof.
  induction a as [|c a IH]; [done|]. simpl. by rewrite IH, orb_assoc.
Qed.

Lemma search_alnum_join (sep text : string) (texts : list string) :
  text ∈ texts -> search_alnum text = true ->
  search_alnum (Str.join sep texts) = true.
Proof.
  intros Hin Htext. induction texts as [|x texts IH]; [by inversion Hin|].
  assert (search_alnum (x +:+ sep +:+ Str.join sep texts) = true) as Hcons.
  { rewrite !search_alnum_app. apply elem_of_cons in Hin as [Heq|Hin].
    - subst x. by rewrite Htext.
    - rewrite (IH Hin). by rewrite !orb_true_r. }
  destruct texts as [|y texts]; [|exact Hcons].
  apply elem_of_cons in Hin as [Heq|Hin]; [by subst x|by inversion Hin].
Qed.

Lemma collect_Returns {E A} (l : list A) :
  collect (E := E) (Returns <$> l) = Returns l.
Proof.
  induction l as [|a l IH]; [done|].
  rewrite fmap_cons. cbn [collect]. by rewrite IH.
Qed.

Lemma collect_Raises {E A} (l : list A) (e : E) rest :
  collect ((Returns <$> l) ++ Raises e :: rest) = Raises e.
Proof.
  induction l as [|a l IH]; [done|].
  rewrite fmap_cons, <- app_comm_cons. cbn [collect]. by rewrite IH.
Qed.

Section PDF_Reader_facts.
Context {E Image : Type}.
Variable convert_from_path : outcome E (list Image).
Variable image_to_string : Image -> outcome E string.

(** A page that leaves the verdict to the next page: it has a text, and
    no letter or digit in it. *)
Definition undecided (page : outcome E string) : Prop :=
  exists text, page = Returns text /\ text <> "" /\ search_alnum text = false.

Lemma is_digital_loop_undecided (before pages : list (outcome E string)) :
  Forall undecided before ->
  PDF_Reader.is_digital_loop (before ++ pages)
  = PDF_Reader.is_digital_loop pages.
Proof.
  induction 1 as [|page before (text & -> & Hne & Hno) _ IH]; [done|].
  simpl. rewrite Hno, IH. by destruct text.
Qed.

Lemma is_digital_loop_Some (pages : list (outcome E string)) (b : bool) :
  PDF_Reader.is_digital_loop pages = Some b ->
  exists before text after,
    pages = before ++ Returns text :: after
    /\ Forall undecided before
    /\ (if b then search_alnum text = true else text = "").
Proof.
  induction pages as [|page pages IH]; [done|]. simpl.
  destruct page as [text|e]; [|done].
  destruct text as [|c text].
  { intros [= <-]. by exists [], "", pages. }
  destruct (search_alnum (String c text)) eqn:Hs.
  { intros [= <-]. by exists [], (String c text), pages. }
  intros (before & text' & after & -> & Hbefore & Hb)%IH.
  exists (Returns (String c text) :: before), text', after.
  split; [done|]. split; [|done].
  constructor; [|done]. by exists (String c text).
Qed.

End PDF_Reader_facts.

(** What ends the loop of [is_digital_pdf] without [return True]: no page
    is left, a page has no text, or a page cannot be read. *)
Inductive not_digital {E} : list (outcome E string) -> Prop :=
| no_page_left : not_digital []
| page_without_text rest : not_digital (Returns "" :: rest)
| page_unreadable e rest : not_digital (Raises e :: rest).

(** X14: [is_digital_pdf] gives [True] or [False] on account of the first
    page that is not a text without letter and digit: [True] when this
    page has a letter or a digit, [False] when it has no text at all; the
    pages after it are not looked at. *)
Theorem is_digital_pdf_verdict {E} (file : pdf E) (b : bool) :
  PDF_Reader.is_digital_pdf file = Some b <->
  exists before text after,
    file = Returns (before ++ Returns text :: after)
    /\ Forall undecided before
    /\ (if b then search_alnum text = true else text = "").
Proof.
  split.
  - destruct file as [pages|e]; [|done]. simpl.
    intros (before & text & after & -> & H)%is_digital_loop_Some.
    by exists before, text, after.
  - intros (before & text & after & -> & Hbefore & Hb). simpl.
    rewrite is_digital_loop_undecided by done. simpl.
    destruct b; [|by subst text].
    rewrite Hb. by destruct text.
Qed.

Lemma undecided_texts {E} (before : list string) :
  Forall (fun text => text <> "" /\ search_alnum text = false) before ->
  Forall (undecided (E := E)) (Returns <$> before).
Proof.
  induction 1 as [|text before [Hne Hno] _ IH]; constructor; [|done].
  by exists text.
Qed.

Lemma is_digital_pdf_True {E} (before : list string) (text : string)
    (after : list (outcome E string)) :
  Forall (fun text => text <> "" /\ search_alnum text = false) before ->
  search_alnum text = true ->
  PDF_Reader.is_digital_pdf
    (Returns ((Returns <$> before) ++ Returns text :: after)) = Some true.
Proof.
  intros Hbefore Htext. simpl.
  rewrite is_digital_loop_undecided by by apply undecided_texts.
  simpl. rewrite Htext. by destruct text.
Qed.

(** X15: a file of which all pages can be read, and of which the first
    page with a letter or a digit comes after pages with a text only, is
    read without OCR: the text is the texts of the pages, joined by
    newlines, and it has a letter or a digit. *)
Theorem extract_text_from_pdf_digital {E Image}
    (convert_from_path : outcome E (list Image))
    (image_to_string : Image -> outcome E string)
    (before : list string) (text : string) (after : list string) :
  Forall (fun text => text <> "" /\ search_alnum text = false) before ->
  search_alnum text = true ->
  PDF_Reader.extract_text_from_pdf convert_from_path image_to_string
    (Returns (Returns <$> before ++ text :: after))
  = Returns (Str.join NL (before ++ text :: after))
  /\ search_alnum (Str.join NL (before ++ text :: after)) = true.
Proof.
  intros Hbefore Htext. split.
  - unfold PDF_Reader.extract_text_from_pdf.
    rewrite fmap_app, fmap_cons, is_digital_pdf_True by done.
    rewrite <- (fmap_cons Returns), <- fmap_app.
    unfold PDF_Reader.read_digital_pdf, mbind, outcome_bind.
    by rewrite collect_Returns.
  - apply (search_alnum_join _ text); [|done].
    apply elem_of_app. right. apply elem_of_cons. by left.
Qed.

Lemma extract_text_from_pdf_digital_witness :
  PDF_Reader.extract_text_from_pdf (E := exn) (Returns ["scan"]) Returns
    (Returns (Returns <$> ["--"] ++ "Curriculum vitae" :: ["References"]))
  = Returns (Str.join NL (["--"] ++ "Curriculum vitae" :: ["References"]))
  /\ search_alnum
       (Str.join NL (["--"] ++ "Curriculum vitae" :: ["References"])) = true.
Proof.
  apply (extract_text_from_pdf_digital (E := exn) (Returns ["scan"]) Returns
           ["--"] "Curriculum vitae" ["References"]).
  - repeat constructor; done.
  - reflexivity.
Defined.

(** X16: the exceptions of [read_digital_pdf] are not caught: when the
    verdict is [True] and a page after the page of the verdict cannot be
    read, [extract_text_from_pdf] raises the exception of this page, and
    does not turn to OCR. *)
Theorem extract_text_from_pdf_raises {E Image}
    (convert_from_path : outcome E (list Image))
    (image_to_string : Image -> outcome E string)
    (before : list string) (text : string) (between : list string)
    (e : E) (rest : list (outcome E string)) :
  Forall (fun text => text <> "" /\ search_alnum text = false) before ->
  search_alnum text = true ->
  PDF_Reader.extract_text_from_pdf convert_from_path image_to_string
    (Returns ((Returns <$> before ++ text :: between) ++ Raises e :: rest))
  = Raises e.
Proof.
  intros Hbefore Htext. unfold PDF_Reader.extract_text_from_pdf.
  assert (PDF_Reader.is_digital_pdf
            (Returns ((Returns <$> before ++ text :: between)
                      ++ Raises e :: rest)) = Some true) as ->.
  { rewrite fmap_app, fmap_cons, <- app_assoc, <- app_comm_cons.
    by apply is_digital_pdf_True. }
  unfold PDF_Reader.read_digital_pdf, mbind, outcome_bind.
  by rewrite collect_Raises.
Qed.

Lemma extract_text_from_pdf_raises_witness :
  PDF_Reader.extract_text_from_pdf (Returns ["scan"]) Returns
    (Returns ((Returns <$> ["--"] ++ "Curriculum vitae" :: ["References"])
              ++ Raises ValueError :: []))
  = Raises ValueError.
Proof.
  apply (extract_text_from_pdf_raises (Returns ["scan"]) Returns
           ["--"] "Curriculum vitae" ["References"] ValueError []).
  - repeat constructor; done.
  - reflexivity.
Defined.

(** X17: OCR is what gives the text in all other cases: when the file
    cannot be opened, and when the pages with a text and without letter
    and digit are followed by no page, by a page without text, or by a
    page that cannot be read, whatever the pages after it.  The exception
    of the file or of the page is lost. *)
Theorem extract_text_from_pdf_ocr {E Image}
    (convert_from_path : outcome E (list Image))
    (image_to_string : Image -> outcome E string) (file : pdf E) :
  ((exists e, file = Raises e)
   \/ exists before stop,
        file = Returns (before ++ stop)
        /\ Forall undecided before /\ not_digital stop) ->
  PDF_Reader.extract_text_from_pdf convert_from_path image_to_string file
  = PDF_Reader.ocr convert_from_path image_to_string.
Proof.
  intros [(e & ->)|(before & stop & -> & Hbefore & Hstop)]; [done|].
  unfold PDF_Reader.extract_text_from_pdf. simpl.
  rewrite is_digital_loop_undecided by done.
  by destruct Hstop.
Qed.

Lemma extract_text_from_pdf_ocr_witness :
  PDF_Reader.extract_text_from_pdf (E := exn) (Returns ["scan"]) Returns
    (Returns ([Returns "--"] ++ Returns "" :: [Returns "Curriculum vitae"]))
  = PDF_Reader.ocr (Returns ["scan"]) Returns.
Proof.
  apply (extract_text_from_pdf_ocr (E := exn) (Returns ["scan"]) Returns).
  right. exists [Returns "--"], (Returns "" :: [Returns "Curriculum vitae"]).
  split; [reflexivity|]. split; [|constructor].
  repeat constructor. by exists "--".
Defined.

(** ** [check_malicious_keywords_in_query]: what is flagged, and what is
    not *)

(** The characters with which a keyword of [dangerous_modules] begins. *)
Definition opens_keyword (c : ascii) : bool :=
  existsb (fun module => match module with
                         | String d _ => Ascii.eqb d c
                         | EmptyString => true
                         end) dangerous_modules.

(** No character of [s] begins a keyword. *)
Fixpoint no_opening (s : string) : bool :=
  match s with
  | EmptyString => true
  | String c s' => negb (opens_keyword c) && no_opening s'
  end.

Lemma prefix_first (module : string) (c : ascii) (s : string) :
  match module with
  | String d _ => Ascii.eqb d c
  | EmptyString => true
  end = false ->
  String.prefix module (String c s) = false.
Proof.
  destruct module as [|d module]; [done|]. simpl.
  destruct (ascii_dec d c) as [->|Hne]; [|done].
  by rewrite Ascii.eqb_refl.
Qed.

Lemma contains_any_skip (modules : list string) (c : ascii) (s : string) :
  existsb (fun module => match module with
                         | String d _ => Ascii.eqb d c
                         | EmptyString => true
                         end) modules = false ->
  existsb (fun module => Str.contains module (String c s)) modules
  = existsb (fun module => Str.contains module s) modules.
Proof.
  induction modules as [|module modules IH]; [done|].
  cbn [existsb]. intros [Hm Hms]%orb_false_iff. rewrite (IH Hms).
  change (Str.contains module (String c s))
    with (String.prefix module (String c s) || Str.contains module s).
  by rewrite (prefix_first _ _ _ Hm).
Qed.

(** X18: text around a flagged query does not hide it: a query that
    contains a flagged text is flagged. *)
Theorem check_malicious_surrounded (before query after : string) :
  check_malicious_keywords_in_query query = true ->
  check_malicious_keywords_in_query (before +:+ query +:+ after) = true.
Proof.
  unfold check_malicious_keywords_in_query. rewrite !existsb_exists.
  intros (module & Hin & Hc). exists module. split; [done|].
  by apply contains_app_r, contains_app_l.
Qed.

Lemma check_malicious_surrounded_witness :
  check_malicious_keywords_in_query
    ("x = 1; " +:+ "import os" +:+ "; y = 2") = true.
Proof.
  apply (check_malicious_surrounded "x = 1; " "import os" "; y = 2").
  reflexivity.
Defined.

(** X19: a query is not flagged for how it begins, as long as it begins
    with characters other than those that open a keyword (the space, [.],
    the two quotes, [(], [b] and [c]): a query that begins with [os] or
    [io] is flagged if and only if what follows is. *)
Theorem check_malicious_front (front rest : string) :
  no_opening front = true ->
  check_malicious_keywords_in_query (front +:+ rest)
  = check_malicious_keywords_in_query rest.
Proof.
  induction front as [|c front IH]; [done|]. cbn [no_opening].
  intros [Hc Hfront]%andb_true_iff. apply negb_true_iff in Hc.
  rewrite <- (IH Hfront). simpl append.
  by apply contains_any_skip.
Qed.

Lemma check_malicious_front_witness :
  check_malicious_keywords_in_query ("os" +:+ ".system('ls')") = false.
Proof.
  rewrite (check_malicious_front "os" ".system('ls')"); reflexivity.
Defined.

(** ** [AzureOpenAI]: the checks of [__init__], and the request *)

Lemma dict_get_set_eq (d : dict) key v :
  dict_get (dict_set d key v) key = Some v.
Proof.
  induction d as [|[k v'] d IH]; simpl.
  - by rewrite String.eqb_refl.
  - destruct (String.eqb k key) eqn:Hk; simpl; rewrite Hk; [done|apply IH].
Qed.

Lemma dict_get_set_ne (d : dict) key key' v :
  key <> key' -> dict_get (dict_set d key v) key' = dict_get d key'.
Proof.
  intros Hne. induction d as [|[k v'] d IH]; simpl.
  - by apply String.eqb_neq in Hne as ->.
  - destruct (String.eqb k key) eqn:Hk; simpl; [|by rewrite IH].
    apply String.eqb_eq in Hk as ->. by apply String.eqb_neq in Hne as ->.
Qed.

Lemma set_params_cons (self : dict) key value (kwargs : dict) :
  BaseOpenAI._set_params self ((key, value) :: kwargs)
  = BaseOpenAI._set_params
      (if bool_decide (key ∈ valid_params) then dict_set self key value
       else self) kwargs.
Proof. done. Qed.

(** [_set_params] leaves the attributes that are not in [valid_params]. *)
Lemma set_params_other (self kwargs : dict) (name : string) :
  name ∉ valid_params ->
  dict_get (BaseOpenAI._set_params self kwargs) name = dict_get self name.
Proof.
  intros Hname. revert self.
  induction kwargs as [|[key value] kwargs IH]; intros self; [done|].
  rewrite set_params_cons, IH. case_bool_decide as Hkey; [|done].
  apply dict_get_set_ne. by intros ->.
Qed.

Lemma set_params_present (self kwargs : dict) (name : string) :
  is_Some (dict_get self name) ->
  is_Some (dict_get (BaseOpenAI._set_params self kwargs) name).
Proof.
  revert self. induction kwargs as [|[key value] kwargs IH]; intros self Hs;
    [done|].
  rewrite set_params_cons. apply IH. case_bool_decide as Hkey; [|done].
  destruct (decide (key = name)) as [->|Hne].
  - by rewrite dict_get_set_eq.
  - by rewrite dict_get_set_ne.
Qed.

(** [_set_params] reads the keyword arguments of [valid_params] only. *)
Lemma set_params_filter (keys : list string) (self kwargs : dict) :
  (forall key, key ∈ valid_params -> key ∈ keys) ->
  BaseOpenAI._set_params self (filter (fun item => item.1 ∈ keys) kwargs)
  = BaseOpenAI._set_params self kwargs.
Proof.
  intros Hkeep. revert self.
  induction kwargs as [|[key value] kwargs IH]; intros self; [done|].
  rewrite filter_cons. cbn [fst].
  destruct (decide (key ∈ keys)) as [Hk|Hk].
  - by rewrite !set_params_cons, IH.
  - rewrite set_params_cons, IH. case_bool_decide as Hkey; [|done].
    destruct (Hk (Hkeep key Hkey)).
Qed.

Lemma dict_get_filter (keys : list string) (d : dict) (key : string) :
  key ∈ keys ->
  dict_get (filter (fun item => item.1 ∈ keys) d) key = dict_get d key.
Proof.
  intros Hkey. induction d as [|[k v] d IH]; [done|].
  rewrite filter_cons. cbn [fst dict_get].
  destruct (String.eqb k key) eqn:Hk.
  - apply String.eqb_eq in Hk as ->. rewrite decide_True by done.
    simpl. by rewrite String.eqb_refl.
  - destruct (decide (k ∈ keys)); [|done]. simpl. by rewrite Hk.
Qed.

Lemma set_params_absent (self kwargs : dict) (name : string) :
  dict_get kwargs name = None ->
  dict_get (BaseOpenAI._set_params self kwargs) name = dict_get self name.
Proof.
  revert self. induction kwargs as [|[key value] kwargs IH]; intros self;
    [done|].
  cbn [dict_get]. destruct (String.eqb key name) eqn:Hk; [done|].
  intros Hname. rewrite set_params_cons, (IH _ Hname).
  case_bool_decide; [|done]. apply dict_get_set_ne.
  by apply String.eqb_neq.
Qed.

Lemma getattr_instance {E} (self : dict) (name : string) v :
  dict_get self name = Some v -> getattr (E := E) self name = Returns v.
Proof. unfold getattr. by intros ->. Qed.

Lemma getattr_class {E} (self : dict) (name : string) c :
  dict_get class_attributes name = Some c ->
  exists v, getattr (E := E) self name = Returns v
            /\ (dict_get self name = None -> v = c).
Proof.
  intros Hc. unfold getattr. destruct (dict_get self name) as [v|].
  - by exists v.
  - rewrite Hc. by exists c.
Qed.

Lemma is_None_or (x y : pyobject) :
  is_None (or_ x y) = true <-> truthy x = false /\ is_None y = true.
Proof.
  unfold or_. destruct (truthy x) eqn:Hx.
  - split; [|by intros [? _]]. by destruct x.
  - split; [by intros ?|by intros [_ ?]].
Qed.

Lemma truthy_or (x y : pyobject) : truthy (or_ x y) = truthy x || truthy y.
Proof. unfold or_. by destruct (truthy x) eqn:Hx. Qed.

Lemma is_None_getenv (environ : gmap string string) (key : string) :
  is_None (getenv environ key) = true <-> environ !! key = None.
Proof. unfold getenv. by destruct (environ !! key). Qed.

Lemma truthy_getenv (environ : gmap string string) (key : string) :
  truthy (getenv environ key) = false
  <-> environ !! key = None \/ environ !! key = Some "".
Proof.
  unfold getenv. destruct (environ !! key) as [[|c s]|]; simpl.
  - split; [by right|done].
  - split; [done|by intros [?|?]].
  - split; [by left|done].
Qed.

Section AzureOpenAI_facts.
Context {E SDK : Type}.
Variable environ : gmap string string.
Variable is_openai_v1 : bool.
Variable openai_AzureOpenAI : dict -> outcome E SDK.
Variable create : AzureOpenAI.client SDK -> dict -> outcome E (list pyobject).

(** The attributes that [__init__] has set when it calls [_set_params]. *)
Definition initial_attributes
    (api_token azure_endpoint azure_ad_token azure_ad_token_provider
       api_base api_version deployment_name is_chat_model : pyobject)
    (kwargs : dict) : dict :=
  [ ("api_token",
     or_ (or_ api_token (getenv environ "AZURE_OPENAI_API_KEY"))
         (getenv environ "OPENAI_API_KEY"));
    ("azure_endpoint",
     or_ azure_endpoint (getenv environ "AZURE_OPENAI_ENDPOINT"));
    ("api_base", or_ api_base (getenv environ "OPENAI_API_BASE"));
    ("api_version", or_ api_version (getenv environ "OPENAI_API_VERSION"));
    ("azure_ad_token",
     or_ azure_ad_token (getenv environ "AZURE_OPENAI_AD_TOKEN"));
    ("azure_ad_token_provider", azure_ad_token_provider);
    ("_is_chat_model", is_chat_model);
    ("deployment_name", deployment_name);
    ("openai_proxy",
     or_ (default VNone (dict_get kwargs "openai_proxy"))
         (getenv environ "OPENAI_PROXY")) ].

(** The end of [__init__]: the client. *)
Definition set_client (self : dict) : outcome (error E) (AzureOpenAI.t SDK) :=
  chat ← getattr self "_is_chat_model";
  if truthy chat
  then
    if is_openai_v1
    then client_params ← AzureOpenAI._client_params self;
         sdk ← external (openai_AzureOpenAI client_params);
         Returns {| AzureOpenAI.attributes := self;
                    AzureOpenAI.self_client := AzureOpenAI.chat_completions sdk |}
    else Returns {| AzureOpenAI.attributes := self;
                    AzureOpenAI.self_client := AzureOpenAI.ChatCompletion |}
  else
    if is_openai_v1
    then client_params ← AzureOpenAI._client_params self;
         sdk ← external (openai_AzureOpenAI client_params);
         Returns {| AzureOpenAI.attributes := self;
                    AzureOpenAI.self_client := AzureOpenAI.completions sdk |}
    else Returns {| AzureOpenAI.attributes := self;
                    AzureOpenAI.self_client := AzureOpenAI.Completion |}.

Lemma init_steps api_token azure_endpoint azure_ad_token
    azure_ad_token_provider api_base api_version deployment_name
    is_chat_model kwargs :
  AzureOpenAI.__init__ environ is_openai_v1 openai_AzureOpenAI
    api_token azure_endpoint azure_ad_token azure_ad_token_provider
    api_base api_version deployment_name is_chat_model kwargs
  = (_ ← raise_if
           (is_None (or_ (or_ api_token
                              (getenv environ "AZURE_OPENAI_API_KEY"))
                         (getenv environ "OPENAI_API_KEY")))
           (APIKeyNotFoundError AzureOpenAI.key_required);
     _ ← (if is_openai_v1
          then raise_if
                 (is_None (or_ azure_endpoint
                               (getenv environ "AZURE_OPENAI_ENDPOINT")))
                 (APIKeyNotFoundError AzureOpenAI.endpoint_required)
          else raise_if
                 (is_None (or_ api_base (getenv environ "OPENAI_API_BASE")))
                 (APIKeyNotFoundError AzureOpenAI.base_required));
     _ ← raise_if
           (is_None (or_ api_version (getenv environ "OPENAI_API_VERSION")))
           (APIKeyNotFoundError AzureOpenAI.version_required);
     _ ← raise_if (is_None deployment_name) (NameError "MissingModelError");
     set_client
       (BaseOpenAI._set_params
          (initial_attributes api_token azure_endpoint azure_ad_token
             azure_ad_token_provider api_base api_version deployment_name
             is_chat_model kwargs) kwargs)).
Proof. reflexivity. Qed.


Lemma client_params_Returns (self : dict) :
  is_Some (dict_get self "api_token") ->
  is_Some (dict_get self "deployment_name") ->
  exists params, AzureOpenAI._client_params (E := E) self = Returns params.
Proof.
  intros [token Htoken] [deployment Hdeployment].
  unfold AzureOpenAI._client_params, BaseOpenAI._client_params.
  rewrite (getattr_instance self "api_token" token Htoken).
  rewrite (getattr_instance self "deployment_name" deployment Hdeployment).
  destruct (getattr_class (E := E) self "api_version" _ eq_refl)
    as (? & -> & _).
  destruct (getattr_class (E := E) self "azure_endpoint" _ eq_refl)
    as (? & -> & _).
  destruct (getattr_class (E := E) self "azure_ad_token" _ eq_refl)
    as (? & -> & _).
  destruct (getattr_class (E := E) self "azure_ad_token_provider" _ eq_refl)
    as (? & -> & _).
  destruct (getattr_class (E := E) self "api_base" _ eq_refl)
    as (? & -> & _).
  destruct (getattr_class (E := E) self "request_timeout" _ eq_refl)
    as (? & -> & _).
  destruct (getattr_class (E := E) self "max_retries" _ eq_refl)
    as (? & -> & _).
  destruct (getattr_class (E := E) self "default_headers" _ eq_refl)
    as (? & -> & _).
  destruct (getattr_class (E := E) self "default_query" _ eq_refl)
    as (? & -> & _).
  destruct (getattr_class (E := E) self "http_client" _ eq_refl)
    as (? & -> & _).
  by eexists.
Qed.

(** The end of [__init__] gives the object with the attributes it has
    set, unless the library raises. *)
Lemma set_client_outcome (self : dict) :
  is_Some (dict_get self "_is_chat_model") ->
  is_Some (dict_get self "api_token") ->
  is_Some (dict_get self "deployment_name") ->
  (exists c, set_client self
             = Returns {| AzureOpenAI.attributes := self;
                          AzureOpenAI.self_client := c |})
  \/ (exists e, set_client self = Raises (External e)).
Proof.
  intros [chat Hchat] Htoken Hdeployment. unfold set_client.
  rewrite (getattr_instance self "_is_chat_model" chat Hchat).
  destruct (client_params_Returns self Htoken Hdeployment) as [params Hp].
  unfold mbind, outcome_bind. rewrite Hp.
  destruct (truthy chat), is_openai_v1; try (left; by eexists);
    (destruct (openai_AzureOpenAI params) as [sdk|e]; simpl;
     [left; by eexists|right; by eexists]).
Qed.

Lemma initial_attributes_present api_token azure_endpoint azure_ad_token
    azure_ad_token_provider api_base api_version deployment_name
    is_chat_model kwargs :
  let self :=
    BaseOpenAI._set_params
      (initial_attributes api_token azure_endpoint azure_ad_token
         azure_ad_token_provider api_base api_version deployment_name
         is_chat_model kwargs) kwargs in
  is_Some (dict_get self "_is_chat_model")
  /\ is_Some (dict_get self "api_token")
  /\ is_Some (dict_get self "deployment_name").
Proof. repeat split; by apply set_params_present. Qed.

(** X20: [__init__] raises the [APIKeyNotFoundError] of the key exactly
    when [api_token] is not given (is [None] or empty), the variable
    [AZURE_OPENAI_API_KEY] is not set or is empty, and [OPENAI_API_KEY] is
    not set: an empty [OPENAI_API_KEY] is taken for a key. *)
Theorem AzureOpenAI_init_key_required api_token azure_endpoint azure_ad_token
    azure_ad_token_provider api_base api_version deployment_name
    is_chat_model kwargs :
  AzureOpenAI.__init__ environ is_openai_v1 openai_AzureOpenAI
    api_token azure_endpoint azure_ad_token azure_ad_token_provider
    api_base api_version deployment_name is_chat_model kwargs
  = Raises (APIKeyNotFoundError AzureOpenAI.key_required)
  <-> truthy api_token = false
      /\ (environ !! "AZURE_OPENAI_API_KEY" = None
          \/ environ !! "AZURE_OPENAI_API_KEY" = Some "")
      /\ environ !! "OPENAI_API_KEY" = None.
Proof.
  rewrite init_steps, <- truthy_getenv, <- is_None_getenv.
  rewrite (and_assoc (truthy api_token = false)), <- orb_false_iff.
  rewrite <- truthy_or, <- is_None_or.
  destruct (is_None (or_ (or_ api_token _) _)); [done|].
  split; [|done]. unfold raise_if at 1, mbind at 1, outcome_bind at 1.
  destruct (initial_attributes_present api_token azure_endpoint
              azure_ad_token azure_ad_token_provider api_base api_version
              deployment_name is_chat_model kwargs) as (H1 & H2 & H3).
  destruct (set_client_outcome _ H1 H2 H3) as [[c ->]|[e ->]];
    destruct is_openai_v1,
      (is_None (or_ azure_endpoint (getenv environ "AZURE_OPENAI_ENDPOINT"))),
      (is_None (or_ api_base (getenv environ "OPENAI_API_BASE"))),
      (is_None (or_ api_version (getenv environ "OPENAI_API_VERSION"))),
      (is_None deployment_name); discriminate.
Qed.

Lemma is_None_truthy (x y : pyobject) :
  truthy x = true -> is_None (or_ x y) = false.
Proof. unfold or_. intros Hx. rewrite Hx. by destruct x. Qed.

(** X21: without [deployment_name] no object is made, and the exception
    is never a [MissingModelError]: it is an [APIKeyNotFoundError] of an
    earlier check, or the [NameError] of the name [MissingModelError], and
    it is this [NameError] when the key, the endpoint (the base, for
    openai before 1.0) and the version are given. *)
Theorem AzureOpenAI_init_no_deployment api_token azure_endpoint
    azure_ad_token azure_ad_token_provider api_base api_version
    is_chat_model kwargs :
  ((exists message,
      AzureOpenAI.__init__ environ is_openai_v1 openai_AzureOpenAI
        api_token azure_endpoint azure_ad_token azure_ad_token_provider
        api_base api_version VNone is_chat_model kwargs
      = Raises (APIKeyNotFoundError message))
   \/ AzureOpenAI.__init__ environ is_openai_v1 openai_AzureOpenAI
        api_token azure_endpoint azure_ad_token azure_ad_token_provider
        api_base api_version VNone is_chat_model kwargs
      = Raises (NameError "MissingModelError"))
  /\ (truthy api_token = true ->
      truthy (if is_openai_v1 then azure_endpoint else api_base) = true ->
      truthy api_version = true ->
      AzureOpenAI.__init__ environ is_openai_v1 openai_AzureOpenAI
        api_token azure_endpoint azure_ad_token azure_ad_token_provider
        api_base api_version VNone is_chat_model kwargs
      = Raises (NameError "MissingModelError")).
Proof.
  rewrite init_steps. split.
  - destruct (is_None (or_ (or_ api_token _) _)); [left; by eexists|].
    destruct is_openai_v1.
    + destruct (is_None (or_ azure_endpoint _)); [left; by eexists|].
      destruct (is_None (or_ api_version _)); [left; by eexists|by right].
    + destruct (is_None (or_ api_base _)); [left; by eexists|].
      destruct (is_None (or_ api_version _)); [left; by eexists|by right].
  - intros Htoken Hpoint Hversion.
    rewrite (is_None_truthy (or_ api_token _)), (is_None_truthy api_version)
      by (by rewrite ?truthy_or, ?Htoken).
    destruct is_openai_v1; by rewrite is_None_truthy.
Qed.

(** X22: of the keyword arguments, [__init__] reads [openai_proxy] and
    those of [valid_params] only: the others ([n], [best_of],
    [request_timeout], ...) change nothing, be the outcome an object or an
    exception. *)
Theorem AzureOpenAI_init_ignores api_token azure_endpoint azure_ad_token
    azure_ad_token_provider api_base api_version deployment_name
    is_chat_model kwargs :
  AzureOpenAI.__init__ environ is_openai_v1 openai_AzureOpenAI
    api_token azure_endpoint azure_ad_token azure_ad_token_provider
    api_base api_version deployment_name is_chat_model kwargs
  = AzureOpenAI.__init__ environ is_openai_v1 openai_AzureOpenAI
      api_token azure_endpoint azure_ad_token azure_ad_token_provider
      api_base api_version deployment_name is_chat_model
      (filter (fun item => item.1 ∈ "openai_proxy" :: valid_params) kwargs).
Proof.
  rewrite !init_steps. unfold initial_attributes.
  rewrite dict_get_filter by (by left).
  rewrite set_params_filter; [done|].
  intros key Hkey. by right.
Qed.

(** What [chat_completion] makes of the response. *)
Definition first_content (choices : list pyobject)
  : outcome (error E) pyobject :=
  match choices with
  | [] => Raises (Builtin IndexError)
  | content :: _ => Returns content
  end.

Lemma init_Returns api_token azure_endpoint azure_ad_token
    azure_ad_token_provider api_base api_version deployment_name
    is_chat_model kwargs self :
  AzureOpenAI.__init__ environ is_openai_v1 openai_AzureOpenAI
    api_token azure_endpoint azure_ad_token azure_ad_token_provider
    api_base api_version deployment_name is_chat_model kwargs
  = Returns self ->
  AzureOpenAI.attributes self
  = BaseOpenAI._set_params
      (initial_attributes api_token azure_endpoint azure_ad_token
         azure_ad_token_provider api_base api_version deployment_name
         is_chat_model kwargs) kwargs.
Proof.
  rewrite init_steps.
  destruct (initial_attributes_present api_token azure_endpoint
              azure_ad_token azure_ad_token_provider api_base api_version
              deployment_name is_chat_model kwargs) as (H1 & H2 & H3).
  destruct (set_client_outcome _ H1 H2 H3) as [[c ->]|[e ->]];
    destruct is_openai_v1,
      (is_None (or_ (or_ api_token (getenv environ "AZURE_OPENAI_API_KEY"))
                    (getenv environ "OPENAI_API_KEY"))),
      (is_None (or_ azure_endpoint (getenv environ "AZURE_OPENAI_ENDPOINT"))),
      (is_None (or_ api_base (getenv environ "OPENAI_API_BASE"))),
      (is_None (or_ api_version (getenv environ "OPENAI_API_VERSION"))),
      (is_None deployment_name); try discriminate; by intros [= <-].
Qed.

(** X23: the request of [chat_completion], for an object that [__init__]
    has made: one message, of the role [user], with the prompt as its
    content; the deployment name as the model, whatever [model] the
    keyword arguments gave; [n] is 1 and there is no [best_of].  The
    answer is the content of the first choice, and an [IndexError] when
    there is no choice. *)
Theorem chat_completion_request api_token azure_endpoint azure_ad_token
    azure_ad_token_provider api_base api_version deployment_name
    is_chat_model kwargs self value :
  AzureOpenAI.__init__ environ is_openai_v1 openai_AzureOpenAI
    api_token azure_endpoint azure_ad_token azure_ad_token_provider
    api_base api_version deployment_name is_chat_model kwargs
  = Returns self ->
  dict_get kwargs "deployment_name" = None ->
  exists params,
    AzureOpenAI.chat_completion is_openai_v1 create self value
    = (choices ← external (create (AzureOpenAI.self_client self) params);
       first_content choices)
    /\ dict_get params "messages"
       = Some (VList [VDict [("role", VStr "user"); ("content", value)]])
    /\ dict_get params (if is_openai_v1 then "model" else "engine")
       = Some deployment_name
    /\ dict_get params "n" = Some (VInt 1)
    /\ dict_get params "best_of" = None.
Proof.
  intros Hself%init_Returns Hkwargs.
  unfold AzureOpenAI.chat_completion. rewrite Hself.
  set (self' := BaseOpenAI._set_params _ kwargs).
  assert (dict_get self' "n" = None) as Hn
    by (unfold self'; by rewrite set_params_other
          by by apply (bool_decide_unpack _)).
  assert (dict_get self' "best_of" = None) as Hbest
    by (unfold self'; by rewrite set_params_other
          by by apply (bool_decide_unpack _)).
  assert (dict_get self' "deployment_name" = Some deployment_name) as Hd
    by (unfold self'; by rewrite set_params_absent).
  assert (is_Some (dict_get self' "api_token")) as [token Htoken]
    by by apply set_params_present.
  unfold AzureOpenAI._invocation_params, BaseOpenAI._invocation_params,
    AzureOpenAI._default_params, BaseOpenAI._default_params.
  rewrite (getattr_instance self' "deployment_name" _ Hd).
  rewrite (getattr_instance self' "api_token" _ Htoken).
  destruct (getattr_class (E := E) self' "n" _ eq_refl) as (n & -> & Hn').
  rewrite (Hn' Hn).
  destruct (getattr_class (E := E) self' "best_of" _ eq_refl)
    as (best_of & -> & Hbest').
  rewrite (Hbest' Hbest).
  destruct (getattr_class (E := E) self' "temperature" _ eq_refl)
    as (? & -> & _).
  destruct (getattr_class (E := E) self' "top_p" _ eq_refl) as (? & -> & _).
  destruct (getattr_class (E := E) self' "frequency_penalty" _ eq_refl)
    as (? & -> & _).
  destruct (getattr_class (E := E) self' "presence_penalty" _ eq_refl)
    as (? & -> & _).
  destruct (getattr_class (E := E) self' "seed" _ eq_refl) as (? & -> & _).
  destruct (getattr_class (E := E) self' "stop" _ eq_refl)
    as (stop & -> & _).
  destruct (getattr_class (E := E) self' "max_tokens" _ eq_refl)
    as (max_tokens & -> & _).
  destruct (getattr_class (E := E) self' "api_base" _ eq_refl)
    as (? & -> & _).
  destruct (getattr_class (E := E) self' "api_type" _ eq_refl)
    as (? & -> & _).
  destruct (getattr_class (E := E) self' "api_version" _ eq_refl)
    as (? & -> & _).
  destruct is_openai_v1;
    cbv beta iota delta [mbind outcome_bind gt_1 negb];
    destruct (is_None max_tokens), (is_None stop);
    (eexists; split; [reflexivity|]; repeat split; reflexivity).
Qed.

End AzureOpenAI_facts.

(** A service that answers with two choices. *)
Definition two_choices (client : AzureOpenAI.client dict) (params : dict)
  : outcome exn (list pyobject) :=
  Returns [VStr "{}"; VStr "[]"].

Lemma chat_completion_request_witness :
  exists self,
    AzureOpenAI.__init__ (E := exn) (SDK := dict) ∅ true Returns
      (VStr "key") (VStr "https://cv.openai.azure.com/") VNone VNone VNone
      (VStr "2023-06-01-preview") (VStr "gpt-4o") (VBool true)
      [("model", VStr "gpt-3.5"); ("n", VInt 5); ("best_of", VInt 3)]
    = Returns self
    /\ exists params,
         AzureOpenAI.chat_completion true two_choices self (VStr "prompt")
         = (choices ← external
                       (two_choices (AzureOpenAI.self_client self) params);
            first_content choices)
         /\ dict_get params "messages"
            = Some (VList [VDict [("role", VStr "user");
                                  ("content", VStr "prompt")]])
         /\ dict_get params "model" = Some (VStr "gpt-4o")
         /\ dict_get params "n" = Some (VInt 1)
         /\ dict_get params "best_of" = None.
Proof.
  eexists. split; [reflexivity|].
  apply (chat_completion_request (E := exn) (SDK := dict) ∅ true Returns
           two_choices (VStr "key") (VStr "https://cv.openai.azure.com/") VNone VNone
           VNone (VStr "2023-06-01-preview") (VStr "gpt-4o") (VBool true)
           [("model", VStr "gpt-3.5"); ("n", VInt 5); ("best_of", VInt 3)]);
    reflexivity.
Defined.

(** ** The clients that are made once *)

(** The outcomes of calls made one after the other; [create] is given the
    value of the class attribute and the arguments of the call, and gives
    the outcome and the value of the class attribute after the call. *)
Fixpoint successive {X C A : Type}
    (create : option C -> A -> outcome X C * option C)
    (attribute : option C) (calls : list A) : list (outcome X C) :=
  match calls with
  | [] => []
  | arguments :: calls' =>
    let '(result, attribute') := create attribute arguments in
    result :: successive create attribute' calls'
  end.

Section once.
Context {X C A : Type}.
Variable create : option C -> A -> outcome X C * option C.
Hypothesis create_Some :
  forall client arguments,
    create (Some client) arguments = (Returns client, Some client).
Hypothesis create_None :
  forall arguments,
    (exists client, create None arguments = (Returns client, Some client))
    \/ (exists e, create None arguments = (Raises e, None)).

Lemma successive_Some (client : C) (calls : list A) (j : nat) :
  j < length calls ->
  successive create (Some client) calls !! j = Some (Returns client).
Proof.
  revert j. induction calls as [|arguments calls IH]; intros j Hj;
    [simpl in Hj; lia|].
  cbn [successive]. rewrite create_Some.
  destruct j as [|j]; [done|]. apply IH. simpl in Hj. lia.
Qed.

Lemma successive_once (calls : list A) (i j : nat) (client : C) :
  successive create None calls !! i = Some (Returns client) ->
  i <= j < length calls ->
  successive create None calls !! j = Some (Returns client).
Proof.
  revert i j. induction calls as [|arguments calls IH]; intros i j; [done|].
  cbn [successive length].
  destruct (create_None arguments) as [[client0 ->]|[e ->]].
  - destruct i as [|i].
    + intros [= ->] Hj. destruct j as [|j]; [done|].
      apply successive_Some. lia.
    + intros Hi Hj.
      change (successive create (Some client0) calls !! i
              = Some (Returns client)) in Hi.
      assert (i < length calls) as Hlt by lia.
      rewrite (successive_Some client0 calls i Hlt) in Hi.
      injection Hi as ->. destruct j as [|j]; [lia|].
      apply successive_Some. lia.
  - destruct i as [|i]; [done|]. intros Hi Hj.
    destruct j as [|j]; [lia|]. apply (IH i j); [exact Hi|lia].
Qed.

End once.

(** The arguments of a call of [create_azure_openai_chat_client]. *)
Module ChatClientArguments.
Record t : Type :=
  { api_token : pyobject; azure_endpoint : pyobject; api_version : pyobject;
    deployment_name : pyobject; temperature : pyobject; top_p : pyobject;
    presence_penalty : pyobject; max_tokens : pyobject;
    is_chat_model : pyobject }.
End ChatClientArguments.

Section clients.
Context {E SDK Credential Client : Type}.
Variable environ : gmap string string.
Variable is_openai_v1 : bool.
Variable openai_AzureOpenAI : dict -> outcome E SDK.
Variable float : pyobject -> outcome E pyobject.
Variable AzureKeyCredential : pyobject -> outcome E Credential.
Variable DocumentIntelligenceClient :
  pyobject -> Credential -> pyobject -> outcome E Client.

Definition chat_client (attribute : option (AzureOpenAI.t SDK))
    (arguments : ChatClientArguments.t) :=
  OpenAIClient.create_azure_openai_chat_client environ is_openai_v1
    openai_AzureOpenAI float attribute
    (ChatClientArguments.api_token arguments)
    (ChatClientArguments.azure_endpoint arguments)
    (ChatClientArguments.api_version arguments)
    (ChatClientArguments.deployment_name arguments)
    (ChatClientArguments.temperature arguments)
    (ChatClientArguments.top_p arguments)
    (ChatClientArguments.presence_penalty arguments)
    (ChatClientArguments.max_tokens arguments)
    (ChatClientArguments.is_chat_model arguments).

Definition document_client (attribute : option Client)
    (arguments : pyobject * pyobject * pyobject) :=
  let '(endpoint, key, api_version) := arguments in
  AzDocumentIntelligenceClient.create_document_intelligence_client
    AzureKeyCredential DocumentIntelligenceClient attribute
    endpoint key api_version.

(** X24: the chat client is made once: after a call of
    [create_azure_openai_chat_client] that has returned an object, every
    later call returns this object, whatever its arguments, even arguments
    with which [__init__] raises; a call that raises leaves the next call
    to make the object. *)
Theorem chat_client_once (calls : list ChatClientArguments.t) (i j : nat)
    (llm : AzureOpenAI.t SDK) :
  successive chat_client None calls !! i = Some (Returns llm) ->
  i <= j < length calls ->
  successive chat_client None calls !! j = Some (Returns llm).
Proof.
  apply successive_once; [done|].
  intros arguments.
  unfold chat_client, OpenAIClient.create_azure_openai_chat_client.
  destruct (_ ≫= _) as [client|e]; [left|right]; by eexists.
Qed.

(** X25: the Document Intelligence client is made once: after a call of
    [create_document_intelligence_client] that has returned a client,
    every later call returns this client, whatever the endpoint, the key
    and the version it is given. *)
Theorem document_client_once (calls : list (pyobject * pyobject * pyobject))
    (i j : nat) (client : Client) :
  successive document_client None calls !! i = Some (Returns client) ->
  i <= j < length calls ->
  successive document_client None calls !! j = Some (Returns client).
Proof.
  apply successive_once.
  - by intros c [[endpoint key] api_version].
  - intros [[endpoint key] api_version].
    unfold document_client,
      AzDocumentIntelligenceClient.create_document_intelligence_client.
    destruct (_ ≫= _) as [c|e]; [left|right]; by eexists.
Qed.

End clients.

Definition configured : ChatClientArguments.t :=
  {| ChatClientArguments.api_token := VStr "key";
     ChatClientArguments.azure_endpoint := VStr "https://cv.openai.azure.com/";
     ChatClientArguments.api_version := VStr "2023-06-01-preview";
     ChatClientArguments.deployment_name := VStr "gpt-4o";
     ChatClientArguments.temperature := VInt 0;
     ChatClientArguments.top_p := VInt 1;
     ChatClientArguments.presence_penalty := VInt 0;
     ChatClientArguments.max_tokens := VInt 1500;
     ChatClientArguments.is_chat_model := VBool true |}.

Definition unconfigured : ChatClientArguments.t :=
  {| ChatClientArguments.api_token := VNone;
     ChatClientArguments.azure_endpoint := VNone;
     ChatClientArguments.api_version := VNone;
     ChatClientArguments.deployment_name := VNone;
     ChatClientArguments.temperature := VInt 1;
     ChatClientArguments.top_p := VInt 1;
     ChatClientArguments.presence_penalty := VInt 0;
     ChatClientArguments.max_tokens := VNone;
     ChatClientArguments.is_chat_model := VBool false |}.

Lemma chat_client_once_witness :
  exists llm,
    successive (chat_client (E := exn) (SDK := dict) ∅ true Returns Returns)
      None [unconfigured; configured; unconfigured] !! 2
    = Some (Returns llm).
Proof.
  eexists.
  apply (chat_client_once (E := exn) (SDK := dict) ∅ true Returns Returns
           [unconfigured; configured; unconfigured] 1 2).
  - reflexivity.
  - simpl. lia.
Defined.

Lemma document_client_once_witness :
  successive
    (document_client (E := exn)
       (fun key => if is_None key then Raises TypeError else Returns key)
       (fun endpoint credential api_version =>
          Returns (endpoint, credential)))
    None
    [ (VStr "https://cv.cognitiveservices.azure.com/", VNone, VStr "v");
      (VStr "https://cv.cognitiveservices.azure.com/", VStr "key", VStr "v");
      (VStr "https://other.cognitiveservices.azure.com/", VStr "key2",
       VStr "v") ] !! 2
  = Some (Returns (VStr "https://cv.cognitiveservices.azure.com/",
                   VStr "key")).
Proof.
  apply (document_client_once (E := exn)
           (fun key => if is_None key then Raises TypeError else Returns key)
           (fun endpoint credential api_version =>
              Returns (endpoint, credential))
           _ 1 2).
  - reflexivity.
  - simpl. lia.
Defined.
